(** * Finance tracker backend: the email parser and the sync orchestrator

    A shallow embedding of [lib/email-parser.ts] (regular-expression
    extraction, date normalisation, transaction assembly) and of
    [cron-service.ts] (deduplication, watermark, per-account state
    machine), followed by the properties established about them.  The
    rest of the program ([lib/encryption.ts], [scripts/reset-user-auth.ts]
    and [server.ts]) is embedded at the end of Part I, and further
    properties of the whole follow at the end of Part II.

    Conventions of the embedding.
    - A JavaScript string is a [string]: a sequence of code units, here
      restricted to the Latin-1 range (one [ascii] per code unit).
    - A JavaScript number that the program computes with integers is a [Z];
      [NaN] is [None] of [option Z].  The results of [parseFloat] are kept
      as exact decimals, see [number].
    - A [Date] object is its time value, [option Z]: milliseconds since the
      epoch in UTC, [None] for an invalid date.  Local time is UTC shifted
      by the offset of the host's zone, which may change with the time
      ([Zone]); a statement made for a number [tz] is about the zone of
      that constant offset.
    - External services (token exchange, mail, ledger, registry) are
      explicit: their answers are inputs of the model, their state is
      threaded through it. *)

From Stdlib Require Import ZArith List Bool Ascii String DecimalString Lia.
From stdpp Require Import gmap strings.
Import ListNotations.

Local Open Scope Z_scope.
Local Open Scope list_scope.

(* ================================================================== *)
(** * Part I: definitions *)
(* ================================================================== *)

(** ** JavaScript strings *)

Module JSString.

Definition code (c : ascii) : N := N_of_ascii c.

Definition in_range (lo hi c : ascii) : bool :=
  ((code lo <=? code c) && (code c <=? code hi))%N.

Definition is_digit (c : ascii) : bool := in_range "0" "9" c.

Definition is_upper (c : ascii) : bool := in_range "A" "Z" c.

Definition is_lower (c : ascii) : bool := in_range "a" "z" c.

(** [\w]: the basic word characters. *)
Definition is_word (c : ascii) : bool :=
  is_upper c || is_lower c || is_digit c || (code c =? 95)%N.

(** [\s], and the characters [trim] removes: WhiteSpace and
    LineTerminator of ECMAScript, as far as Latin-1 has them
    (TAB, LF, VT, FF, CR, SP, NBSP). *)
Definition is_space (c : ascii) : bool :=
  ((9 <=? code c) && (code c <=? 13) || (code c =? 32) || (code c =? 160))%N.

(** Upper and lower case of one Latin-1 code unit, when the result is
    again one Latin-1 code unit (otherwise the character is kept, which is
    also what canonicalisation in a regular expression does). *)
Definition has_upper (c : ascii) : bool :=
  (is_lower c || ((224 <=? code c) && (code c <=? 254) && negb (code c =? 247)))%N.

Definition has_lower (c : ascii) : bool :=
  (is_upper c || ((192 <=? code c) && (code c <=? 222) && negb (code c =? 215)))%N.

Definition upper_char (c : ascii) : ascii :=
  if has_upper c then ascii_of_N (code c - 32) else c.

Definition lower_char (c : ascii) : ascii :=
  if has_lower c then ascii_of_N (code c + 32) else c.

Fixpoint map_chars (f : ascii -> ascii) (s : string) : string :=
  match s with
  | EmptyString => EmptyString
  | String c s' => String (f c) (map_chars f s')
  end.

(** [s.toLowerCase()] *)
Definition toLowerCase (s : string) : string := map_chars lower_char s.

Definition strlen (s : string) : nat := Stdlib.Strings.String.length s.

(** [s.substring(0, n)] *)
Fixpoint take (n : nat) (s : string) : string :=
  match n, s with
  | S n', String c s' => String c (take n' s')
  | _, _ => EmptyString
  end.

Fixpoint drop (n : nat) (s : string) : string :=
  match n, s with
  | S n', String _ s' => drop n' s'
  | _, _ => s
  end.

Fixpoint starts_with (p s : string) : bool :=
  match p, s with
  | EmptyString, _ => true
  | String a p', String b s' => Ascii.eqb a b && starts_with p' s'
  | String _ _, EmptyString => false
  end.

(** [s.includes(p)] *)
Fixpoint includes (p s : string) : bool :=
  starts_with p s ||
  match s with
  | EmptyString => false
  | String _ s' => includes p s'
  end.

Fixpoint rev_onto (s acc : string) : string :=
  match s with
  | EmptyString => acc
  | String c s' => rev_onto s' (String c acc)
  end.

Definition rev (s : string) : string := rev_onto s EmptyString.

Fixpoint trimStart (s : string) : string :=
  match s with
  | String c s' => if is_space c then trimStart s' else s
  | EmptyString => EmptyString
  end.

(** [s.trim()] *)
Definition trim (s : string) : string := rev (trimStart (rev (trimStart s))).

(** [s.replace(/\s+/g, ' ')]: every maximal run of white space becomes
    one space.  [in_run] tells that the previous character belonged to a
    run that has already been replaced. *)
Fixpoint collapse_spaces (in_run : bool) (s : string) : string :=
  match s with
  | EmptyString => EmptyString
  | String c s' =>
      if is_space c
      then (if in_run then collapse_spaces true s'
            else String " " (collapse_spaces true s'))
      else String c (collapse_spaces false s')
  end.

(** [s.replace(/,/g, '')] *)
Fixpoint remove_commas (s : string) : string :=
  match s with
  | EmptyString => EmptyString
  | String c s' =>
      if Ascii.eqb c "," then remove_commas s' else String c (remove_commas s')
  end.

(** [s.replace(',', '')]: the first comma only. *)
Fixpoint remove_first_comma (s : string) : string :=
  match s with
  | EmptyString => EmptyString
  | String c s' =>
      if Ascii.eqb c "," then s' else String c (remove_first_comma s')
  end.

(** [s.split(sep)] for a separator given as a predicate on single
    characters ([/[-/]/] and [':'] in the program). *)
Fixpoint split_on (sep : ascii -> bool) (cur : string) (s : string) : list string :=
  match s with
  | EmptyString => [rev cur]
  | String c s' =>
      if sep c then rev cur :: split_on sep EmptyString s'
      else split_on sep (String c cur) s'
  end.

Definition split (sep : ascii -> bool) (s : string) : list string :=
  split_on sep EmptyString s.

End JSString.

(** ** Regular expressions

    The fragment of ECMAScript regular expressions that [PATTERNS] uses,
    with the backtracking semantics of the language standard: a matcher
    returns every way to match at the current position, best first, so
    that the head of the list is the match the engine reports. *)

Module RegExp.
Import JSString.

Inductive class_item : Type :=
| CChar (c : ascii)
| CRange (lo hi : ascii)
| CDigit                      (* \d *)
| CSpace                      (* \s *)
| CWord.                      (* \w *)

Inductive regex : Type :=
| REmpty
| RChar (c : ascii)
| RClass (negated : bool) (items : list class_item)
| RSeq (r1 r2 : regex)
| RAlt (r1 r2 : regex)
| RRepeat (r : regex) (min : nat) (max : option nat) (greedy : bool)
| RGroup (i : nat) (r : regex)
| REnd.                       (* $ *)

(** A compiled expression: its pattern and its [i] flag. *)
Record RegExp : Type := mkRegExp { pattern : regex; ignoreCase : bool }.

(** Captures: group number and captured text, the latest first. *)
Definition captures : Type := list (nat * string).

Definition state : Type := (string * captures)%type.

Fixpoint get_capture (i : nat) (c : captures) : option string :=
  match c with
  | [] => None
  | (j, s) :: c' => if Nat.eqb i j then Some s else get_capture i c'
  end.

Definition set_capture (i : nat) (s : string) (c : captures) : captures :=
  (i, s) :: c.

Definition clear_captures (inner : list nat) (c : captures) : captures :=
  List.filter (fun p => negb (existsb (Nat.eqb (fst p)) inner)) c.

Fixpoint group_indices (r : regex) : list nat :=
  match r with
  | RSeq r1 r2 | RAlt r1 r2 => group_indices r1 ++ group_indices r2
  | RRepeat r' _ _ _ => group_indices r'
  | RGroup i r' => i :: group_indices r'
  | _ => []
  end.

(** Canonicalize of the standard: with the [i] flag characters are
    compared by their upper case. *)
Definition canonicalize (ic : bool) (c : ascii) : ascii :=
  if ic then upper_char c else c.

Definition char_matches (ic : bool) (p c : ascii) : bool :=
  Ascii.eqb (canonicalize ic p) (canonicalize ic c).

(** A range [lo-hi] holds [c] under [i] when it holds a character with
    the canonical form of [c]: [c] itself, its upper or its lower case. *)
Definition item_matches (ic : bool) (it : class_item) (c : ascii) : bool :=
  match it with
  | CChar p => char_matches ic p c
  | CRange lo hi =>
      in_range lo hi c
      || (ic && (in_range lo hi (upper_char c) || in_range lo hi (lower_char c)))
  | CDigit => is_digit c
  | CSpace => is_space c
  | CWord => is_word c
  end.

Definition class_matches (ic : bool) (negated : bool) (items : list class_item)
    (c : ascii) : bool :=
  xorb negated (existsb (fun it => item_matches ic it c) items).

(** The text consumed between input [s] and its suffix [s']. *)
Definition consumed (s s' : string) : string :=
  take (strlen s - strlen s') s.

(** RepeatMatcher of the standard.  [m] matches one iteration, [inner]
    are the groups inside it (reset at every iteration).  Each iteration
    lowers [min] or, once [min] is 0, must consume input, so [fuel]
    = [min + strlen s] iterations are all there can be; with no fuel left
    the only match is the one that stops here. *)
Fixpoint repeat_matcher (m : string -> captures -> list state) (inner : list nat)
    (greedy : bool) (fuel : nat) (min : nat) (max : option nat)
    (s : string) (c : captures) : list state :=
  match max, fuel with
  | Some O, _ => [(s, c)]
  | _, O => [(s, c)]
  | _, S fuel' =>
      let again :=
        flat_map
          (fun st : state =>
             let (s', c') := st in
             if Nat.eqb min 0 && Nat.leb (strlen s) (strlen s') then []
             else repeat_matcher m inner greedy fuel' (Nat.pred min)
                    (option_map Nat.pred max) s' c')
          (m s (clear_captures inner c)) in
      if negb (Nat.eqb min 0) then again
      else if greedy then again ++ [(s, c)]
      else (s, c) :: again
  end.

(** All matches of [r] at the start of [s], in priority order. *)
Fixpoint run (ic : bool) (r : regex) (s : string) (c : captures) : list state :=
  match r with
  | REmpty => [(s, c)]
  | RChar p =>
      match s with
      | String a s' => if char_matches ic p a then [(s', c)] else []
      | EmptyString => []
      end
  | RClass negated items =>
      match s with
      | String a s' => if class_matches ic negated items a then [(s', c)] else []
      | EmptyString => []
      end
  | RSeq r1 r2 =>
      flat_map (fun st : state => let (s', c') := st in run ic r2 s' c')
        (run ic r1 s c)
  | RAlt r1 r2 => run ic r1 s c ++ run ic r2 s c
  | RRepeat r' min max greedy =>
      repeat_matcher (run ic r') (group_indices r') greedy
        (min + strlen s) min max s c
  | RGroup i r' =>
      map (fun st : state =>
             let (s', c') := st in (s', set_capture i (consumed s s') c'))
        (run ic r' s c)
  | REnd =>
      match s with
      | EmptyString => [(s, c)]
      | String _ _ => []
      end
  end.

(** The result of [str.match(re)] for an expression without the [g]
    flag: the matched text and the captures. *)
Record MatchResult : Type := mkMatch { matched : string; groups : captures }.

(** [m[i]] for [i >= 1].  Every group of [PATTERNS] takes part in every
    match of its pattern; a group that did not would read [undefined],
    which is given as the empty string here (both are falsy). *)
Definition group (i : nat) (m : MatchResult) : string :=
  match get_capture i (groups m) with
  | Some s => s
  | None => EmptyString
  end.

(** The leftmost match: try the pattern at index 0, then 1, ... up to the
    end of the input. *)
Fixpoint search (ic : bool) (r : regex) (s : string) : option MatchResult :=
  match run ic r s [] with
  | (s', c) :: _ => Some (mkMatch (consumed s s') c)
  | [] =>
      match s with
      | String _ s' => search ic r s'
      | EmptyString => None
      end
  end.

(** [s.match(re)] *)
Definition match_ (s : string) (re : RegExp) : option MatchResult :=
  search (ignoreCase re) (pattern re) s.

(** A matcher that never gives back more input than it was given. *)
Definition shrinking (m : string -> captures -> list state) : Prop :=
  forall s c s' c', In (s', c') (m s c) -> (strlen s' <= strlen s)%nat.

(** A sufficient test that group [i] takes part in every match of [r]:
    it lies on every path through [r], outside repetitions, and no later
    repetition resets it. *)
Fixpoint always_captures (i : nat) (r : regex) : bool :=
  match r with
  | RGroup j r' => Nat.eqb i j || always_captures i r'
  | RSeq r1 r2 =>
      always_captures i r2
      || (always_captures i r1 && negb (existsb (Nat.eqb i) (group_indices r2)))
  | RAlt r1 r2 => always_captures i r1 && always_captures i r2
  | _ => false
  end.

(** *** Pattern combinators, to write [PATTERNS] as the source does *)

Fixpoint lit (s : string) : regex :=
  match s with
  | EmptyString => REmpty
  | String c EmptyString => RChar c
  | String c s' => RSeq (RChar c) (lit s')
  end.

Fixpoint seq_of (rs : list regex) : regex :=
  match rs with
  | [] => REmpty
  | [r] => r
  | r :: rs' => RSeq r (seq_of rs')
  end.

Fixpoint alt_of (rs : list regex) : regex :=
  match rs with
  | [] => REmpty
  | [r] => r
  | r :: rs' => RAlt r (alt_of rs')
  end.

Definition star (r : regex) : regex := RRepeat r 0 None true.
Definition plus (r : regex) : regex := RRepeat r 1 None true.
Definition plus_lazy (r : regex) : regex := RRepeat r 1 None false.
Definition opt (r : regex) : regex := RRepeat r 0 (Some 1%nat) true.
Definition times (n m : nat) (r : regex) : regex := RRepeat r n (Some m) true.

Definition digit : regex := RClass false [CDigit].
Definition space : regex := RClass false [CSpace].
Definition word : regex := RClass false [CWord].
Definition non_space : regex := RClass true [CSpace].
Definition one_of (items : list class_item) : regex := RClass false items.

End RegExp.

(** ** JavaScript numbers and their conversions *)

Module JSNumber.
Import JSString.

(** [String(n)] for an integer or [NaN]. *)
Definition to_string (n : option Z) : string :=
  match n with
  | Some z => DecimalString.NilZero.string_of_int (Z.to_int z)
  | None => "NaN"
  end.

(** [s.padStart(2, '0')] *)
Definition padStart2 (s : string) : string :=
  match s with
  | EmptyString => "00"
  | String c EmptyString => String "0" s
  | _ => s
  end.

Definition digit_value (c : ascii) : Z := Z.of_N (code c) - 48.

(** The longest prefix of decimal digits: its value continuing [acc], the
    number of digits read and the remaining text. *)
Fixpoint read_digits (s : string) (acc : Z) (n : nat) : Z * nat * string :=
  match s with
  | String c s' =>
      if is_digit c then read_digits s' (10 * acc + digit_value c) (S n)
      else (acc, n, s)
  | EmptyString => (acc, n, s)
  end.

(** [parseInt(s, 10)]: leading white space, an optional sign, then the
    longest run of digits; [NaN] when there is none. *)
Definition parseInt (s : string) : option Z :=
  let s := trimStart s in
  let '(sign, s) :=
    match s with
    | String "-" s' => (-1, s')
    | String "+" s' => (1, s')
    | _ => (1, s)
    end in
  let '(v, n, _) := read_digits s 0 0 in
  if Nat.eqb n 0 then None else Some (sign * v).

(** The value of a hexadecimal digit. *)
Definition hex_value (c : ascii) : option Z :=
  if is_digit c then Some (digit_value c)
  else if in_range "a" "f" c then Some (Z.of_N (code c) - 87)
  else if in_range "A" "F" c then Some (Z.of_N (code c) - 55)
  else None.

(** The longest prefix of hexadecimal digits: its value continuing
    [acc] and the number of digits read. *)
Fixpoint read_hex (s : string) (acc : Z) (n : nat) : Z * nat :=
  match s with
  | String c s' =>
      match hex_value c with
      | Some v => read_hex s' (16 * acc + v) (S n)
      | None => (acc, n)
      end
  | EmptyString => (acc, n)
  end.

(** [parseInt(s)], without a radix: as [parseInt(s, 10)], except that a
    text that starts, after white space and sign, with "0x" or "0X" is
    read in base 16. *)
Definition parseInt_no_radix (s : string) : option Z :=
  let s := trimStart s in
  let '(sign, s) :=
    match s with
    | String "-" s' => (-1, s')
    | String "+" s' => (1, s')
    | _ => (1, s)
    end in
  let decimal :=
    let '(v, n, _) := read_digits s 0 0 in
    if Nat.eqb n 0 then None else Some (sign * v) in
  match s with
  | String "0" (String x s') =>
      if Ascii.eqb x "x" || Ascii.eqb x "X" then
        let '(v, n) := read_hex s' 0 0 in
        if Nat.eqb n 0 then None else Some (sign * v)
      else decimal
  | _ => decimal
  end.

(** [parseInt(x, 10)] where [x] may be [undefined] (a missing array
    element): [NaN]. *)
Definition parseInt_opt (x : option string) : option Z :=
  match x with
  | Some s => parseInt s
  | None => None
  end.

(** A number read by [parseFloat]: [NaN], or the double nearest to the
    decimal [mantissa / 10 ^ decimals].  The decimal is kept exact; the
    one place where the program observes the rounding, the test whether
    the number is zero, is [is_zero] below. *)
Inductive number : Type :=
| NaN
| Dec (mantissa : Z) (decimals : nat).

(** [parseFloat(s)] for the texts the program applies it to, which are
    digits with at most one point (a match of [[\d,]+\.?\d*] without its
    commas): digits, an optional point, digits; [NaN] when there is no
    digit at all.  Text after the number is ignored. *)
Definition parseFloat (s : string) : number :=
  let '(i, ni, rest) := read_digits s 0 0 in
  match rest with
  | String "." rest' =>
      let '(v, nf, _) := read_digits rest' i 0 in
      if Nat.eqb (ni + nf) 0 then NaN else Dec v nf
  | _ => if Nat.eqb ni 0 then NaN else Dec i 0
  end.

(** A non-negative decimal is the double 0 when it rounds to it: when it
    is at most half the least positive double, [2 ^ -1075]. *)
Definition is_zero (n : number) : bool :=
  match n with
  | NaN => false
  | Dec m e => m * 2 ^ 1075 <=? 10 ^ Z.of_nat e
  end.

(** [!n]: a number is falsy when it is 0 or [NaN]. *)
Definition falsy (n : number) : bool :=
  match n with
  | NaN => true
  | Dec _ _ => is_zero n
  end.

End JSNumber.

(** ** JavaScript dates

    The time-value arithmetic of the language standard (Day, YearFromTime,
    MonthFromTime, DateFromTime, MakeDay, MakeTime, MakeDate, TimeClip). *)

Module JSDate.
Import JSNumber.

Definition Date : Type := option Z.

Definition msPerDay : Z := 86400000.
Definition msPerHour : Z := 3600000.
Definition msPerMinute : Z := 60000.
Definition msPerSecond : Z := 1000.

Definition Day (t : Z) : Z := t / msPerDay.
Definition TimeWithinDay (t : Z) : Z := t mod msPerDay.

Definition is_leap (y : Z) : bool :=
  (y mod 4 =? 0) && (negb (y mod 100 =? 0) || (y mod 400 =? 0)).

Definition DayFromYear (y : Z) : Z :=
  365 * (y - 1970) + (y - 1969) / 4 - (y - 1901) / 100 + (y - 1601) / 400.

(** The year of day number [d]: the largest [y] with
    [DayFromYear y <= d], found from an estimate that is off by at most
    one. *)
Definition YearFromDay (d : Z) : Z :=
  let y := 1970 + (400 * d) / 146097 in
  if d <? DayFromYear y then y - 1
  else if DayFromYear (y + 1) <=? d then y + 1
  else y.

Definition YearFromTime (t : Z) : Z := YearFromDay (Day t).

Definition DayWithinYear (t : Z) : Z := Day t - DayFromYear (YearFromTime t).

Definition InLeapYear (t : Z) : Z := if is_leap (YearFromTime t) then 1 else 0.

(** The day of the year on which month [m] (0 = January) starts. *)
Definition month_start (leap : Z) (m : Z) : Z :=
  match m with
  | 0 => 0
  | 1 => 31
  | 2 => 59 + leap
  | 3 => 90 + leap
  | 4 => 120 + leap
  | 5 => 151 + leap
  | 6 => 181 + leap
  | 7 => 212 + leap
  | 8 => 243 + leap
  | 9 => 273 + leap
  | 10 => 304 + leap
  | _ => 334 + leap
  end.

Definition month_of_day (leap : Z) (d : Z) : Z :=
  if d <? 31 then 0
  else if d <? 59 + leap then 1
  else if d <? 90 + leap then 2
  else if d <? 120 + leap then 3
  else if d <? 151 + leap then 4
  else if d <? 181 + leap then 5
  else if d <? 212 + leap then 6
  else if d <? 243 + leap then 7
  else if d <? 273 + leap then 8
  else if d <? 304 + leap then 9
  else if d <? 334 + leap then 10
  else 11.

Definition MonthFromTime (t : Z) : Z :=
  month_of_day (InLeapYear t) (DayWithinYear t).

Definition DateFromTime (t : Z) : Z :=
  DayWithinYear t - month_start (InLeapYear t) (MonthFromTime t) + 1.

Definition HourFromTime (t : Z) : Z := (t / msPerHour) mod 24.
Definition MinFromTime (t : Z) : Z := (t / msPerMinute) mod 60.
Definition SecFromTime (t : Z) : Z := (t / msPerSecond) mod 60.
Definition msFromTime (t : Z) : Z := t mod msPerSecond.

Definition MakeTime (hour min sec ms : Z) : Z :=
  hour * msPerHour + min * msPerMinute + sec * msPerSecond + ms.

Definition MakeDay (year month date : Z) : Z :=
  let ym := year + month / 12 in
  let mn := month mod 12 in
  DayFromYear ym + month_start (if is_leap ym then 1 else 0) mn + date - 1.

Definition MakeDate (day time : Z) : Z := day * msPerDay + time.

Definition TimeClip (t : Z) : Date :=
  if 8640000000000000 <? Z.abs t then None else Some t.

(** The time zone of the host.  The offset of local time from UTC, in
    milliseconds, depends on the time: [offset_at z t] is the offset in
    force at the instant [t], and [offset_of_local z t] is the offset by
    which the host reads the local time [t] (for a local time that a
    change of the offset skips or repeats, the offset the host chooses).
    These are the two uses of LocalTZA(t, isUTC) in the language
    standard. *)
Record Zone : Type := mkZone {
  offset_at : Z -> Z;
  offset_of_local : Z -> Z;
}.

(** A zone whose offset never changes.  A number that stands where a zone
    is expected is the zone of that offset. *)
Definition fixed_offset (tza : Z) : Zone := mkZone (fun _ => tza) (fun _ => tza).

Coercion fixed_offset : Z >-> Zone.

Section LocalTime.

Variable LocalTZA : Zone.

Definition LocalTime (t : Z) : Z := t + offset_at LocalTZA t.
Definition UTC (t : Z) : Z := t - offset_of_local LocalTZA t.

(** [new Date(year, month, day)] *)
Definition Date_of_ymd (year month day : option Z) : Date :=
  y ← year; m ← month; dt ← day;
  let yr := if (0 <=? y) && (y <=? 99) then 1900 + y else y in
  TimeClip (UTC (MakeDate (MakeDay yr m dt) 0)).

(** [d.setHours(hour, min, sec)], giving the updated date. *)
Definition setHours (d : Date) (hour min sec : option Z) : Date :=
  t ← d; h ← hour; m ← min; s ← sec;
  let lt := LocalTime t in
  TimeClip (UTC (MakeDate (Day lt) (MakeTime h m s (msFromTime lt)))).

Definition getDate (d : Date) : option Z := DateFromTime ∘ LocalTime <$> d.
Definition getMonth (d : Date) : option Z := MonthFromTime ∘ LocalTime <$> d.
Definition getFullYear (d : Date) : option Z := YearFromTime ∘ LocalTime <$> d.
Definition getHours (d : Date) : option Z := HourFromTime ∘ LocalTime <$> d.
Definition getMinutes (d : Date) : option Z := MinFromTime ∘ LocalTime <$> d.

End LocalTime.

End JSDate.

(** ** lib/email-parser.ts *)

Module EmailParser.
Import JSString JSNumber JSDate RegExp.

Inductive TransactionType : Type := Credit | Debit.

(** [availableBalance: number | string]: the string is only ever ['N/A']. *)
Inductive Balance : Type :=
| NotAvailable
| Available (n : number).

Record ParsedTransaction : Type := mkTransaction {
  dateTime : string;
  amount : number;
  type : TransactionType;
  method : string;
  account : string;
  description : string;
  referenceNumber : string;
  availableBalance : Balance;
  category : string;
  notes : string;
  emailReceivedDate : string;
}.

(** [emailData] of a failed parse; [received_date] is the received date,
    which the program prints with [toString]. *)
Record EmailData : Type := mkEmailData {
  email_id : string;
  subject : string;
  body_snippet : string;
  received_date : Date;
  from : string;
}.

(** [ParseResult]: [success: true] with the transaction, or
    [success: false] with the error and the email data. *)
Inductive ParseResult : Type :=
| Success (transaction : ParsedTransaction)
| Failure (error : string) (emailData : EmailData).

(** The patterns of the source, each written with the combinators of
    [RegExp]; the source text of a pattern is given above its definition
    (a star that the source puts right before a closing bracket is
    followed by a blank there). *)
Module PATTERNS.

(** The numeric token <<[\d,]+\.?\d*>> of [amount] and [balance]. *)
Definition decimal_token : regex :=
  seq_of [plus (one_of [CDigit; CChar ","]); opt (RChar "."); star digit].

(** <<[-/]>> *)
Definition date_sep : regex := one_of [CChar "-"; CChar "/"].

(** [amount]: <</(?:Rs\.?|INR)\s*(T)/i>> with the numeric token for <<T>> *)
Definition amount : RegExp :=
  mkRegExp
    (seq_of [alt_of [RSeq (lit "Rs") (opt (RChar ".")); lit "INR"];
             star space;
             RGroup 1 decimal_token])
    true.

(** [type]: <</(credited|debited)/i>> *)
Definition type : RegExp :=
  mkRegExp (RGroup 1 (alt_of [lit "credited"; lit "debited"])) true.

(** [account]: <</(?:account\s*\*{0,2}|XX|ending\s* )(\d{4})/i>> *)
Definition account : RegExp :=
  mkRegExp
    (seq_of [alt_of [seq_of [lit "account"; star space; times 0 2 (RChar "*")];
                     lit "XX";
                     seq_of [lit "ending"; star space]];
             RGroup 1 (times 4 4 digit)])
    true.

(** [date]: <</(\d{2}[-/]\d{2}[-/]\d{2,4}|\d{1,2}\s+[A-Za-z]{3},?\s+\d{4})/>> *)
Definition date : RegExp :=
  mkRegExp
    (RGroup 1
       (alt_of
          [seq_of [times 2 2 digit; date_sep; times 2 2 digit; date_sep;
                   times 2 4 digit];
           seq_of [times 1 2 digit; plus space;
                   times 3 3 (one_of [CRange "A" "Z"; CRange "a" "z"]);
                   opt (RChar ","); plus space; times 4 4 digit]]))
    false.

(** [time]: <</at\s+(\d{2}:\d{2}(?::\d{2})?)/>> *)
Definition time : RegExp :=
  mkRegExp
    (seq_of [lit "at"; plus space;
             RGroup 1
               (seq_of [times 2 2 digit; RChar ":"; times 2 2 digit;
                        opt (seq_of [RChar ":"; times 2 2 digit])])])
    false.

(** [method]: <</(UPI|Debit Card|Credit Card|Cash Deposit(?:\s+Machine)?|Net Banking|NEFT|IMPS|RTGS)/i>> *)
Definition method : RegExp :=
  mkRegExp
    (RGroup 1
       (alt_of
          [lit "UPI"; lit "Debit Card"; lit "Credit Card";
           seq_of [lit "Cash Deposit"; opt (seq_of [plus space; lit "Machine"])];
           lit "Net Banking"; lit "NEFT"; lit "IMPS"; lit "RTGS"]))
    true.

(** [referenceNumber]: <</(?:reference number is|ref(?:erence)?\.?\s*(?:no|number)?\.?\s*(?:is)?)\s*:?\s*(\w+)/i>> *)
Definition referenceNumber : RegExp :=
  mkRegExp
    (seq_of
       [alt_of
          [lit "reference number is";
           seq_of [lit "ref"; opt (lit "erence"); opt (RChar "."); star space;
                   opt (alt_of [lit "no"; lit "number"]); opt (RChar ".");
                   star space; opt (lit "is")]];
        star space; opt (RChar ":"); star space;
        RGroup 1 (plus word)])
    true.

(** [upiMerchant]: <</(?:to|by)\s+VPA\s+([^\s]+@[^\s]+)\s+([A-Z][A-Za-z\s]+?)(?:\s+on|\s+Your|$)/i>> *)
Definition upiMerchant : RegExp :=
  mkRegExp
    (seq_of
       [alt_of [lit "to"; lit "by"]; plus space; lit "VPA"; plus space;
        RGroup 1 (seq_of [plus non_space; RChar "@"; plus non_space]);
        plus space;
        RGroup 2
          (seq_of [one_of [CRange "A" "Z"];
                   plus_lazy (one_of [CRange "A" "Z"; CRange "a" "z"; CSpace])]);
        alt_of [seq_of [plus space; lit "on"];
                seq_of [plus space; lit "Your"];
                REnd]])
    true.

(** [cardMerchant]: <</at\s+([A-Z][A-Z0-9\s\-]+?)(?:\s+on|\s+at\s+\d)/i>> *)
Definition cardMerchant : RegExp :=
  mkRegExp
    (seq_of
       [lit "at"; plus space;
        RGroup 1
          (seq_of [one_of [CRange "A" "Z"];
                   plus_lazy
                     (one_of [CRange "A" "Z"; CRange "0" "9"; CSpace; CChar "-"])]);
        alt_of [seq_of [plus space; lit "on"];
                seq_of [plus space; lit "at"; plus space; digit]]])
    true.

(** [depositLocation]: <</at\s+([A-Za-z\s\-]+)(?:\s+via)/i>> *)
Definition depositLocation : RegExp :=
  mkRegExp
    (seq_of
       [lit "at"; plus space;
        RGroup 1 (plus (one_of [CRange "A" "Z"; CRange "a" "z"; CSpace; CChar "-"]));
        seq_of [plus space; lit "via"]])
    true.

(** [balance]: <</available balance (?:is\s+)?(?:INR|Rs\.?)\s*(T)/i>> with the numeric token for <<T>> *)
Definition balance : RegExp :=
  mkRegExp
    (seq_of
       [lit "available balance "; opt (seq_of [lit "is"; plus space]);
        alt_of [lit "INR"; RSeq (lit "Rs") (opt (RChar "."))];
        star space;
        RGroup 1 decimal_token])
    true.

End PATTERNS.

Section Parser.

(** The time zone of the server. *)
Variable LocalTZA : Zone.

(** [new Date(text)] for a text that is not in the standard's own format:
    what it gives is left to the JavaScript engine. *)
Variable Date_parse : string -> Date.

(** [x % 12 || 12] *)
Definition hours12 (hours : option Z) : option Z :=
  match (fun h => Z.rem h 12) <$> hours with
  | Some 0 | None => Some 12
  | Some h => Some h
  end.

Definition formatToIndianDateTime (date : Date) : string :=
  let day := padStart2 (to_string (getDate LocalTZA date)) in
  let month := padStart2 (to_string (Z.add 1 <$> getMonth LocalTZA date)) in
  let year := getFullYear LocalTZA date in
  let hours := getHours LocalTZA date in
  let minutes := padStart2 (to_string (getMinutes LocalTZA date)) in
  let ampm :=
    match hours with
    | Some h => if 12 <=? h then "PM" else "AM"
    | None => "AM"
    end in
  let hours := hours12 hours in
  day +:+ "/" +:+ month +:+ "/" +:+ to_string year +:+ " "
    +:+ to_string hours +:+ ":" +:+ minutes +:+ " " +:+ ampm.

Definition is_date_sep (c : ascii) : bool := Ascii.eqb c "-" || Ascii.eqb c "/".

Definition parseEmailDate (dateStr : string) (timeStr : option string) : Date :=
  let parsedDate :=
    if includes "-" dateStr || includes "/" dateStr then
      let parts := split is_date_sep dateStr in
      let day := parseInt_opt (nth_error parts 0) in
      let month := Z.add (-1) <$> parseInt_opt (nth_error parts 1) in
      let year := parseInt_opt (nth_error parts 2) in
      let year := (fun y => if y <? 100 then 2000 + y else y) <$> year in
      Date_of_ymd LocalTZA year month day
    else
      Date_parse (remove_first_comma dateStr) in
  match timeStr with
  | Some (String _ _ as timeStr) =>
      let timeParts := split (Ascii.eqb ":") timeStr in
      setHours LocalTZA parsedDate
        (parseInt_opt (nth_error timeParts 0))
        (parseInt_opt (nth_error timeParts 1))
        (match nth_error timeParts 2 with
         | Some (String _ _ as sec) => parseInt sec
         | _ => Some 0
         end)
  | _ => parsedDate
  end.

(** [!transaction.type]: both ['Credit'] and ['Debit'] are non-empty
    strings, so the test is false whatever the type. *)
Definition type_falsy (t : TransactionType) : bool :=
  match t with
  | Credit => false
  | Debit => false
  end.

Definition is_empty (s : string) : bool :=
  match s with
  | EmptyString => true
  | String _ _ => false
  end.

(** The body of the [try] block never throws on strings: the [catch]
    branch of the source has no counterpart here. *)
Definition parseHDFCEmail (emailBody emailSubject : string) (receivedDate : Date)
    (emailId : string) : ParseResult :=
  let emailReceivedDate := formatToIndianDateTime receivedDate in
  let normalizedBody := trim (collapse_spaces false emailBody) in
  let amount :=
    match match_ normalizedBody PATTERNS.amount with
    | Some amountMatch => parseFloat (remove_commas (group 1 amountMatch))
    | None => Dec 0 0
    end in
  let type :=
    match match_ normalizedBody PATTERNS.type with
    | Some typeMatch =>
        if String.eqb (toLowerCase (group 1 typeMatch)) "credited"
        then Credit else Debit
    | None => Debit
    end in
  let account :=
    match match_ normalizedBody PATTERNS.account with
    | Some accountMatch => group 1 accountMatch
    | None => ""
    end in
  let dateMatch := match_ normalizedBody PATTERNS.date in
  let timeMatch := match_ normalizedBody PATTERNS.time in
  let dateTime :=
    match dateMatch with
    | Some dateMatch =>
        let parsedDate := parseEmailDate (group 1 dateMatch) (group 1 <$> timeMatch) in
        formatToIndianDateTime parsedDate
    | None => emailReceivedDate
    end in
  let method :=
    match match_ normalizedBody PATTERNS.method with
    | Some methodMatch =>
        let method := group 1 methodMatch in
        if includes "cash deposit" (toLowerCase method) then "Cash Deposit"
        else method
    | None =>
        if includes "upi" (toLowerCase normalizedBody) then "UPI" else "Other"
    end in
  let referenceNumber :=
    match match_ normalizedBody PATTERNS.referenceNumber with
    | Some refMatch => group 1 refMatch
    | None => ""
    end in
  let description :=
    if String.eqb method "UPI" then
      match match_ normalizedBody PATTERNS.upiMerchant with
      | Some upiMatch => trim (group 2 upiMatch) +:+ " (" +:+ group 1 upiMatch +:+ ")"
      | None => ""
      end
    else if String.eqb method "Debit Card" || String.eqb method "Credit Card" then
      match match_ normalizedBody PATTERNS.cardMerchant with
      | Some cardMatch => trim (group 1 cardMatch)
      | None => ""
      end
    else if String.eqb method "Cash Deposit" then
      match match_ normalizedBody PATTERNS.depositLocation with
      | Some depositMatch => "Cash Deposit at " +:+ trim (group 1 depositMatch)
      | None => ""
      end
    else "" in
  let description :=
    if is_empty description && negb (is_empty emailSubject)
    then take 50 emailSubject else description in
  let availableBalance :=
    match match_ normalizedBody PATTERNS.balance with
    | Some balanceMatch => Available (parseFloat (remove_commas (group 1 balanceMatch)))
    | None => NotAvailable
    end in
  if falsy amount || type_falsy type || is_empty account then
    Failure "Missing required fields (amount, type, or account)"
      (mkEmailData emailId emailSubject (take 200 emailBody) receivedDate
         "alerts@hdfcbank.net")
  else
    let referenceNumber :=
      if is_empty referenceNumber then "EMAIL_" +:+ emailId else referenceNumber in
    Success
      (mkTransaction dateTime amount type method account description
         referenceNumber availableBalance "" "" emailReceivedDate).

End Parser.

End EmailParser.

(** ** cron-service.ts *)

Module CronService.
Import JSString JSNumber JSDate RegExp EmailParser.

(** An ISO timestamp ([toISOString()]) is modelled by the instant it
    denotes, in milliseconds since the epoch. *)
Definition ISOString : Type := Z.

(** An entry of the rejected-message log. *)
Record MissedEmail : Type := mkMissed {
  missed_email_id : string;
  missed_subject : string;
  missed_body_snippet : string;
  missed_received_date : ISOString;
  missed_from : string;
}.

(** A row of the [users] table.  [google_sheet_id] and
    [last_processed_email_timestamp] may be [null]; [last_sync_time] is
    the column that the updates write. *)
Record User : Type := mkUser {
  id : string;
  google_email : string;
  google_access_token : string;
  google_refresh_token : string;
  google_sheet_id : option string;
  last_processed_email_timestamp : option ISOString;
  is_processing : bool;
  is_active : bool;
  missed_emails : list MissedEmail;
  last_sync_time : option ISOString;
}.

(** The partial updates that the program sends to the registry. *)
Definition set_is_processing (b : bool) (u : User) : User :=
  mkUser (id u) (google_email u) (google_access_token u) (google_refresh_token u)
    (google_sheet_id u) (last_processed_email_timestamp u) b (is_active u)
    (missed_emails u) (last_sync_time u).

Definition set_is_active (b : bool) (u : User) : User :=
  mkUser (id u) (google_email u) (google_access_token u) (google_refresh_token u)
    (google_sheet_id u) (last_processed_email_timestamp u) (is_processing u) b
    (missed_emails u) (last_sync_time u).

Definition set_last_sync_time (t : ISOString) (u : User) : User :=
  mkUser (id u) (google_email u) (google_access_token u) (google_refresh_token u)
    (google_sheet_id u) (last_processed_email_timestamp u) (is_processing u)
    (is_active u) (missed_emails u) (Some t).

Definition set_last_processed (t : option ISOString) (u : User) : User :=
  mkUser (id u) (google_email u) (google_access_token u) (google_refresh_token u)
    (google_sheet_id u) t (is_processing u) (is_active u) (missed_emails u)
    (last_sync_time u).

Definition set_missed_emails (l : list MissedEmail) (u : User) : User :=
  mkUser (id u) (google_email u) (google_access_token u) (google_refresh_token u)
    (google_sheet_id u) (last_processed_email_timestamp u) (is_processing u)
    (is_active u) l (last_sync_time u).

(** A ledger: the rows of [Transactions!A:K] below the header and the
    cell [Metadata!B2].  The cells are kept as the program wrote them. *)
Record Sheet : Type := mkSheet {
  rows : list ParsedTransaction;
  metadata_B2 : option ISOString;
}.

(** The state behind the external services: the account registry (the
    [users] table, in table order) and the ledgers by spreadsheet id. *)
Record World : Type := mkWorld {
  registry : list User;
  ledger : gmap string Sheet;
}.

(** The [data] member of a body: the base64 text that the mail service
    sends, and the text that
    [Buffer.from(data, 'base64').toString('utf-8')] makes of it.  The
    decoding is library code; its result is an input here. *)
Record BodyData : Type := mkData {
  base64 : string;
  utf8 : string;
}.

(** A part of a multi-part message and a fetched message. *)
Record MessagePart : Type := mkPart {
  mimeType : string;
  part_data : option BodyData;
}.

Record Message : Type := mkMessage {
  headers : list (string * string);
  internalDate : option string;
  body_data : option BodyData;
  parts : option (list MessagePart);
}.

(** What the external services answer during the sync of one account.
    [None] stands for a call that throws, except for
    [refreshAccessToken], which catches its own faults: it returns
    [null] when the exchange fails and otherwise the [access_token]
    member of the answer, whatever that is ([None] also stands for a
    missing member; the text may be empty).  [decrypt] is the decryption
    of lib/encryption.ts, which
    throws 'Failed to decrypt token' on every failure; [gmail_list]
    answers a query with the ids of the messages (the service is asked
    for at most 50); [now] is the time of the account update. *)
Record Env : Type := mkEnv {
  decrypt : string -> option string;
  refreshAccessToken : string -> option string;
  gmail_list : string -> option (list string);
  gmail_get : string -> option Message;
  sheets_get_ok : bool;
  sheets_append_ok : bool;
  sheets_update_ok : bool;
  now : ISOString;
}.

(** *** Code that may throw and that changes the world *)

Inductive outcome (A : Type) : Type :=
| Returned (a : A)
| Thrown.
Arguments Returned {A} a.
Arguments Thrown {A}.

Definition M (A : Type) : Type := World -> World * outcome A.

Definition ret {A : Type} (a : A) : M A := fun w => (w, Returned a).

Definition throw {A : Type} : M A := fun w => (w, Thrown).

Definition bind {A B : Type} (m : M A) (k : A -> M B) : M B :=
  fun w =>
    match m w with
    | (w', Returned a) => k a w'
    | (w', Thrown) => (w', Thrown)
    end.

(** [try { m } catch { handler }] *)
Definition try_catch {A : Type} (m : M A) (handler : M A) : M A :=
  fun w =>
    match m w with
    | (w', Returned a) => (w', Returned a)
    | (w', Thrown) => handler w'
    end.

Notation "x <~ m ;; k" := (bind m (fun x => k))
  (at level 100, m at level 99, k at level 200, right associativity).
Notation "m ;;; k" := (bind m (fun _ => k))
  (at level 100, k at level 200, right associativity).

(** A call that throws when it has no answer. *)
Definition call {A : Type} (answer : option A) : M A :=
  match answer with
  | Some a => ret a
  | None => throw
  end.

(** [supabase.from('users').update(patch).eq('id', uid)]: the patch is
    applied to the rows with that id.  The client reports a failure in
    its result and does not throw; the program does not look at the
    result, and the registry is taken to carry out the update. *)
Definition patch_row (uid : string) (patch : User -> User) (u : User) : User :=
  if String.eqb (id u) uid then patch u else u.

Definition update_user (uid : string) (patch : User -> User) : M unit :=
  fun w => (mkWorld (map (patch_row uid patch) (registry w)) (ledger w), Returned tt).

(** [sheets.spreadsheets.values.get] on [Transactions!G2:G]: the rows of
    the reference column, one cell each. *)
Definition sheets_get_references (env : Env) (sheet_id : string) : M (list (list string)) :=
  fun w =>
    match sheets_get_ok env, ledger w !! sheet_id with
    | true, Some sh => (w, Returned (map (fun t => [referenceNumber t]) (rows sh)))
    | _, _ => (w, Thrown)
    end.

(** [sheets.spreadsheets.values.append] on [Transactions!A:K] *)
Definition sheets_append (env : Env) (sheet_id : string)
    (values : list ParsedTransaction) : M unit :=
  fun w =>
    match sheets_append_ok env, ledger w !! sheet_id with
    | true, Some sh =>
        (mkWorld (registry w)
           (<[sheet_id := mkSheet (rows sh ++ values) (metadata_B2 sh)]> (ledger w)),
         Returned tt)
    | _, _ => (w, Thrown)
    end.

(** [sheets.spreadsheets.values.update] on [Metadata!B2] *)
Definition sheets_update_metadata (env : Env) (sheet_id : string)
    (value : ISOString) : M unit :=
  fun w =>
    match sheets_update_ok env, ledger w !! sheet_id with
    | true, Some sh =>
        (mkWorld (registry w) (<[sheet_id := mkSheet (rows sh) (Some value)]> (ledger w)),
         Returned tt)
    | _, _ => (w, Thrown)
    end.

(** [date.toISOString()]: throws a RangeError on an invalid date. *)
Definition toISOString (d : Date) : option ISOString := d.

(** *** The message loop *)

(** The local variables of [processUser] that the loop over the messages
    changes.  [latestTimestamp] is [null] ([None]) or a date, which may be
    invalid ([Some None]). *)
Record LoopState : Type := mkLoop {
  existingRefs : gset string;
  newTransactions : list ParsedTransaction;
  missedEmails : list MissedEmail;
  latestTimestamp : option Date;
}.

(** Lines 125-127: the references already in the ledger; empty cells are
    left out. *)
Definition add_row (refs : gset string) (row : list string) : gset string :=
  match row with
  | String c r :: _ => {[ String c r ]} ∪ refs
  | _ => refs
  end.

Definition existing_refs (values : list (list string)) : gset string :=
  fold_left add_row values ∅.

(** Lines 165-169: a transaction is kept when its reference is new, and
    its reference is then known. *)
Definition keep_if_new (st : gset string * list ParsedTransaction)
    (t : ParsedTransaction) : gset string * list ParsedTransaction :=
  let (refs, new) := st in
  if bool_decide (referenceNumber t ∈ refs) then (refs, new)
  else ({[ referenceNumber t ]} ∪ refs, new ++ [t]).

(** [a > b] on dates: false when either is invalid. *)
Definition date_gt (a b : Date) : bool :=
  match a, b with
  | Some x, Some y => y <? x
  | _, _ => false
  end.

Section Sync.

Variable LocalTZA : Zone.
Variable Date_parse : string -> Date.

(** [headers.find(h => h.name?.toLowerCase() === name)?.value] *)
Definition find_header (name : string) (hs : list (string * string)) : option string :=
  snd <$> find (fun h => String.eqb (toLowerCase (fst h)) name) hs.

Definition truthy (s : option string) : bool :=
  match s with
  | Some (String _ _) => true
  | _ => false
  end.

(** Lines 147-149. *)
Definition subject_of (msg : Message) : string :=
  match find_header "subject" (headers msg) with
  | Some (String c s) => String c s
  | _ => ""
  end.

Definition receivedDate_of (msg : Message) : Date :=
  match find_header "date" (headers msg) with
  | Some (String c s) => Date_parse (String c s)
  | _ =>
      n ← parseInt_no_radix (match internalDate msg with
                             | Some (String c s) => String c s
                             | _ => "0"
                             end);
      TimeClip n
  end.

(** Lines 151-161: the test is on the [data] member as it is sent, the
    body is what decoding it gives. *)
Definition body_of (msg : Message) : string :=
  if truthy (base64 <$> body_data msg) then default "" (utf8 <$> body_data msg)
  else
    match parts msg with
    | Some ps =>
        match find (fun p => String.eqb (mimeType p) "text/plain"
                             && truthy (base64 <$> part_data p)) ps with
        | Some p => default "" (utf8 <$> part_data p)
        | None => ""
        end
    | None => ""
    end.

(** Lines 137-185: one message.  A fault while it is handled (the fetch
    fails, or the received date of a rejected message is invalid and
    cannot be printed) leaves the loop state as it was. *)
Definition process_message (env : Env) (st : LoopState) (message_id : string) : LoopState :=
  match gmail_get env message_id with
  | None => st
  | Some msg =>
      let subject := subject_of msg in
      let receivedDate := receivedDate_of msg in
      let body := body_of msg in
      let result := parseHDFCEmail LocalTZA Date_parse body subject receivedDate message_id in
      let handled :=
        match result with
        | Success transaction =>
            let (refs, new) :=
              keep_if_new (existingRefs st, newTransactions st) transaction in
            Some (mkLoop refs new (missedEmails st) (latestTimestamp st))
        | Failure _ _ =>
            iso ← toISOString receivedDate;
            Some (mkLoop (existingRefs st) (newTransactions st)
                    (missedEmails st
                       ++ [mkMissed message_id subject (take 200 body) iso
                             "alerts@hdfcbank.net"])
                    (latestTimestamp st))
        end in
      match handled with
      | None => st
      | Some st' =>
          let newer :=
            match latestTimestamp st' with
            | None => true
            | Some latest => date_gt receivedDate latest
            end in
          if newer
          then mkLoop (existingRefs st') (newTransactions st') (missedEmails st')
                 (Some receivedDate)
          else st'
      end
  end.

Definition base_query : string :=
  "from:alerts@hdfcbank.net (credited OR debited OR UPI OR transaction)".

(** Lines 94-100; [new Date(lastProcessed).getTime() / 1000], floored. *)
Definition query_of (user : User) : string :=
  match last_processed_email_timestamp user with
  | Some lastProcessed => base_query +:+ " after:" +:+ to_string (Some (lastProcessed / 1000))
  | None => base_query
  end.

(** [l.slice(-50)] *)
Definition last_50 {A : Type} (l : list A) : list A :=
  skipn (length l - 50) l.

Record SyncResult : Type := mkResult { transactions : nat; missed : nat }.

(** The [try] block of [processUser], lines 76-240.  The test
    [!accessToken] holds of [null], of a missing member and of the empty
    text. *)
Definition sync_account (env : Env) (user : User) (sheet_id : string)
    : M (option SyncResult) :=
  refreshToken <~ call (decrypt env (google_refresh_token user)) ;;
  let accessToken := refreshAccessToken env refreshToken in
  if negb (truthy accessToken) then
    update_user (id user) (set_is_active false ∘ set_is_processing false) ;;;
    ret None
  else
    messages <~ call (gmail_list env (query_of user)) ;;
    match messages with
    | [] =>
        update_user (id user)
          (set_is_processing false ∘ set_last_sync_time (now env)) ;;;
        ret (Some (mkResult 0 0))
    | _ :: _ =>
        values <~ try_catch (sheets_get_references env sheet_id) (ret []) ;;
        let st :=
          fold_left (process_message env) messages
            (mkLoop (existing_refs values) [] [] None) in
        match newTransactions st with
        | [] => ret tt
        | _ :: _ => sheets_append env sheet_id (newTransactions st)
        end ;;;
        match latestTimestamp st with
        | Some latest =>
            try_catch
              (iso <~ call (toISOString latest) ;;
               sheets_update_metadata env sheet_id iso)
              (ret tt)
        | None => ret tt
        end ;;;
        watermark <~
          match latestTimestamp st with
          | Some latest => iso <~ call (toISOString latest) ;; ret (Some iso)
          | None => ret (last_processed_email_timestamp user)
          end ;;
        update_user (id user)
          (set_last_processed watermark
           ∘ set_last_sync_time (now env)
           ∘ set_is_processing false
           ∘ set_missed_emails (last_50 (missed_emails user ++ missedEmails st))) ;;;
        ret (Some (mkResult (length (newTransactions st)) (length (missedEmails st))))
    end.

(** [processUser]: the entry guards, the busy flag, and the handler of
    the account's faults.  [None] is the [null] result. *)
Definition processUser (env : Env) (user : User) : M (option SyncResult) :=
  match google_sheet_id user with
  | Some (String c s) =>
      let sheet_id := String c s in
      if is_processing user then ret (Some (mkResult 0 0))
      else
        update_user (id user) (set_is_processing true) ;;;
        try_catch (sync_account env user sheet_id)
          (update_user (id user) (set_is_processing false) ;;; ret None)
  | _ => ret (Some (mkResult 0 0))
  end.

(** The result of [runCron]. *)
Inductive CronResult : Type :=
| CronFailed
| NoUsers
| CronDone (totalTransactions totalMissed : nat).

(** Lines 273-279: the accounts one after the other.  A call of
    [processUser] that threw would end the loop. *)
Fixpoint cron_loop (envs : string -> Env) (users : list User)
    (totalTransactions totalMissed : nat) : M (nat * nat) :=
  match users with
  | [] => ret (totalTransactions, totalMissed)
  | user :: users' =>
      result <~ processUser (envs (id user)) user ;;
      match result with
      | Some result =>
          cron_loop envs users' (totalTransactions + transactions result)%nat
            (totalMissed + missed result)%nat
      | None => cron_loop envs users' totalTransactions totalMissed
      end
  end.

(** [runCron]; [registry_ok] tells whether the registry answers the
    query for the active accounts, [envs] gives the answers of the other
    services during the sync of each account. *)
Definition runCron (registry_ok : bool) (envs : string -> Env) (w : World)
    : World * CronResult :=
  if registry_ok then
    match List.filter (fun u => is_active u) (registry w) with
    | [] => (w, NoUsers)
    | users =>
        match cron_loop envs users 0 0 w with
        | (w', Returned (totalTransactions, totalMissed)) =>
            (w', CronDone totalTransactions totalMissed)
        | (w', Thrown) => (w', CronFailed)
        end
    end
  else (w, CronFailed).

End Sync.

End CronService.

(** ** Vocabulary of the specification

    Predicates that the properties below are stated with; they describe
    outputs and are not part of the program. *)

Module Spec.
Import JSString JSNumber JSDate RegExp EmailParser CronService.

(** The closed set of payment methods. *)
Definition METHODS : list string :=
  ["UPI"; "Debit Card"; "Credit Card"; "Cash Deposit"; "Net Banking";
   "NEFT"; "IMPS"; "RTGS"; "Other"].

Definition is_method (s : string) : bool :=
  existsb (String.eqb s) METHODS.

(** The hour of a 12-hour clock without padding: [1] to [9], or [10],
    [11], [12]; the rest of the text is returned. *)
Definition hour_unpadded (s : string) : option string :=
  match s with
  | String "1" (String c rest) =>
      if in_range "0" "2" c then Some rest else Some (String c rest)
  | String h rest =>
      if in_range "1" "9" h then Some rest else None
  | EmptyString => None
  end.

(** The shape [DD/MM/YYYY H:MM AM|PM]: two digits, two digits and four
    digits for day, month and year, an unpadded hour from 1 to 12, two
    digits for the minute. *)
Definition canonical_shape (s : string) : bool :=
  match s with
  | String d1 (String d2 (String "/" (String m1 (String m2 (String "/"
      (String y1 (String y2 (String y3 (String y4 (String " " time)))))))))) =>
      is_digit d1 && is_digit d2 && is_digit m1 && is_digit m2
      && is_digit y1 && is_digit y2 && is_digit y3 && is_digit y4
      && match hour_unpadded time with
         | Some (String ":" (String n1 (String n2 (String " " ampm)))) =>
             is_digit n1 && is_digit n2
             && (String.eqb ampm "AM" || String.eqb ampm "PM")
         | _ => false
         end
  | _ => false
  end.

(** The survivors of deduplication ([reconcile] of the specification):
    the reference set is built from the ledger's column, then every
    candidate passes through the test of the message loop. *)
Definition reconcile (column : list (list string)) (candidates : list ParsedTransaction)
    : list ParsedTransaction :=
  snd (fold_left keep_if_new candidates (existing_refs column, [])).

(** The reference column of the ledger after [survivors] were appended
    to it. *)
Definition column_after (column : list (list string)) (survivors : list ParsedTransaction)
    : list (list string) :=
  column ++ map (fun t => [referenceNumber t]) survivors.

(** The body after the white-space normalisation of the parser. *)
Definition normalized (body : string) : string := trim (collapse_spaces false body).

Definition two_digits (s : string) : bool :=
  match s with
  | String a (String b EmptyString) => is_digit a && is_digit b
  | _ => false
  end.

Definition four_digits (s : string) : bool :=
  match s with
  | String a (String b (String c (String d EmptyString))) =>
      is_digit a && is_digit b && is_digit c && is_digit d
  | _ => false
  end.

(** The integers from [lo] up to, not including, [hi]. *)
Definition range (lo hi : Z) : list Z :=
  map (fun i => lo + Z.of_nat i) (seq 0 (Z.to_nat (hi - lo))).

(** The references of a list of transactions, as a set. *)
Definition refs_of (ts : list ParsedTransaction) : gset string :=
  list_to_set (map referenceNumber ts).

(** The survivors of [ts] against the set [refs]. *)
Definition survivors (refs : gset string) (ts : list ParsedTransaction)
    : list ParsedTransaction :=
  snd (fold_left keep_if_new ts (refs, [])).

Section Cycle.

Variable LocalTZA : Zone.
Variable Date_parse : string -> Date.

(** The candidates of a batch of messages: the transactions of the
    messages that are fetched and accepted, in arrival order. *)
Definition candidate (env : Env) (message_id : string) : list ParsedTransaction :=
  match gmail_get env message_id with
  | Some msg =>
      match parseHDFCEmail LocalTZA Date_parse (body_of msg) (subject_of msg)
              (receivedDate_of Date_parse msg) message_id with
      | Success t => [t]
      | Failure _ _ => []
      end
  | None => []
  end.

Definition candidates (env : Env) (messages : list string) : list ParsedTransaction :=
  flat_map (candidate env) messages.

(** The message loop of [processUser], started on the reference column
    [values]. *)
Definition message_loop (env : Env) (messages : list string)
    (values : list (list string)) : LoopState :=
  fold_left (process_message LocalTZA Date_parse env) messages
    (mkLoop (existing_refs values) [] [] None).

End Cycle.

(** The row of an account in the registry and its watermark. *)
Definition account_row (uid : string) (w : World) : option User :=
  find (fun u => String.eqb (id u) uid) (registry w).

Definition watermark_of (uid : string) (w : World) : option (option ISOString) :=
  last_processed_email_timestamp <$> account_row uid w.

(** The latest of a list of instants, when there is one. *)
Definition later (latest : option Z) (x : Z) : option Z :=
  match latest with
  | Some m => Some (Z.max m x)
  | None => Some x
  end.

Definition max_instant (l : list Z) : option Z := fold_left later l None.

(** [a] is not later than [b]; an absent watermark ([null]) is earlier
    than every instant. *)
Definition not_later (a b : option Z) : Prop :=
  match a, b with
  | None, _ => True
  | Some x, Some y => x <= y
  | Some _, None => False
  end.

Section Watermark.

Variable Date_parse : string -> Date.

(** The received instant of a message, when the message is fetched and
    its date is valid. *)
Definition received_instant (env : Env) (message_id : string) : option Z :=
  msg ← gmail_get env message_id; receivedDate_of Date_parse msg.

(** The messages that a cycle retrieves for an account (when it gets to
    retrieve them), and the latest of their received instants: a fetched
    message with a valid date is always processed, accepted or not. *)
Definition retrieved (env : Env) (user : User) : list string :=
  default [] (gmail_list env (query_of user)).

Definition latest_received (env : Env) (user : User) : option Z :=
  max_instant (omap (received_instant env) (retrieved env user)).

End Watermark.

Section Cycles.

Variable LocalTZA : Zone.
Variable Date_parse : string -> Date.

(** One sync cycle after the other, seen from one account: each cycle
    reads the account's row and, as [runCron] does, syncs the account when
    it is active.  [envs] gives the answers of the services in each
    cycle. *)
Fixpoint sync_cycles (envs : list Env) (uid : string) (w : World) : World :=
  match envs with
  | [] => w
  | env :: envs' =>
      match account_row uid w with
      | Some user =>
          sync_cycles envs' uid
            (if is_active user
             then fst (processUser LocalTZA Date_parse env user w)
             else w)
      | None => w
      end
  end.

(** In every cycle the latest received instant of the retrieved messages
    is not earlier than the watermark the cycle starts with. *)
Fixpoint arrivals_in_order (envs : list Env) (uid : string) (w : World) : Prop :=
  match envs with
  | [] => True
  | env :: envs' =>
      match account_row uid w with
      | Some user =>
          (forall m, latest_received Date_parse env user = Some m ->
                     not_later (last_processed_email_timestamp user) (Some m))
          /\ arrivals_in_order envs' uid
               (if is_active user
                then fst (processUser LocalTZA Date_parse env user w)
                else w)
      | None => True
      end
  end.

End Cycles.

(** *** An account and service answers used as examples *)

Definition example_user : User :=
  mkUser "u1" "user@example.com" "" "stored-token" (Some "sheet1")
    (Some 1768224074000) false true [] None.

Definition example_world : World := mkWorld [example_user] ∅.

(** The engine's date parser on the one date text of the examples
    (12 January 2026, 13:21:04 UTC). *)
Definition example_date_header : string := "Mon, 12 Jan 2026 13:21:04 GMT".

Definition example_Date_parse (text : string) : Date :=
  if String.eqb text example_date_header then Some 1768224064000 else None.

(** A message that is not a transaction, sent ten seconds before the
    watermark of [example_user] (13:21:14 UTC) and delivered five seconds
    after it. *)
Definition old_message : Message :=
  mkMessage [("Subject", "Statement"); ("Date", example_date_header)]
    (Some "1768224079000")
    (Some (mkData "WW91ciBzdGF0ZW1lbnQgaXMgcmVhZHk=" "Your statement is ready")) None.

(** All services answer; the mailbox holds [old_message]. *)
Definition env_old_message : Env :=
  mkEnv (fun s => Some s) (fun _ => Some "access") (fun _ => Some ["m1"])
    (fun _ => Some old_message) true true true 5000.

(** All services answer; the mailbox holds nothing new. *)
Definition env_no_messages : Env :=
  mkEnv (fun s => Some s) (fun _ => Some "access") (fun _ => Some [])
    (fun _ => None) true true true 5000.

(** The mail service is unreachable. *)
Definition env_mail_unreachable : Env :=
  mkEnv (fun s => Some s) (fun _ => Some "access") (fun _ => None)
    (fun _ => None) true true true 5000.

(** The stored credential cannot be decrypted. *)
Definition env_decrypt_fails : Env :=
  mkEnv (fun _ => None) (fun _ => Some "access") (fun _ => Some ["m1"])
    (fun _ => Some old_message) true true true 5000.

(** What [latestTimestamp] holds after some messages, in terms of the
    valid received instants [seen] of the messages fetched so far:
    [null] when there is none, their latest when it is a valid date (it
    is invalid when the first message handled was accepted with an
    invalid date). *)
Definition latest_agrees (latest : option Date) (seen : list Z) : Prop :=
  match latest with
  | None => seen = []
  | Some None => True
  | Some (Some m) => max_instant seen = Some m
  end.

(** *** Messages used as examples *)

Definition example_body : string :=
  "Rs. 500 debited from account ending 1234 ... via UPI to VPA merchant@upi MERCHANT NAME on 12-01-2026 at 18:51 ... reference number is ABC123 ... available balance is Rs. 10,000".

Definition no_direction_body : string :=
  "Rs. 500 spent on account ending 1234".

Definition lower_case_upi_body : string :=
  "Rs. 500 debited from account ending 1234 to VPA merchant@upi MERCHANT NAME".

Definition no_reference_body : string :=
  "Rs. 500 debited from account ending 1234".

(** Two alerts of refunds; neither holds a reference. *)
Definition refund_body : string :=
  "Your refund of Rs. 500 is credited to account ending 1234".

Definition second_refund_body : string :=
  "Your refund of Rs. 750 is credited to account ending 1234".

End Spec.

(** ** lib/encryption.ts *)

Module Encryption.
Import JSString.

Definition IV_LENGTH : nat := 16.
Definition TAG_LENGTH : nat := 16.

(** [s.slice(a, b)] for [0 <= a <= b] *)
Definition slice (a b : nat) (s : string) : string := take (b - a) (drop a s).

Section Decrypt.

(** [process.env.ENCRYPTION_SECRET_KEY] *)
Variable ENCRYPTION_SECRET_KEY : option string.

(** The primitives of the crypto library: the SHA-256 digest of a text,
    [Buffer.from(text, 'hex')], and AES-256-GCM decryption of a hex
    ciphertext under a key, an initialisation vector and an
    authentication tag, which has no result when one of its steps throws
    (a vector or a tag of a wrong length, a failed authentication). *)
Variables Buffer Key : Type.
Variable sha256 : string -> Key.
Variable from_hex : string -> Buffer.
Variable aes_256_gcm : Key -> Buffer -> Buffer -> string -> option string.

(** [getKey()]; [None] when it throws. *)
Definition getKey : option Key :=
  match ENCRYPTION_SECRET_KEY with
  | Some (String c s) => Some (sha256 (String c s))
  | _ => None
  end.

(** [decrypt(encryptedText)]; [None] when it throws, which is always with
    'Failed to decrypt token'. *)
Definition decrypt (encryptedText : string) : option string :=
  let iv := from_hex (slice 0 (IV_LENGTH * 2) encryptedText) in
  let tag :=
    from_hex (slice (IV_LENGTH * 2) ((IV_LENGTH + TAG_LENGTH) * 2) encryptedText) in
  let encrypted := drop ((IV_LENGTH + TAG_LENGTH) * 2) encryptedText in
  key ← getKey;
  aes_256_gcm key iv tag encrypted.

End Decrypt.

Arguments getKey ENCRYPTION_SECRET_KEY {Key} sha256.
Arguments decrypt ENCRYPTION_SECRET_KEY {Buffer Key} sha256 from_hex aes_256_gcm
  encryptedText.

End Encryption.

(** ** scripts/reset-user-auth.ts *)

Module ResetUserAuth.
Import JSString CronService.

(** The one patch of both updates: [is_active: false] and both tokens
    empty. *)
Definition reset_patch (u : User) : User :=
  mkUser (id u) (google_email u) "" "" (google_sheet_id u)
    (last_processed_email_timestamp u) (is_processing u) false (missed_emails u)
    (last_sync_time u).

(** [update(patch).eq(column, value).select()]: the rows that pass the
    filter are patched, and returned as [data]. *)
Definition update_where (p : User -> bool) (patch : User -> User) (l : list User)
    : list User * list User :=
  (map (fun u => if p u then patch u else u) l, map patch (List.filter p l)).

(** What the script prints at its end. *)
Inductive Report : Type :=
| ResetError
| ResetOne (email : string)
| UserNotFound (email : string)
| ResetAll (count : nat).

(** [resetUserAuth(email)]; [None] is a missing argument, [registry_ok]
    tells whether the registry carries out the update (it reports an
    error otherwise). *)
Definition resetUserAuth (registry_ok : bool) (email : option string) (w : World)
    : World * Report :=
  match email with
  | Some (String c s) =>
      let email := String c s in
      if registry_ok then
        let (rows', data) :=
          update_where (fun u => String.eqb (google_email u) email) reset_patch
            (registry w) in
        (mkWorld rows' (ledger w),
         match data with
         | _ :: _ => ResetOne email
         | [] => UserNotFound email
         end)
      else (w, ResetError)
  | _ =>
      if registry_ok then
        let (rows', data) :=
          update_where (fun u => is_active u) reset_patch (registry w) in
        (mkWorld rows' (ledger w), ResetAll (length data))
      else (w, ResetError)
  end.

End ResetUserAuth.

(** ** server.ts *)

Module Server.
Import JSString JSDate CronService.

(** [process.env.API_SECRET || 'your-secret-key-here'] *)
Definition API_SECRET (configured : option string) : string :=
  match configured with
  | Some (String c s) => String c s
  | _ => "your-secret-key-here"
  end.

(** What [authenticateRequest] does with a request: it answers with
    status 401 or 403, or it calls [next]. *)
Inductive Verdict : Type :=
| Unauthorized
| Forbidden
| Next.

Definition authenticateRequest (secret : string) (authHeader : option string) : Verdict :=
  match authHeader with
  | Some (String c s) =>
      let authHeader := String c s in
      if starts_with "Bearer " authHeader then
        let token := drop 7 authHeader in
        if String.eqb token secret then Next else Forbidden
      else Unauthorized
  | _ => Unauthorized
  end.

(** What the middleware that is registered before the routes does with
    a request.  [cors] adds its headers and calls [next].
    [express.json()] reads the body of a request that declares JSON and
    either calls [next] or refuses the request: with status 400 when the
    body is not JSON, 413 when it is too large, 415 when its encoding is
    not supported.  The body parser is library code; its verdict on the
    body of a request, and the error page that goes with a refusal, are
    inputs here. *)
Inductive BodyVerdict : Type :=
| BodyPassed
| BodyRefused (status : nat) (page : string).

(** A POST request: its authorization header and what the body parser
    makes of its body. *)
Record Request : Type := mkRequest {
  authorization : option string;
  body : BodyVerdict;
}.

(** The answer to a request: the status, the [success] member of the
    body when it has one, and its [message] or [error] text (the error
    page of a refused body). *)
Record Response : Type := mkResponse {
  status : nat;
  success : option bool;
  message : string;
}.

(** [result.success] of [runCron]. *)
Definition cron_success (r : CronResult) : bool :=
  match r with
  | CronFailed => false
  | _ => true
  end.

Section Routes.

Variable LocalTZA : Zone.
Variable Date_parse : string -> Date.

(** [POST /api/trigger-sync]: the body parser, then
    [authenticateRequest], then the handler.  [runCron] catches its own
    faults and returns a result in every case, so that the [catch] of the
    handler (status 500) has no counterpart here. *)
Definition trigger_sync (configured : option string) (req : Request)
    (registry_ok : bool) (envs : string -> Env) (w : World) : World * Response :=
  match body req with
  | BodyRefused status page => (w, mkResponse status None page)
  | BodyPassed =>
      match authenticateRequest (API_SECRET configured) (authorization req) with
      | Unauthorized => (w, mkResponse 401 None "Unauthorized: Missing or invalid token")
      | Forbidden => (w, mkResponse 403 None "Forbidden: Invalid API secret")
      | Next =>
          let (w', result) := runCron LocalTZA Date_parse registry_ok envs w in
          (w', mkResponse 200 (Some (cron_success result))
                 (if cron_success result then "Sync completed successfully"
                  else "Sync failed"))
      end
  end.

End Routes.

End Server.

(** ** Further vocabulary

    Predicates and functions that the later properties are stated with. *)

(** The language of a pattern. *)
Module Language.
Import JSString RegExp.

(** The texts in a list, one after the other. *)
Fixpoint concat_strings (xs : list string) : string :=
  match xs with
  | [] => EmptyString
  | x :: xs' => x +:+ concat_strings xs'
  end.

(** The numbers of iterations that a repetition [{min,max}] allows. *)
Definition count_ok (min : nat) (max : option nat) (n : nat) : Prop :=
  match max with
  | Some m => (Nat.min min m <= n <= m)%nat
  | None => (min <= n)%nat
  end.

(** The texts that a pattern matches, whatever the engine prefers among
    them. *)
Fixpoint denotes (ic : bool) (r : regex) (x : string) : Prop :=
  match r with
  | REmpty => x = EmptyString
  | RChar p => exists a, x = String a EmptyString /\ char_matches ic p a = true
  | RClass negated items =>
      exists a, x = String a EmptyString /\ class_matches ic negated items a = true
  | RSeq r1 r2 => exists x1 x2, x = x1 +:+ x2 /\ denotes ic r1 x1 /\ denotes ic r2 x2
  | RAlt r1 r2 => denotes ic r1 x \/ denotes ic r2 x
  | RRepeat r' min max _ =>
      exists xs, x = concat_strings xs /\ Forall (denotes ic r') xs
                 /\ count_ok min max (length xs)
  | RGroup _ r' => denotes ic r' x
  | REnd => x = EmptyString
  end.

(** Every character of [s] satisfies [p]. *)
Fixpoint all_chars (p : ascii -> bool) (s : string) : bool :=
  match s with
  | EmptyString => true
  | String c s' => p c && all_chars p s'
  end.

(** The content of group [i] when the group ends the pattern. *)
Fixpoint tail_group (i : nat) (r : regex) : option regex :=
  match r with
  | RGroup j r' => if Nat.eqb i j then Some r' else None
  | RSeq _ r2 => tail_group i r2
  | _ => None
  end.

End Language.

(** The fields that the acceptance test of the parser reads, as
    functions of the normalised body (lines 110-144 of the parser). *)
Module Gate.
Import JSString JSNumber RegExp EmailParser.

Definition amount_of (normalizedBody : string) : number :=
  match match_ normalizedBody PATTERNS.amount with
  | Some amountMatch => parseFloat (remove_commas (group 1 amountMatch))
  | None => Dec 0 0
  end.

Definition account_of (normalizedBody : string) : string :=
  match match_ normalizedBody PATTERNS.account with
  | Some accountMatch => group 1 accountMatch
  | None => ""
  end.

Definition method_of (normalizedBody : string) : string :=
  match match_ normalizedBody PATTERNS.method with
  | Some methodMatch =>
      let method := group 1 methodMatch in
      if includes "cash deposit" (toLowerCase method) then "Cash Deposit"
      else method
  | None =>
      if includes "upi" (toLowerCase normalizedBody) then "UPI" else "Other"
  end.

End Gate.

(** The layout of white space in a text. *)
Module Layout.
Import JSString.

(** White space only comes as single blanks: [prev] tells that the
    character before is a blank. *)
Fixpoint single_spaced (prev : bool) (s : string) : bool :=
  match s with
  | EmptyString => true
  | String c s' =>
      if is_space c then Ascii.eqb c " " && negb prev && single_spaced true s'
      else single_spaced false s'
  end.



End Layout.

(** Calendar dates and the tokens that stand for them. *)
Module Calendar.
Import JSString JSNumber JSDate.

(** The number of days of month [m] (1 = January) of year [y]. *)
Definition days_in_month (y m : Z) : Z :=
  match m with
  | 2 => if is_leap y then 29 else 28
  | 4 | 6 | 9 | 11 => 30
  | _ => 31
  end.

(** A number below 100 as the two digits of a date or time token. *)
Definition pad2 (n : Z) : string := padStart2 (to_string (Some n)).

(** The hour of a 12-hour clock. *)
Definition clock12 (h : Z) : Z := if h mod 12 =? 0 then 12 else h mod 12.

(** A text of decimal digits. *)
Fixpoint digits (s : string) : bool :=
  match s with
  | EmptyString => true
  | String c s' => is_digit c && digits s'
  end.

(** The local time [t] exists in the zone: the host reads it with an
    offset of at most a day, and it is the local time of the instant the
    host takes it for.  A local time that a change of the offset skips
    does not exist. *)
Definition exists_in (zone : Zone) (t : Z) : Prop :=
  Z.abs (offset_of_local zone t) <= msPerDay
  /\ LocalTime zone (UTC zone t) = t.

(** The zone Europe/London in 2026: on UTC until 29 March, 01:00 UTC, and
    from 25 October, 01:00 UTC, one hour ahead in between.  A local time
    that a change skips or repeats is read with the offset before the
    change, as the language standard asks. *)
Definition london_2026 : Zone :=
  mkZone
    (fun t => if (1774746000000 <=? t) && (t <? 1792890000000) then 3600000 else 0)
    (fun t => if (1774749600000 <=? t) && (t <? 1792893600000) then 3600000 else 0).

End Calendar.

(** The ledger of an account during one cycle. *)
Module Accounts.
Import JSString JSNumber JSDate RegExp EmailParser CronService Spec.

(** The reference column of a ledger, as [sheets_get_references] gives
    it. *)
Definition column_of (sh : Sheet) : list (list string) :=
  map (fun t => [referenceNumber t]) (rows sh).

(** The column that a cycle works with: the one of the ledger, or
    nothing when the ledger cannot be read (lines 119-130). *)
Definition values_read (env : Env) (sheet_id : string) (w : World) : list (list string) :=
  match sheets_get_ok env, ledger w !! sheet_id with
  | true, Some sh => column_of sh
  | _, _ => []
  end.

(** A ledger after rows were appended to one sheet and its metadata
    cell was set ([None]: the cell is left as it is). *)
Definition write_sheet (sheet_id : string) (new : list ParsedTransaction)
    (meta : option ISOString) (g : gmap string Sheet) : gmap string Sheet :=
  match g !! sheet_id with
  | Some sh =>
      <[sheet_id := mkSheet (rows sh ++ new)
                      (match meta with Some v => Some v | None => metadata_B2 sh end)]> g
  | None => g
  end.

(** The non-empty cells of the reference column of a ledger. *)
Definition ledger_refs (sh : Sheet) : list string :=
  List.filter (fun x => negb (String.eqb x "")) (map referenceNumber (rows sh)).

Section Loop.

Variable LocalTZA : Zone.
Variable Date_parse : string -> Date.

(** The state of the message loop at the end of a cycle of [user] that
    starts in world [w]. *)
Definition cycle_loop (env : Env) (user : User) (sheet_id : string) (w : World)
    : LoopState :=
  message_loop LocalTZA Date_parse env (retrieved env user) (values_read env sheet_id w).

End Loop.

(** *** More service answers and worlds used as examples *)

(** A transaction alert, sent at the instant of [example_date_header]. *)
Definition alert_message : Message :=
  mkMessage [("Subject", "Alert"); ("Date", example_date_header)]
    (Some "1768224079000")
    (Some (mkData
             "UnMuIDUwMCBkZWJpdGVkIGZyb20gYWNjb3VudCBlbmRpbmcgMTIzNCAuLi4gdmlhIFVQSSB0byBWUEEgbWVyY2hhbnRAdXBpIE1FUkNIQU5UIE5BTUUgb24gMTItMDEtMjAyNiBhdCAxODo1MSAuLi4gcmVmZXJlbmNlIG51bWJlciBpcyBBQkMxMjMgLi4uIGF2YWlsYWJsZSBiYWxhbmNlIGlzIFJzLiAxMCwwMDA="
             example_body))
    None.

(** All services answer; the mailbox holds [alert_message]. *)
Definition env_alert : Env :=
  mkEnv (fun s => Some s) (fun _ => Some "access") (fun _ => Some ["m1"])
    (fun _ => Some alert_message) true true true 5000.

(** The account of [example_user] with an empty ledger whose metadata
    cell holds the watermark of the account. *)
Definition example_ledger_world : World :=
  mkWorld [example_user] {["sheet1" := mkSheet [] (Some 1768224074000)]}.

(** The services of a deployment without [ENCRYPTION_SECRET_KEY]. *)
Definition env_without_key : Env :=
  mkEnv
    (Encryption.decrypt None (fun _ : string => tt) (fun _ : string => tt)
       (fun _ _ _ _ => Some "refresh"))
    (fun _ => Some "access") (fun _ => Some ["m1"]) (fun _ => Some alert_message)
    true true true 5000.

(** One cycle of [example_user] in that world with that mailbox. *)
Definition example_cycle : World * outcome (option SyncResult) :=
  processUser 19800000 example_Date_parse env_alert example_user example_ledger_world.

(** *** A registry of several accounts

    Next to [example_user]: an account that is synced after it, an
    account that is marked busy, and an account that is not active; each
    has a ledger of its own. *)

Definition second_user : User :=
  mkUser "u2" "second@example.com" "" "stored-token-2" (Some "sheet2") None
    false true [] None.

Definition busy_user : User :=
  mkUser "u3" "busy@example.com" "" "stored-token-3" (Some "sheet3") None
    true true [] None.

Definition inactive_user : User :=
  mkUser "u4" "gone@example.com" "" "" (Some "sheet4") (Some 1768000000000)
    false false [] None.

Definition example_registry : World :=
  mkWorld [example_user; second_user; busy_user; inactive_user]
    {["sheet1" := mkSheet [] (Some 1768224074000);
      "sheet2" := mkSheet [] None;
      "sheet3" := mkSheet [] None;
      "sheet4" := mkSheet [] (Some 1768000000000)]}.

(** The mail service is unreachable for the first account and answers
    with [alert_message] for the others. *)
Definition envs_first_unreachable (uid : string) : Env :=
  if String.eqb uid "u1" then env_mail_unreachable else env_alert.

(** The credential exchange answers with an empty access token. *)
Definition env_empty_token : Env :=
  mkEnv (fun s => Some s) (fun _ => Some "") (fun _ => Some ["m1"])
    (fun _ => Some alert_message) true true true 5000.

(** One cycle of [example_user] and one cron run in that registry. *)
Definition registry_cycle : World * outcome (option SyncResult) :=
  processUser 19800000 example_Date_parse env_alert example_user example_registry.

Definition registry_cron : World * CronResult :=
  runCron 19800000 example_Date_parse true (fun _ => env_alert) example_registry.

(** *** A batch with duplicates

    A ledger that holds the transaction of [alert_message], and a mailbox
    with that message and two more alerts that carry one reference. *)

Definition known_row : ParsedTransaction :=
  mkTransaction "12/01/2026 6:51 PM" (Dec 500 0) Debit "UPI" "1234"
    "MERCHANT NAME (merchant@upi)" "ABC123" (Available (Dec 10000 0)) "" ""
    "12/01/2026 6:51 PM".

Definition second_body : string :=
  "Rs. 250 debited from account ending 1234 via NEFT, reference number is XYZ789".

Definition third_body : string :=
  "INR 75.50 credited to account ending 1234, ref no. XYZ789".

Definition alert_with (data : BodyData) : Message :=
  mkMessage [("Subject", "Alert"); ("Date", example_date_header)]
    (Some "1768224079000") (Some data) None.

Definition batch_mailbox (message_id : string) : option Message :=
  if String.eqb message_id "m1" then Some alert_message
  else if String.eqb message_id "m2" then
    Some (alert_with
            (mkData
               "UnMuIDI1MCBkZWJpdGVkIGZyb20gYWNjb3VudCBlbmRpbmcgMTIzNCB2aWEgTkVGVCwgcmVmZXJlbmNlIG51bWJlciBpcyBYWVo3ODk="
               second_body))
  else if String.eqb message_id "m3" then
    Some (alert_with
            (mkData
               "SU5SIDc1LjUwIGNyZWRpdGVkIHRvIGFjY291bnQgZW5kaW5nIDEyMzQsIHJlZiBuby4gWFlaNzg5"
               third_body))
  else None.

Definition env_batch : Env :=
  mkEnv (fun s => Some s) (fun _ => Some "access") (fun _ => Some ["m1"; "m2"; "m3"])
    batch_mailbox true true true 5000.

Definition ledger_with_row : World :=
  mkWorld [example_user] {["sheet1" := mkSheet [known_row] (Some 1768224074000)]}.

Definition batch_cycle : World * outcome (option SyncResult) :=
  processUser 19800000 example_Date_parse env_batch example_user ledger_with_row.

(** *** A full log of rejected messages

    An account whose log holds 50 entries, the first of them marked, and
    a mailbox with two messages that are not transactions. *)

Definition logged (message_id : string) : MissedEmail :=
  mkMissed message_id "Statement" "Your statement is ready" 1768000000000
    "alerts@hdfcbank.net".

Definition full_log : list MissedEmail :=
  logged "oldest" :: repeat (logged "old") 49.

Definition full_log_user : User :=
  mkUser "u1" "user@example.com" "" "stored-token" (Some "sheet1")
    (Some 1768224074000) false true full_log None.

Definition full_log_world : World :=
  mkWorld [full_log_user] {["sheet1" := mkSheet [] (Some 1768224074000)]}.

Definition env_two_rejected : Env :=
  mkEnv (fun s => Some s) (fun _ => Some "access") (fun _ => Some ["m1"; "m2"])
    (fun _ => Some old_message) true true true 5000.

Definition full_log_cycle : World * outcome (option SyncResult) :=
  processUser 19800000 example_Date_parse env_two_rejected full_log_user full_log_world.

End Accounts.

(* ================================================================== *)
(** * Part II: properties *)
(* ================================================================== *)

Import JSString JSNumber JSDate RegExp EmailParser CronService Spec.

(** ** The regular-expression engine *)

Lemma flat_map_all_nil {A B : Type} (f : A -> list B) (l : list A) :
  (forall x, In x l -> f x = []) -> flat_map f l = [].
Proof.
  induction l as [| x l IH]; intros H; [reflexivity |].
  cbn [flat_map]. rewrite (H x (or_introl eq_refl)). apply IH.
  intros y Hy. apply H. right. exact Hy.
Qed.

Lemma flat_map_ext_in {A B : Type} (f g : A -> list B) (l : list A) :
  (forall x, In x l -> f x = g x) -> flat_map f l = flat_map g l.
Proof.
  induction l as [| x l IH]; intros H; [reflexivity |].
  cbn [flat_map]. rewrite (H x (or_introl eq_refl)). f_equal. apply IH.
  intros y Hy. apply H. right. exact Hy.
Qed.

Section Repeat.

Variable m : string -> captures -> list state.
Variable inner : list nat.
Variable greedy : bool.
Hypothesis m_shrinking : shrinking m.

(** With nothing more due and no input left, the only match stops. *)
Lemma repeat_matcher_end (fuel : nat) (max : option nat) (s : string) (c : captures) :
  strlen s = 0%nat ->
  repeat_matcher m inner greedy fuel 0 max s c = [(s, c)].
Proof.
  intros Hs. destruct fuel as [| fuel]; cbn [repeat_matcher].
  - destruct max as [[| n] |]; reflexivity.
  - destruct max as [[| n] |]; [reflexivity | |];
      (rewrite flat_map_all_nil;
       [destruct greedy; reflexivity |
        intros [s' c'] Hin; apply m_shrinking in Hin;
        cbn [Nat.eqb andb];
        destruct (Nat.leb_spec (strlen s) (strlen s')); [reflexivity | lia]]).
Qed.

(** The fuel of [run] is enough: more of it changes nothing. *)
Lemma repeat_matcher_fuel (fuel1 fuel2 : nat) (min : nat) (max : option nat)
    (s : string) (c : captures) :
  (min + strlen s <= fuel1)%nat -> (min + strlen s <= fuel2)%nat ->
  repeat_matcher m inner greedy fuel1 min max s c
  = repeat_matcher m inner greedy fuel2 min max s c.
Proof.
  revert fuel2 min max s c.
  induction fuel1 as [| fuel1 IH]; intros fuel2 min max s c H1 H2.
  - assert (min = 0%nat) by lia. subst min.
    rewrite !repeat_matcher_end by lia. reflexivity.
  - destruct fuel2 as [| fuel2].
    + assert (min = 0%nat) by lia. subst min.
      rewrite !repeat_matcher_end by lia. reflexivity.
    + cbn [repeat_matcher].
      destruct max as [[| n] |]; [reflexivity | |];
        match goal with
        | |- context [flat_map ?f1 ?l] =>
            match goal with
            | |- _ = ?rhs =>
                match rhs with
                | context [flat_map ?f2 l] =>
                    assert (Heq : flat_map f1 l = flat_map f2 l);
                    [apply flat_map_ext_in | rewrite Heq; reflexivity]
                end
            end
        end;
        intros [s' c'] Hin; apply m_shrinking in Hin;
        (destruct (Nat.eqb_spec min 0) as [-> | Hmin]; cbn [andb];
         [destruct (Nat.leb_spec (strlen s) (strlen s'));
          [reflexivity | apply IH; cbn [Nat.pred]; lia]
         | apply IH; lia]).
Qed.

(** The matches of a repetition do not give input back either. *)
Lemma repeat_matcher_shrinking (fuel min : nat) (max : option nat) :
  shrinking (repeat_matcher m inner greedy fuel min max).
Proof.
  revert min max. induction fuel as [| fuel IH]; intros min max s c s' c' Hin.
  - cbn [repeat_matcher] in Hin.
    destruct max as [[| n] |]; destruct Hin as [H | []]; injection H as <- _; lia.
  - cbn [repeat_matcher] in Hin.
    assert (Hagain : forall mx,
              In (s', c')
                (flat_map
                   (fun st : state =>
                      let (s1, c1) := st in
                      if Nat.eqb min 0 && Nat.leb (strlen s) (strlen s1) then []
                      else repeat_matcher m inner greedy fuel (Nat.pred min) mx s1 c1)
                   (m s (clear_captures inner c))) ->
              (strlen s' <= strlen s)%nat).
    { intros mx H. apply in_flat_map in H. destruct H as ([s1 c1] & H1 & H2).
      apply m_shrinking in H1.
      destruct (Nat.eqb min 0 && Nat.leb (strlen s) (strlen s1)); [destruct H2 |].
      apply IH in H2. lia. }
    destruct max as [[| n] |].
    + destruct Hin as [H | []]. injection H as <- _. lia.
    + destruct (negb (Nat.eqb min 0)); [exact (Hagain _ Hin) |].
      destruct greedy.
      * apply in_app_or in Hin. destruct Hin as [H | [H | []]];
          [exact (Hagain _ H) | injection H as <- _; lia].
      * destruct Hin as [H | H]; [injection H as <- _; lia | exact (Hagain _ H)].
    + destruct (negb (Nat.eqb min 0)); [exact (Hagain _ Hin) |].
      destruct greedy.
      * apply in_app_or in Hin. destruct Hin as [H | [H | []]];
          [exact (Hagain _ H) | injection H as <- _; lia].
      * destruct Hin as [H | H]; [injection H as <- _; lia | exact (Hagain _ H)].
Qed.

End Repeat.

Lemma run_shrinking (ic : bool) (r : regex) : shrinking (run ic r).
Proof.
  induction r as [| p | negated items | r1 IH1 r2 IH2 | r1 IH1 r2 IH2
                 | r IH min max greedy | i r IH |];
    intros s c s' c' Hin; cbn [run] in Hin.
  - destruct Hin as [H | []]. injection H as <- _. lia.
  - destruct s as [| a s]; [destruct Hin |].
    destruct (char_matches ic p a); [| destruct Hin].
    destruct Hin as [H | []]. injection H as <- _. unfold strlen. simpl. lia.
  - destruct s as [| a s]; [destruct Hin |].
    destruct (class_matches ic negated items a); [| destruct Hin].
    destruct Hin as [H | []]. injection H as <- _. unfold strlen. simpl. lia.
  - apply in_flat_map in Hin. destruct Hin as ([s1 c1] & H1 & H2).
    apply IH1 in H1. apply IH2 in H2. lia.
  - apply in_app_or in Hin. destruct Hin as [H | H]; [exact (IH1 _ _ _ _ H) |].
    exact (IH2 _ _ _ _ H).
  - exact (repeat_matcher_shrinking _ _ _ IH _ _ _ _ _ _ _ Hin).
  - apply in_map_iff in Hin. destruct Hin as ([s1 c1] & H & H1).
    injection H as <- _. exact (IH _ _ _ _ H1).
  - destruct s; [| destruct Hin]. destruct Hin as [H | []]. injection H as <- _. lia.
Qed.

(** The repetition of [run] with any larger fuel gives the same matches:
    the engine never stops for lack of fuel. *)
Lemma run_repeat_fuel (ic : bool) (r : regex) (min : nat) (max : option nat)
    (greedy : bool) (s : string) (c : captures) (extra : nat) :
  run ic (RRepeat r min max greedy) s c
  = repeat_matcher (run ic r) (group_indices r) greedy
      (min + strlen s + extra) min max s c.
Proof.
  cbn [run]. apply repeat_matcher_fuel; [apply run_shrinking | lia | lia].
Qed.

(** *** Groups that take part in every match *)

Lemma get_capture_clear (i : nat) (inner : list nat) (c : captures) :
  existsb (Nat.eqb i) inner = false ->
  get_capture i (clear_captures inner c) = get_capture i c.
Proof.
  intros Hi. unfold clear_captures.
  induction c as [| [j x] c IH]; [reflexivity |].
  cbn [List.filter fst get_capture].
  destruct (existsb (Nat.eqb j) inner) eqn:Ej; cbn [negb get_capture].
  - destruct (Nat.eqb_spec i j) as [-> | Hij]; [congruence | exact IH].
  - destruct (Nat.eqb i j); [reflexivity | exact IH].
Qed.

(** A property of the captures that one iteration keeps is kept by the
    whole repetition. *)
Lemma repeat_matcher_keeps (P : captures -> Prop)
    (m : string -> captures -> list state) (inner : list nat) (greedy : bool) :
  (forall c, P c -> P (clear_captures inner c)) ->
  (forall s c s' c', P c -> In (s', c') (m s c) -> P c') ->
  forall fuel min max s c s' c',
    P c -> In (s', c') (repeat_matcher m inner greedy fuel min max s c) -> P c'.
Proof.
  intros Hclear Hm. induction fuel as [| fuel IH]; intros min max s c s' c' Hc Hin.
  - cbn [repeat_matcher] in Hin.
    destruct max as [[| n] |]; destruct Hin as [H | []]; injection H as _ <-; exact Hc.
  - cbn [repeat_matcher] in Hin.
    assert (Hagain : forall mx,
              In (s', c')
                (flat_map
                   (fun st : state =>
                      let (s1, c1) := st in
                      if Nat.eqb min 0 && Nat.leb (strlen s) (strlen s1) then []
                      else repeat_matcher m inner greedy fuel (Nat.pred min) mx s1 c1)
                   (m s (clear_captures inner c))) ->
              P c').
    { intros mx H. apply in_flat_map in H. destruct H as ([s1 c1] & H1 & H2).
      apply Hm in H1; [| apply Hclear, Hc].
      destruct (Nat.eqb min 0 && Nat.leb (strlen s) (strlen s1)); [destruct H2 |].
      exact (IH _ _ _ _ _ _ H1 H2). }
    destruct max as [[| n] |].
    + destruct Hin as [H | []]. injection H as _ <-. exact Hc.
    + destruct (negb (Nat.eqb min 0)); [exact (Hagain _ Hin) |].
      destruct greedy.
      * apply in_app_or in Hin. destruct Hin as [H | [H | []]];
          [exact (Hagain _ H) | injection H as _ <-; exact Hc].
      * destruct Hin as [H | H]; [injection H as _ <-; exact Hc | exact (Hagain _ H)].
    + destruct (negb (Nat.eqb min 0)); [exact (Hagain _ Hin) |].
      destruct greedy.
      * apply in_app_or in Hin. destruct Hin as [H | [H | []]];
          [exact (Hagain _ H) | injection H as _ <-; exact Hc].
      * destruct Hin as [H | H]; [injection H as _ <-; exact Hc | exact (Hagain _ H)].
Qed.

(** A pattern leaves the groups alone that do not occur in it. *)
Lemma run_keeps_capture (ic : bool) (i : nat) (r : regex) :
  existsb (Nat.eqb i) (group_indices r) = false ->
  forall s c s' c', In (s', c') (run ic r s c) -> get_capture i c' = get_capture i c.
Proof.
  induction r as [| p | negated items | r1 IH1 r2 IH2 | r1 IH1 r2 IH2
                 | r IH min max greedy | j r IH |];
    cbn [group_indices]; intros Hi s c s' c' Hin; cbn [run] in Hin.
  - destruct Hin as [H | []]. injection H as _ <-. reflexivity.
  - destruct s as [| a s]; [destruct Hin |].
    destruct (char_matches ic p a); [| destruct Hin].
    destruct Hin as [H | []]. injection H as _ <-. reflexivity.
  - destruct s as [| a s]; [destruct Hin |].
    destruct (class_matches ic negated items a); [| destruct Hin].
    destruct Hin as [H | []]. injection H as _ <-. reflexivity.
  - rewrite existsb_app in Hi. apply orb_false_elim in Hi. destruct Hi as [Hi1 Hi2].
    apply in_flat_map in Hin. destruct Hin as ([s1 c1] & H1 & H2).
    rewrite (IH2 Hi2 _ _ _ _ H2). exact (IH1 Hi1 _ _ _ _ H1).
  - rewrite existsb_app in Hi. apply orb_false_elim in Hi. destruct Hi as [Hi1 Hi2].
    apply in_app_or in Hin. destruct Hin as [H | H];
      [exact (IH1 Hi1 _ _ _ _ H) | exact (IH2 Hi2 _ _ _ _ H)].
  - refine (repeat_matcher_keeps (fun c0 => get_capture i c0 = get_capture i c)
              _ _ _ _ _ _ _ _ _ _ _ _ eq_refl Hin).
    + intros c0 H0. rewrite get_capture_clear by exact Hi. exact H0.
    + intros s0 c0 s1 c1 H0 H1. rewrite (IH Hi _ _ _ _ H1). exact H0.
  - cbn [existsb] in Hi. apply orb_false_elim in Hi. destruct Hi as [Hij Hi].
    apply in_map_iff in Hin. destruct Hin as ([s1 c1] & H & H1).
    injection H as _ <-. unfold set_capture. cbn [get_capture]. rewrite Hij.
    exact (IH Hi _ _ _ _ H1).
  - destruct s; [| destruct Hin]. destruct Hin as [H | []]. injection H as _ <-.
    reflexivity.
Qed.

Lemma run_always_captures (ic : bool) (i : nat) (r : regex) :
  always_captures i r = true ->
  forall s c s' c', In (s', c') (run ic r s c) -> get_capture i c' <> None.
Proof.
  induction r as [| p | negated items | r1 IH1 r2 IH2 | r1 IH1 r2 IH2
                 | r IH min max greedy | j r IH |];
    cbn [always_captures]; intros Hi s c s' c' Hin; try discriminate;
    cbn [run] in Hin.
  - apply in_flat_map in Hin. destruct Hin as ([s1 c1] & H1 & H2).
    apply orb_prop in Hi. destruct Hi as [Hi | Hi].
    + exact (IH2 Hi _ _ _ _ H2).
    + apply andb_prop in Hi. destruct Hi as [Hi1 Hi2].
      apply negb_true_iff in Hi2.
      rewrite (run_keeps_capture ic i r2 Hi2 _ _ _ _ H2).
      exact (IH1 Hi1 _ _ _ _ H1).
  - apply andb_prop in Hi. destruct Hi as [Hi1 Hi2].
    apply in_app_or in Hin. destruct Hin as [H | H];
      [exact (IH1 Hi1 _ _ _ _ H) | exact (IH2 Hi2 _ _ _ _ H)].
  - apply in_map_iff in Hin. destruct Hin as ([s1 c1] & H & H1).
    injection H as _ <-. unfold set_capture. cbn [get_capture].
    destruct (Nat.eqb i j) eqn:Eij; [discriminate |].
    cbn [orb] in Hi. exact (IH Hi _ _ _ _ H1).
Qed.

Lemma search_always_captures (ic : bool) (i : nat) (r : regex) (s : string)
    (m : MatchResult) :
  always_captures i r = true -> search ic r s = Some m ->
  get_capture i (groups m) <> None.
Proof.
  intros Hi. induction s as [| a s IH]; cbn [search].
  - destruct (run ic r "" []) as [| [s' c'] rest] eqn:E; [discriminate |].
    intros H. injection H as <-. cbn [groups].
    apply (run_always_captures ic i r Hi "" [] s' c'). rewrite E. left. reflexivity.
  - destruct (run ic r (String a s) []) as [| [s' c'] rest] eqn:E; [exact IH |].
    intros H. injection H as <-. cbn [groups].
    apply (run_always_captures ic i r Hi (String a s) [] s' c'). rewrite E.
    left. reflexivity.
Qed.

(** Every group that the parser reads from a match is defined in that
    match: [group] never stands for [undefined]. *)
Lemma parser_groups_defined (s : string) (m : MatchResult) :
  (match_ s PATTERNS.amount = Some m
   \/ match_ s PATTERNS.type = Some m
   \/ match_ s PATTERNS.account = Some m
   \/ match_ s PATTERNS.date = Some m
   \/ match_ s PATTERNS.time = Some m
   \/ match_ s PATTERNS.method = Some m
   \/ match_ s PATTERNS.referenceNumber = Some m
   \/ match_ s PATTERNS.upiMerchant = Some m
   \/ match_ s PATTERNS.cardMerchant = Some m
   \/ match_ s PATTERNS.depositLocation = Some m
   \/ match_ s PATTERNS.balance = Some m ->
   get_capture 1 (groups m) <> None)
  /\ (match_ s PATTERNS.upiMerchant = Some m -> get_capture 2 (groups m) <> None).
Proof.
  split.
  - intros H.
    repeat (destruct H as [H | H];
            [revert H; apply search_always_captures; reflexivity |]).
    revert H. apply search_always_captures. reflexivity.
  - apply search_always_captures. reflexivity.
Qed.

(** ** The patterns and the conversions on small inputs *)

Example amount_with_commas :
  match_ "Paid INR 1,234.50 today" PATTERNS.amount
  = Some (mkMatch "INR 1,234.50" [(1%nat, "1,234.50")]).
Proof. vm_compute. reflexivity. Qed.

Example account_skips_failed_alternative :
  match_ "account ending 1234" PATTERNS.account
  = Some (mkMatch "ending 1234" [(1%nat, "1234")]).
Proof. vm_compute. reflexivity. Qed.

Example merchant_name_is_lazy :
  match_ "to VPA shop@bank CITY STORE on 01-02-26 on hold" PATTERNS.upiMerchant
  = Some (mkMatch "to VPA shop@bank CITY STORE on"
            [(2%nat, "CITY STORE"); (1%nat, "shop@bank")]).
Proof. vm_compute. reflexivity. Qed.

Example reference_after_optional_words :
  match_ "Ref. no. is: X9" PATTERNS.referenceNumber
  = Some (mkMatch "Ref. no. is: X9" [(1%nat, "X9")]).
Proof. vm_compute. reflexivity. Qed.

Example method_ignores_case :
  match_ "paid by neft" PATTERNS.method = Some (mkMatch "neft" [(1%nat, "neft")]).
Proof. vm_compute. reflexivity. Qed.

Example date_needs_two_digit_day :
  match_ "on 1-02-2026" PATTERNS.date = None.
Proof. vm_compute. reflexivity. Qed.

Example normalized_collapses_white_space :
  normalized (String "009" "Rs.  5" +:+ String "010" (String "013" " x "))
  = "Rs. 5 x".
Proof. vm_compute. reflexivity. Qed.

Example parseInt_radix :
  parseInt "0x3E8" = Some 0 /\ parseInt_no_radix "0x3E8" = Some 1000
  /\ parseInt_no_radix " -0X1f" = Some (-31)
  /\ parseInt_no_radix "1768224079000" = Some 1768224079000
  /\ parseInt_no_radix "0x" = None /\ parseInt_no_radix "08" = Some 8.
Proof. repeat split; reflexivity. Qed.

Example parseFloat_examples :
  parseFloat "10000" = Dec 10000 0 /\ parseFloat "1234.50" = Dec 123450 2
  /\ parseFloat "" = NaN /\ parseFloat "." = NaN /\ parseFloat "5." = Dec 5 0.
Proof. vm_compute. repeat split. Qed.

Example falsy_examples :
  falsy (Dec 0 0) = true /\ falsy (Dec 0 2) = true /\ falsy NaN = true
  /\ falsy (Dec 1 2) = false.
Proof. vm_compute. repeat split. Qed.

Example format_epoch :
  formatToIndianDateTime 0 (Some 0) = "01/01/1970 12:00 AM"
  /\ formatToIndianDateTime 0 (Some (-1)) = "31/12/1969 11:59 PM"
  /\ formatToIndianDateTime 19800000 (Some 0) = "01/01/1970 5:30 AM".
Proof. vm_compute. repeat split. Qed.

Example format_leap_days :
  formatToIndianDateTime 0 (Some 951782400000) = "29/02/2000 12:00 AM"
  /\ formatToIndianDateTime 0 (Some 4107542399999) = "28/02/2100 11:59 PM"
  /\ formatToIndianDateTime 0 (Some 1709251199000) = "29/02/2024 11:59 PM".
Proof. vm_compute. repeat split. Qed.

Example format_invalid_date :
  formatToIndianDateTime 0 None = "NaN/NaN/NaN 12:NaN AM".
Proof. vm_compute. reflexivity. Qed.

Example date_overflow_rolls_over :
  formatToIndianDateTime 0 (parseEmailDate 0 (fun _ => None) "31-02-26" (Some "24:61"))
  = "04/03/2026 1:01 AM".
Proof. vm_compute. reflexivity. Qed.

(** ** The parser on concrete messages *)

Lemma LocalTime_UTC (tz t : Z) : LocalTime tz (UTC tz t) = t.
Proof. unfold LocalTime, UTC. cbn [offset_at offset_of_local fixed_offset]. lia. Qed.

Lemma UTC_fixed (tz t : Z) : UTC tz t = t - tz.
Proof. reflexivity. Qed.

Lemma TimeClip_small (t : Z) :
  Z.abs t <= 8640000000000000 -> TimeClip t = Some t.
Proof.
  intros H. unfold TimeClip.
  destruct (Z.ltb_spec 8640000000000000 (Z.abs t)); [lia | reflexivity].
Qed.

(** The local fields of a date do not depend on the zone once the date is
    given by its local time. *)
Lemma getter_shift (f : Z -> Z) (tz : Zone) (t : Z) :
  (f ∘ LocalTime tz <$> Some t) = (f ∘ LocalTime 0 <$> Some (LocalTime tz t)).
Proof.
  change (Some (f (LocalTime tz t)) = Some (f (LocalTime tz t + 0))).
  rewrite Z.add_0_r. reflexivity.
Qed.

Lemma format_shift (tz : Zone) (t : Z) :
  formatToIndianDateTime tz (Some t) = formatToIndianDateTime 0 (Some (LocalTime tz t)).
Proof.
  unfold formatToIndianDateTime, getDate, getMonth, getFullYear, getHours,
    getMinutes.
  rewrite (getter_shift DateFromTime), (getter_shift MonthFromTime),
    (getter_shift YearFromTime), (getter_shift HourFromTime),
    (getter_shift MinFromTime).
  reflexivity.
Qed.

Lemma Date_of_ymd_Some (tz : Zone) (y m d : Z) :
  Date_of_ymd tz (Some y) (Some m) (Some d)
  = TimeClip (UTC tz (MakeDate
      (MakeDay (if (0 <=? y) && (y <=? 99) then 1900 + y else y) m d) 0)).
Proof. reflexivity. Qed.

Lemma setHours_Some (tz : Zone) (t h m s : Z) :
  setHours tz (Some t) (Some h) (Some m) (Some s)
  = TimeClip (UTC tz (MakeDate (Day (LocalTime tz t))
      (MakeTime h m s (msFromTime (LocalTime tz t))))).
Proof. reflexivity. Qed.

Lemma example_date (tz : Z) (dp : string -> Date) :
  Z.abs tz <= 86400000 ->
  formatToIndianDateTime tz (parseEmailDate tz dp "12-01-2026" (Some "18:51"))
  = "12/01/2026 6:51 PM".
Proof.
  intros Htz.
  assert (Hd : parseEmailDate tz dp "12-01-2026" (Some "18:51")
               = Some (1768243860000 - tz)).
  { unfold parseEmailDate.
    transitivity (setHours tz (Date_of_ymd tz (Some 2026) (Some 0) (Some 12))
                    (Some 18) (Some 51) (Some 0)).
    { generalize (setHours tz), (Date_of_ymd tz). intros set_hours of_ymd.
      vm_compute. reflexivity. }
    rewrite Date_of_ymd_Some.
    assert (Hmid : MakeDate (MakeDay (if (0 <=? 2026) && (2026 <=? 99)
                                      then 1900 + 2026 else 2026) 0 12) 0
                   = 1768176000000) by (vm_compute; reflexivity).
    rewrite Hmid. clear Hmid.
    rewrite TimeClip_small by (rewrite UTC_fixed; lia).
    rewrite setHours_Some, LocalTime_UTC.
    assert (Hset : MakeDate (Day 1768176000000)
                     (MakeTime 18 51 0 (msFromTime 1768176000000))
                   = 1768243860000) by (vm_compute; reflexivity).
    rewrite Hset. clear Hset.
    rewrite TimeClip_small by (rewrite UTC_fixed; lia). reflexivity. }
  rewrite Hd, format_shift, <- (UTC_fixed tz), LocalTime_UTC.
  vm_compute. reflexivity.
Qed.

(** C4.  The example message of the specification is accepted, with
    amount 500, direction Debit, method UPI, account 1234, description
    "MERCHANT NAME (merchant@upi)", reference ABC123, date and time
    "12/01/2026 6:51 PM" and available balance 10000 (for every subject,
    received date and message identifier, and every zone of a constant
    offset of at most a day). *)
Theorem parse_example_message (tz : Z) (dp : string -> Date) (subject : string)
    (received : Date) (message_id : string) :
  Z.abs tz <= 86400000 ->
  parseHDFCEmail tz dp example_body subject received message_id
  = Success
      (mkTransaction "12/01/2026 6:51 PM" (Dec 500 0) Debit "UPI" "1234"
         "MERCHANT NAME (merchant@upi)" "ABC123" (Available (Dec 10000 0))
         "" "" (formatToIndianDateTime tz received)).
Proof.
  intros Htz. unfold parseHDFCEmail.
  generalize (example_date tz dp Htz).
  generalize (parseEmailDate tz dp), (formatToIndianDateTime tz).
  intros parse_date format Hdate.
  vm_compute. vm_compute in Hdate. rewrite Hdate. reflexivity.
Qed.

Lemma parse_example_message_witness :
  Z.abs 19800000 <= 86400000
  /\ parseHDFCEmail 19800000 (fun _ => None) example_body "Alert" (Some 1768224074692) "m1"
     = Success
         (mkTransaction "12/01/2026 6:51 PM" (Dec 500 0) Debit "UPI" "1234"
            "MERCHANT NAME (merchant@upi)" "ABC123" (Available (Dec 10000 0))
            "" "" (formatToIndianDateTime 19800000 (Some 1768224074692))).
Proof.
  split; [lia | apply parse_example_message; lia].
Defined.

(** ** The acceptance gate *)

(** The reference of an accepted transaction, in terms of the match of
    the reference pattern. *)
Lemma reference_of_accepted (tz : Zone) (dp : string -> Date)
    (body subject : string) (received : Date) (message_id : string)
    (t : ParsedTransaction) :
  parseHDFCEmail tz dp body subject received message_id = Success t ->
  referenceNumber t
  = match match_ (normalized body) PATTERNS.referenceNumber with
    | Some refMatch =>
        if is_empty (group 1 refMatch) then "EMAIL_" +:+ message_id
        else group 1 refMatch
    | None => "EMAIL_" +:+ message_id
    end.
Proof.
  unfold parseHDFCEmail, normalized. cbv zeta.
  match goal with
  | |- (if ?gate then _ else _) = _ -> _ => destruct gate
  end; [discriminate |].
  intros H. injection H as <-. cbn [referenceNumber].
  destruct (match_ _ PATTERNS.referenceNumber); reflexivity.
Qed.

Lemma append_EMAIL_nonempty (s : string) : "EMAIL_" +:+ s <> "".
Proof. discriminate. Qed.

Lemma is_empty_false (s : string) : is_empty s = false -> s <> "".
Proof. destruct s; [discriminate | intros _; discriminate]. Qed.

Lemma reference_of_accepted_nonempty (tz : Zone) (dp : string -> Date)
    (body subject : string) (received : Date) (message_id : string)
    (t : ParsedTransaction) :
  parseHDFCEmail tz dp body subject received message_id = Success t ->
  referenceNumber t <> "".
Proof.
  intros H. rewrite (reference_of_accepted _ _ _ _ _ _ _ H).
  destruct (match_ _ PATTERNS.referenceNumber) as [m |].
  - destruct (is_empty (group 1 m)) eqn:E.
    + apply append_EMAIL_nonempty.
    + apply is_empty_false, E.
  - apply append_EMAIL_nonempty.
Qed.

(** The part of the gate that the program enforces: a message without an
    amount or without an account suffix is rejected with the fixed
    reason. *)
Lemma missing_amount_or_account_rejected (tz : Zone) (dp : string -> Date)
    (body subject : string) (received : Date) (message_id : string) :
  match_ (normalized body) PATTERNS.amount = None
  \/ match_ (normalized body) PATTERNS.account = None ->
  exists data,
    parseHDFCEmail tz dp body subject received message_id
    = Failure "Missing required fields (amount, type, or account)" data.
Proof.
  unfold parseHDFCEmail, normalized. cbv zeta.
  intros [H | H]; rewrite H; cbn [falsy is_zero is_empty orb].
  - eexists. reflexivity.
  - rewrite orb_true_r. eexists. reflexivity.
Qed.

(** C1 (the program departs from the claim).  A message with an amount
    and an account suffix but neither "credited" nor "debited" is not
    rejected: it is accepted as a Debit, the value the transaction starts
    with. *)
Theorem missing_direction_accepted_as_debit (tz : Zone) (dp : string -> Date)
    (subject : string) (received : Date) (message_id : string) :
  match_ (normalized no_direction_body) PATTERNS.type = None
  /\ exists t,
       parseHDFCEmail tz dp no_direction_body subject received message_id = Success t
       /\ amount t = Dec 500 0 /\ type t = Debit /\ account t = "1234".
Proof.
  split; [vm_compute; reflexivity |].
  unfold parseHDFCEmail.
  generalize (formatToIndianDateTime tz). intros format.
  vm_compute. eexists. split; [reflexivity |]. repeat split.
Qed.

(** C9 (the program departs from the claim).  The method pattern
    matches without regard to case and the matched text is stored as it
    is found: a message whose first method word is the "upi" of a payment
    address is accepted with method "upi", which is not in the closed
    set. *)
Theorem method_keeps_case_of_match (tz : Zone) (dp : string -> Date)
    (subject : string) (received : Date) (message_id : string) :
  exists t,
    parseHDFCEmail tz dp lower_case_upi_body subject received message_id = Success t
    /\ method t = "upi" /\ is_method (method t) = false.
Proof.
  unfold parseHDFCEmail.
  generalize (formatToIndianDateTime tz). intros format.
  vm_compute. eexists. split; [reflexivity |]. split; reflexivity.
Qed.

(** What the program does ensure: an accepted transaction has a
    non-empty reference number, and when the reference pattern matches
    nowhere in the body the reference number is "EMAIL_" followed by the
    message identifier. *)
Lemma accepted_reference (tz : Zone) (dp : string -> Date)
    (body subject : string) (received : Date) (message_id : string)
    (t : ParsedTransaction) :
  parseHDFCEmail tz dp body subject received message_id = Success t ->
  referenceNumber t <> ""
  /\ (match_ (normalized body) PATTERNS.referenceNumber = None ->
      referenceNumber t = "EMAIL_" +:+ message_id).
Proof.
  intros H. split.
  - exact (reference_of_accepted_nonempty _ _ _ _ _ _ _ H).
  - intros Hnone. rewrite (reference_of_accepted _ _ _ _ _ _ _ H), Hnone.
    reflexivity.
Qed.

Example accepted_without_reference :
  exists t,
    parseHDFCEmail 19800000 (fun _ => None) no_reference_body "Alert"
      (Some 1768224074692) "m1" = Success t
    /\ referenceNumber t = "EMAIL_m1".
Proof. eexists. split; vm_compute; reflexivity. Qed.

(** The same pattern misses a reference that the body does hold when an
    earlier word starts with "ref": the reference is then the rest of
    that word. *)
Example reference_token_missed :
  exists t,
    parseHDFCEmail 19800000 (fun _ => None)
      "Rs. 500 debited from account ending 1234. Please refer to reference number is ABC123"
      "Alert" (Some 1768224074692) "m1" = Success t
    /\ referenceNumber t = "er".
Proof. eexists. split; vm_compute; reflexivity. Qed.

(** ** The canonical timestamp *)

Lemma DayFromYear_step (y : Z) :
  DayFromYear (y + 1) = DayFromYear y + 365 + (if is_leap y then 1 else 0).
Proof.
  unfold DayFromYear, is_leap.
  destruct (Z.eqb_spec (y mod 4) 0), (Z.eqb_spec (y mod 100) 0),
    (Z.eqb_spec (y mod 400) 0); cbn [negb andb orb];
    Z.div_mod_to_equations; lia.
Qed.

(** [YearFromDay] finds the year: day [d] lies in it. *)
Lemma YearFromDay_spec (d : Z) :
  DayFromYear (YearFromDay d) <= d < DayFromYear (YearFromDay d + 1).
Proof.
  unfold YearFromDay.
  set (y := 1970 + 400 * d / 146097).
  assert (Hlo : DayFromYear (y - 1) <= d).
  { unfold DayFromYear, y. Z.div_mod_to_equations. lia. }
  assert (Hhi : d < DayFromYear (y + 2)).
  { unfold DayFromYear, y. Z.div_mod_to_equations. lia. }
  destruct (Z.ltb_spec d (DayFromYear y)).
  - replace (y - 1 + 1) with y by lia. lia.
  - destruct (Z.leb_spec (DayFromYear (y + 1)) d).
    + replace (y + 1 + 1) with (y + 2) by lia. lia.
    + lia.
Qed.

Lemma InLeapYear_cases (t : Z) : InLeapYear t = 0 \/ InLeapYear t = 1.
Proof. unfold InLeapYear. destruct (is_leap _); auto. Qed.

Lemma DayWithinYear_bounds (t : Z) :
  0 <= DayWithinYear t < 365 + InLeapYear t.
Proof.
  unfold DayWithinYear, InLeapYear, YearFromTime.
  pose proof (YearFromDay_spec (Day t)) as H.
  rewrite DayFromYear_step in H. lia.
Qed.

Lemma month_of_day_bounds (leap d : Z) :
  0 <= month_of_day leap d <= 11.
Proof.
  unfold month_of_day.
  repeat match goal with
         | |- context [if ?a <? ?b then _ else _] => destruct (Z.ltb_spec a b)
         end; lia.
Qed.

Lemma date_in_month_bounds (leap d : Z) :
  (leap = 0 \/ leap = 1) -> 0 <= d < 365 + leap ->
  1 <= d - month_start leap (month_of_day leap d) + 1 <= 31.
Proof.
  intros Hleap Hd. unfold month_of_day.
  repeat match goal with
         | |- context [if ?a <? ?b then _ else _] => destruct (Z.ltb_spec a b)
         end; cbn [month_start]; lia.
Qed.

Lemma DateFromTime_bounds (t : Z) : 1 <= DateFromTime t <= 31.
Proof.
  unfold DateFromTime, MonthFromTime.
  apply date_in_month_bounds;
    [apply InLeapYear_cases | apply DayWithinYear_bounds].
Qed.

Lemma MonthFromTime_bounds (t : Z) : 0 <= MonthFromTime t <= 11.
Proof. apply month_of_day_bounds. Qed.

Lemma HourFromTime_bounds (t : Z) : 0 <= HourFromTime t <= 23.
Proof. unfold HourFromTime. pose proof (Z.mod_pos_bound (t / msPerHour) 24). lia. Qed.

Lemma MinFromTime_bounds (t : Z) : 0 <= MinFromTime t <= 59.
Proof. unfold MinFromTime. pose proof (Z.mod_pos_bound (t / msPerMinute) 60). lia. Qed.

(** A property checked on every number of a range holds on the range. *)
Lemma forall_range (f : Z -> bool) (lo hi : Z) :
  forallb f (range lo hi) = true ->
  forall z, lo <= z < hi -> f z = true.
Proof.
  intros H z Hz. rewrite forallb_forall in H. apply H.
  apply in_map_iff. exists (Z.to_nat (z - lo)). split; [lia |].
  apply in_seq. lia.
Qed.

Lemma two_digits_inv (s : string) :
  two_digits s = true ->
  exists a b, s = String a (String b EmptyString)
              /\ is_digit a = true /\ is_digit b = true.
Proof.
  destruct s as [| a [| b [| ? ?]]]; try discriminate.
  cbn [two_digits]. intros H. apply andb_prop in H. destruct H.
  exists a, b. auto.
Qed.

Lemma four_digits_inv (s : string) :
  four_digits s = true ->
  exists a b c d, s = String a (String b (String c (String d EmptyString)))
              /\ is_digit a = true /\ is_digit b = true
              /\ is_digit c = true /\ is_digit d = true.
Proof.
  destruct s as [| a [| b [| c [| d [| ? ?]]]]]; try discriminate.
  cbn [four_digits]. intros H.
  do 3 (apply andb_prop in H; destruct H as [H ?]).
  exists a, b, c, d. repeat split; assumption.
Qed.

(** Numbers below 100 are padded to exactly two digits. *)
Lemma padStart2_two_digits (n : Z) :
  0 <= n <= 99 -> two_digits (padStart2 (to_string (Some n))) = true.
Proof.
  intros H.
  apply (forall_range (fun n => two_digits (padStart2 (to_string (Some n)))) 0 100);
    [vm_compute; reflexivity | lia].
Qed.

(** A year from 1000 to 9999 prints as four digits. *)
Lemma year_four_digits (y : Z) :
  1000 <= y <= 9999 -> four_digits (to_string (Some y)) = true.
Proof.
  intros H.
  apply (forall_range (fun y => four_digits (to_string (Some y))) 1000 10000);
    [vm_compute; reflexivity | lia].
Qed.

Lemma hours12_bounds (h : Z) :
  0 <= h <= 23 -> exists h', hours12 (Some h) = Some h' /\ 1 <= h' <= 12.
Proof.
  intros H. unfold hours12. cbn [fmap option_fmap option_map].
  pose proof (Z.rem_bound_pos h 12 ltac:(lia) ltac:(lia)) as Hr.
  destruct (Z.rem h 12) eqn:E.
  - exists 12. split; [reflexivity | lia].
  - exists (Z.pos p). split; [reflexivity | lia].
  - lia.
Qed.

(** The shape of the text after the year, for an hour from 1 to 12 and a
    two-digit minute. *)
Lemma time_shape (h : Z) (n1 n2 : ascii) (ampm : string) :
  1 <= h <= 12 -> is_digit n1 = true -> is_digit n2 = true ->
  ampm = "AM" \/ ampm = "PM" ->
  match hour_unpadded
          (to_string (Some h) +:+ ":" +:+ String n1 (String n2 EmptyString)
             +:+ " " +:+ ampm) with
  | Some (String ":" (String m1 (String m2 (String " " rest)))) =>
      is_digit m1 && is_digit m2
      && (String.eqb rest "AM" || String.eqb rest "PM")
  | _ => false
  end = true.
Proof.
  intros Hh H1 H2 Hap.
  assert (Hcases : h = 1 \/ h = 2 \/ h = 3 \/ h = 4 \/ h = 5 \/ h = 6 \/ h = 7
                   \/ h = 8 \/ h = 9 \/ h = 10 \/ h = 11 \/ h = 12) by lia.
  destruct Hap; subst ampm;
    repeat (destruct Hcases as [-> | Hcases]); try subst h;
    cbv -[is_digit]; rewrite H1, H2; reflexivity.
Qed.

(** C6 (amended).  For every instant whose local year has four digits
    (1000 to 9999) the formatter gives a text of the shape
    DD/MM/YYYY H:MM AM|PM: day, month and minute padded to two digits,
    the year printed as it is, the hour from 1 to 12 without padding. *)
Theorem format_canonical_shape (tz : Zone) (t : Z) :
  1000 <= YearFromTime (LocalTime tz t) <= 9999 ->
  canonical_shape (formatToIndianDateTime tz (Some t)) = true.
Proof.
  intros Hyear. unfold formatToIndianDateTime, getDate, getMonth, getFullYear,
    getHours, getMinutes.
  cbn [fmap option_fmap option_map compose].
  set (lt := LocalTime tz t) in *.
  pose proof (DateFromTime_bounds lt) as Hd.
  pose proof (MonthFromTime_bounds lt) as Hm.
  pose proof (HourFromTime_bounds lt) as Hh.
  pose proof (MinFromTime_bounds lt) as Hn.
  destruct (two_digits_inv _ (padStart2_two_digits (DateFromTime lt) ltac:(lia)))
    as (d1 & d2 & -> & Hd1 & Hd2).
  destruct (two_digits_inv _ (padStart2_two_digits (1 + MonthFromTime lt) ltac:(lia)))
    as (m1 & m2 & -> & Hm1 & Hm2).
  destruct (two_digits_inv _ (padStart2_two_digits (MinFromTime lt) ltac:(lia)))
    as (n1 & n2 & -> & Hn1 & Hn2).
  destruct (four_digits_inv _ (year_four_digits _ Hyear))
    as (y1 & y2 & y3 & y4 & -> & Hy1 & Hy2 & Hy3 & Hy4).
  destruct (hours12_bounds _ Hh) as (h' & -> & Hh').
  set (ampm := if 12 <=? HourFromTime lt then "PM" else "AM").
  change (canonical_shape
            (String d1 (String d2 (String "/" (String m1 (String m2 (String "/"
               (String y1 (String y2 (String y3 (String y4 (String " "
                  (to_string (Some h') +:+ ":" +:+ String n1 (String n2 "")
                     +:+ " " +:+ ampm)))))))))))) = true).
  cbv beta iota delta [canonical_shape].
  rewrite Hd1, Hd2, Hm1, Hm2, Hy1, Hy2, Hy3, Hy4. cbn [andb].
  apply time_shape; try assumption.
  subst ampm. destruct (12 <=? HourFromTime lt); auto.
Qed.

Lemma format_canonical_shape_witness :
  1000 <= YearFromTime (LocalTime 19800000 1768224074692) <= 9999
  /\ canonical_shape (formatToIndianDateTime 19800000 (Some 1768224074692)) = true.
Proof.
  split; [vm_compute; split; discriminate |].
  apply format_canonical_shape. vm_compute. split; discriminate.
Defined.

(** C6 (the claim as stated fails).  The year is never padded: the
    twelfth of January of the year 202, which the parser builds from the
    date token "12-01-202", is printed "12/01/202 12:00 AM" (here on a
    host whose zone is UTC). *)
Lemma format_year_not_padded :
  parseEmailDate 0 (fun _ => None) "12-01-202" None = Some (-55791763200000)
  /\ formatToIndianDateTime 0 (Some (-55791763200000)) = "12/01/202 12:00 AM"
  /\ ~ (forall (tz : Zone) t,
          canonical_shape (formatToIndianDateTime tz (Some t)) = true).
Proof.
  split; [vm_compute; reflexivity |].
  split; [vm_compute; reflexivity |].
  intros H. specialize (H (fixed_offset 0) (-55791763200000)).
  vm_compute in H. discriminate.
Qed.

(** ** Deduplication *)

#[local] Set Warnings "-clear-no-such-hyp".

Section Dedup.

Variable LocalTZA : Zone.
Variable Date_parse : string -> Date.

Lemma add_row_elem (refs : gset string) (row : list string) (x : string) :
  x ∈ add_row refs row <-> x ∈ refs \/ (x <> "" /\ exists rest, row = x :: rest).
Proof.
  unfold add_row. destruct row as [| [| c r] rest].
  - split; [auto | intros [H | (_ & ? & H)]; [exact H | discriminate]].
  - split; [auto |].
    intros [H | (Hne & ? & H)]; [exact H |].
    injection H as <- _. contradiction.
  - rewrite elem_of_union, elem_of_singleton. split.
    + intros [-> | H]; [right | left; exact H].
      split; [discriminate | eexists; reflexivity].
    + intros [H | (_ & ? & H)]; [right; exact H | left].
      injection H as H _. symmetry. exact H.
Qed.

Lemma fold_add_row_elem (values : list (list string)) (refs : gset string) (x : string) :
  x ∈ fold_left add_row values refs
  <-> x ∈ refs \/ (x <> "" /\ exists rest, In (x :: rest) values).
Proof.
  revert refs. induction values as [| row values IH]; intros refs; cbn [fold_left].
  - split; [auto | intros [H | (_ & ? & [])]; exact H].
  - rewrite IH, add_row_elem. split.
    + intros [[H | (Hne & rest & ->)] | (Hne & rest & Hin)].
      * left. exact H.
      * right. split; [exact Hne | exists rest; left; reflexivity].
      * right. split; [exact Hne | exists rest; right; exact Hin].
    + intros [H | (Hne & rest & [Heq | Hin])].
      * left. left. exact H.
      * left. right. split; [exact Hne | exists rest; exact Heq].
      * right. split; [exact Hne | exists rest; exact Hin].
Qed.

(** The set built from the column: the non-empty first cells of its
    rows. *)
Lemma existing_refs_elem (values : list (list string)) (x : string) :
  x ∈ existing_refs values <-> x <> "" /\ exists rest, In (x :: rest) values.
Proof.
  unfold existing_refs. rewrite fold_add_row_elem.
  split; [intros [H | H]; [set_solver | exact H] | auto].
Qed.

Lemma keep_if_new_known (refs : gset string) (new : list ParsedTransaction)
    (t : ParsedTransaction) :
  referenceNumber t ∈ refs -> keep_if_new (refs, new) t = (refs, new).
Proof.
  intros H. unfold keep_if_new. rewrite bool_decide_eq_true_2 by exact H.
  reflexivity.
Qed.

Lemma refs_of_cons (t : ParsedTransaction) (ts : list ParsedTransaction) :
  refs_of (t :: ts) = {[referenceNumber t]} ∪ refs_of ts.
Proof. reflexivity. Qed.

Lemma refs_of_app (ts1 ts2 : list ParsedTransaction) :
  refs_of (ts1 ++ ts2) = refs_of ts1 ∪ refs_of ts2.
Proof. unfold refs_of. rewrite map_app. apply list_to_set_app_L. Qed.

(** The state of the deduplication after a batch: the set holds the
    earlier references and those of the batch, the list grows by the
    survivors. *)
Lemma fold_keep_if_new (ts : list ParsedTransaction) (refs : gset string)
    (new : list ParsedTransaction) :
  fold_left keep_if_new ts (refs, new)
  = (refs ∪ refs_of ts, new ++ survivors refs ts).
Proof.
  revert refs new. induction ts as [| t ts IH]; intros refs new.
  - cbn. f_equal; [set_solver | symmetry; apply app_nil_r].
  - unfold survivors. cbn [fold_left]. unfold keep_if_new at 2 4.
    rewrite refs_of_cons.
    destruct (bool_decide (referenceNumber t ∈ refs)) eqn:E.
    + apply bool_decide_eq_true_1 in E. rewrite IH. f_equal. set_solver.
    + rewrite (IH _ (new ++ [t])), (IH _ ([] ++ [t])). cbn [snd app].
      f_equal; [set_solver | rewrite <- app_assoc; reflexivity].
Qed.

Lemma survivors_snoc (refs : gset string) (pre : list ParsedTransaction)
    (t : ParsedTransaction) :
  survivors refs (pre ++ [t])
  = survivors refs pre
    ++ (if bool_decide (referenceNumber t ∈ refs ∪ refs_of pre) then [] else [t]).
Proof.
  unfold survivors at 1. rewrite fold_left_app, fold_keep_if_new.
  cbn [fold_left app]. unfold keep_if_new.
  destruct (bool_decide _); cbn [snd]; [rewrite app_nil_r |]; reflexivity.
Qed.

Lemma survivors_known (refs : gset string) (ts : list ParsedTransaction) :
  refs_of ts ⊆ refs -> survivors refs ts = [].
Proof.
  unfold survivors. induction ts as [| t ts IH]; intros H; [reflexivity |].
  rewrite refs_of_cons in H. cbn [fold_left].
  rewrite keep_if_new_known by set_solver. apply IH. set_solver.
Qed.

Lemma survivors_refs (refs : gset string) (ts : list ParsedTransaction) :
  refs ∪ refs_of (survivors refs ts) = refs ∪ refs_of ts.
Proof.
  revert refs. induction ts as [| t ts IH]; intros refs; [reflexivity |].
  unfold survivors. cbn [fold_left]. unfold keep_if_new.
  rewrite refs_of_cons.
  destruct (bool_decide (referenceNumber t ∈ refs)) eqn:E.
  - apply bool_decide_eq_true_1 in E.
    fold (survivors refs ts). rewrite IH. set_solver.
  - rewrite (fold_keep_if_new ts _ ([] ++ [t])). cbn [snd app].
    rewrite refs_of_cons.
    pose proof (IH ({[referenceNumber t]} ∪ refs)) as H. set_solver.
Qed.

(** A later candidate with the reference of an earlier one changes
    nothing. *)
Lemma survivors_duplicate (refs : gset string) (pre mid post : list ParsedTransaction)
    (t1 t2 : ParsedTransaction) :
  referenceNumber t1 = referenceNumber t2 ->
  survivors refs (pre ++ t1 :: mid ++ t2 :: post)
  = survivors refs (pre ++ t1 :: mid ++ post).
Proof.
  intros Href. unfold survivors.
  replace (pre ++ t1 :: mid ++ t2 :: post) with ((pre ++ t1 :: mid) ++ t2 :: post)
    by (rewrite <- app_assoc; reflexivity).
  replace (pre ++ t1 :: mid ++ post) with ((pre ++ t1 :: mid) ++ post)
    by (rewrite <- app_assoc; reflexivity).
  rewrite (fold_left_app _ (pre ++ t1 :: mid) (t2 :: post)),
    (fold_left_app _ (pre ++ t1 :: mid) post),
    (fold_keep_if_new (pre ++ t1 :: mid)).
  cbn [fold_left].
  rewrite keep_if_new_known; [reflexivity |].
  rewrite refs_of_app, refs_of_cons, <- Href. set_solver.
Qed.

(** The message loop deduplicates the candidates of its messages. *)
Lemma process_message_refs (env : Env) (st : LoopState) (message_id : string) :
  let st' := process_message LocalTZA Date_parse env st message_id in
  (existingRefs st', newTransactions st')
  = fold_left keep_if_new (candidate LocalTZA Date_parse env message_id)
      (existingRefs st, newTransactions st).
Proof.
  unfold process_message, candidate.
  destruct (gmail_get env message_id) as [msg |]; [| reflexivity].
  destruct (parseHDFCEmail _ _ _ _ _ _) as [t | err data].
  - cbn [fold_left].
    destruct (keep_if_new (existingRefs st, newTransactions st) t) as [refs new].
    cbn [latestTimestamp].
    destruct (match latestTimestamp st with
              | Some latest => date_gt (receivedDate_of Date_parse msg) latest
              | None => true
              end); reflexivity.
  - cbn [fold_left].
    destruct (toISOString (receivedDate_of Date_parse msg)) as [iso |];
      [| reflexivity].
    cbn [mbind option_bind latestTimestamp].
    destruct (match latestTimestamp st with
              | Some latest => date_gt (receivedDate_of Date_parse msg) latest
              | None => true
              end); reflexivity.
Qed.

Lemma fold_process_message_refs (env : Env) (messages : list string) (st : LoopState) :
  let st' := fold_left (process_message LocalTZA Date_parse env) messages st in
  (existingRefs st', newTransactions st')
  = fold_left keep_if_new (candidates LocalTZA Date_parse env messages)
      (existingRefs st, newTransactions st).
Proof.
  revert st. induction messages as [| m messages IH]; intros st; [reflexivity |].
  cbn [fold_left candidates flat_map]. rewrite fold_left_app.
  rewrite <- process_message_refs. apply IH.
Qed.

Lemma message_loop_survivors (env : Env) (messages : list string)
    (values : list (list string)) :
  newTransactions (message_loop LocalTZA Date_parse env messages values)
  = reconcile values (candidates LocalTZA Date_parse env messages).
Proof.
  unfold message_loop, reconcile.
  pose proof (fold_process_message_refs env messages
                (mkLoop (existing_refs values) [] [] None)) as H.
  cbn [existingRefs newTransactions] in H. cbv zeta in H.
  rewrite <- H. reflexivity.
Qed.

Lemma candidates_reference_nonempty (env : Env) (messages : list string)
    (t : ParsedTransaction) :
  In t (candidates LocalTZA Date_parse env messages) -> referenceNumber t <> "".
Proof.
  unfold candidates. rewrite in_flat_map. intros (m & _ & Hin).
  unfold candidate in Hin.
  destruct (gmail_get env m) as [msg |]; [| destruct Hin].
  destruct (parseHDFCEmail _ _ _ _ _ _) eqn:E; [| destruct Hin].
  destruct Hin as [<- | []].
  exact (reference_of_accepted_nonempty _ _ _ _ _ _ _ E).
Qed.

Lemma existing_refs_column_after (values : list (list string))
    (new : list ParsedTransaction) :
  (forall t, In t new -> referenceNumber t <> "") ->
  existing_refs (column_after values new) = existing_refs values ∪ refs_of new.
Proof.
  intros Hne. apply set_eq. intros x.
  rewrite elem_of_union, !existing_refs_elem. unfold column_after, refs_of.
  rewrite elem_of_list_to_set, list_elem_of_In, in_map_iff.
  split.
  - intros (Hx & rest & Hin). apply in_app_or in Hin. destruct Hin as [Hin | Hin].
    + left. split; [exact Hx | exists rest; exact Hin].
    + right. apply in_map_iff in Hin. destruct Hin as (t & Ht & Hin).
      exists t. split; [congruence | exact Hin].
  - intros [(Hx & rest & Hin) | (t & <- & Hin)].
    + split; [exact Hx | exists rest; apply in_or_app; left; exact Hin].
    + split; [apply Hne, Hin |].
      exists []. apply in_or_app. right. apply in_map_iff.
      exists t. split; [reflexivity | exact Hin].
Qed.

(** The survivors are candidates. *)
Lemma survivors_subset (refs : gset string) (ts : list ParsedTransaction)
    (t : ParsedTransaction) :
  In t (survivors refs ts) -> In t ts.
Proof.
  unfold survivors. revert refs.
  induction ts as [| c cs IH]; intros refs; [intros [] |].
  cbn [fold_left]. unfold keep_if_new at 2.
  destruct (bool_decide _).
  - intros H. right. exact (IH _ H).
  - rewrite (fold_keep_if_new cs _ ([] ++ [c])). cbn [snd app].
    intros [<- | H]; [left; reflexivity | right].
    exact (IH ({[referenceNumber c]} ∪ refs) H).
Qed.

(** The deduplication of the loop over the messages.  The loop keeps
    exactly the survivors of its candidates against the column; a
    candidate is kept if and only if its reference is not in the set
    built from the column and from the earlier candidates; a later
    candidate with the reference of an earlier one is not kept; and a
    second run over the same messages, on the column extended by what the
    first run has kept, keeps nothing. *)
Lemma message_loop_dedup (env : Env) (messages : list string)
    (values : list (list string)) :
  let batch := candidates LocalTZA Date_parse env messages in
  let first_run := newTransactions (message_loop LocalTZA Date_parse env messages values) in
  first_run = reconcile values batch
  /\ (forall pre t,
        reconcile values (pre ++ [t])
        = reconcile values pre
          ++ (if bool_decide (referenceNumber t ∈ existing_refs values ∪ refs_of pre)
              then [] else [t]))
  /\ (forall pre mid post t1 t2,
        referenceNumber t1 = referenceNumber t2 ->
        reconcile values (pre ++ t1 :: mid ++ t2 :: post)
        = reconcile values (pre ++ t1 :: mid ++ post))
  /\ newTransactions
       (message_loop LocalTZA Date_parse env messages (column_after values first_run))
     = [].
Proof.
  intros batch first_run.
  assert (Hfirst : first_run = survivors (existing_refs values) batch)
    by apply message_loop_survivors.
  split; [exact Hfirst |].
  split; [intros pre t; apply survivors_snoc |].
  split; [intros pre mid post t1 t2; apply survivors_duplicate |].
  rewrite message_loop_survivors. fold batch.
  change (survivors (existing_refs (column_after values first_run)) batch = []).
  apply survivors_known. rewrite Hfirst, existing_refs_column_after.
  - rewrite survivors_refs. set_solver.
  - intros t Hin. apply (candidates_reference_nonempty env messages).
    exact (survivors_subset _ _ _ Hin).
Qed.

End Dedup.

(** ** A reference found inside a word *)

(** C5 (the program departs from the claim).  The reference pattern
    makes every word after "ref" optional and asks for no word boundary,
    so that it also matches inside a word.  The alert of a refund holds
    no reference, yet it is accepted with the reference "und", the rest
    of the word "refund", and not with "EMAIL_" and the message
    identifier.  A second refund gets the same reference, whatever its
    message identifier, and is dropped as a duplicate of the first. *)
Theorem reference_taken_from_inside_a_word (tz : Zone) (dp : string -> Date)
    (subject : string) (received : Date) (message_id other_id : string) :
  forallb (fun phrase => negb (includes phrase (toLowerCase refund_body)))
    ["reference"; "ref "; "ref."; "ref:"; "number"] = true
  /\ exists t t',
       parseHDFCEmail tz dp refund_body subject received message_id = Success t
       /\ referenceNumber t = "und"
       /\ referenceNumber t <> "EMAIL_" +:+ message_id
       /\ parseHDFCEmail tz dp second_refund_body subject received other_id = Success t'
       /\ amount t' = Dec 750 0
       /\ referenceNumber t' = "und"
       /\ reconcile [] [t; t'] = [t].
Proof.
  split; [vm_compute; reflexivity |].
  assert (H1 : exists t,
            parseHDFCEmail tz dp refund_body subject received message_id = Success t
            /\ referenceNumber t = "und").
  { unfold parseHDFCEmail. generalize (formatToIndianDateTime tz). intros format.
    vm_compute. eexists. split; reflexivity. }
  assert (H2 : exists t',
            parseHDFCEmail tz dp second_refund_body subject received other_id = Success t'
            /\ amount t' = Dec 750 0 /\ referenceNumber t' = "und").
  { unfold parseHDFCEmail. generalize (formatToIndianDateTime tz). intros format.
    vm_compute. eexists. split; [reflexivity |]. split; reflexivity. }
  destruct H1 as (t & Ht & Hr), H2 as (t' & Ht' & Ha' & Hr').
  exists t, t'. split; [exact Ht |]. split; [exact Hr |].
  split; [rewrite Hr; discriminate |].
  split; [exact Ht' |]. split; [exact Ha' |]. split; [exact Hr' |].
  change (reconcile [] [t; t']) with (survivors ∅ ([] ++ t :: [] ++ t' :: [])).
  rewrite (survivors_duplicate dp) by congruence.
  unfold survivors. cbn [app fold_left]. unfold keep_if_new.
  rewrite bool_decide_eq_false_2 by apply not_elem_of_empty. reflexivity.
Qed.

(** ** The sync of one account *)

Section Account.

Variable LocalTZA : Zone.
Variable Date_parse : string -> Date.

Lemma map_patch_row_id (uid : string) (l : list User) :
  map (patch_row uid (fun u => u)) l = l.
Proof.
  induction l as [| u l IH]; [reflexivity |].
  cbn [map]. rewrite IH. unfold patch_row. destruct (String.eqb _ _); reflexivity.
Qed.

(** Two updates of the same account amount to one, when the first keeps
    the id. *)
Lemma map_patch_row_compose (uid : string) (P1 P2 : User -> User) (l : list User) :
  (forall u, id (P1 u) = id u) ->
  map (patch_row uid P2) (map (patch_row uid P1) l) = map (patch_row uid (P2 ∘ P1)) l.
Proof.
  intros Hid. rewrite map_map. apply map_ext. intros u. unfold patch_row.
  destruct (String.eqb (id u) uid) eqn:E.
  - rewrite Hid, E. reflexivity.
  - rewrite E. reflexivity.
Qed.

Lemma map_patch_row_ext (uid : string) (P1 P2 : User -> User) (l : list User) :
  (forall u, P1 u = P2 u) ->
  map (patch_row uid P1) l = map (patch_row uid P2) l.
Proof.
  intros H. apply map_ext. intros u. unfold patch_row.
  destruct (String.eqb _ _); [apply H | reflexivity].
Qed.

Lemma patch_row_hit (uid : string) (P : User -> User) (u : User) :
  String.eqb (id u) uid = true -> patch_row uid P u = P u.
Proof. intros H. unfold patch_row. rewrite H. reflexivity. Qed.

Lemma patch_row_miss (uid : string) (P : User -> User) (u : User) :
  String.eqb (id u) uid = false -> patch_row uid P u = u.
Proof. intros H. unfold patch_row. rewrite H. reflexivity. Qed.

Lemma find_patch_row (uid : string) (P : User -> User) (l : list User) (u : User) :
  (forall u, id (P u) = id u) ->
  find (fun u => String.eqb (id u) uid) l = Some u ->
  find (fun u => String.eqb (id u) uid) (map (patch_row uid P) l) = Some (P u).
Proof.
  intros Hid. induction l as [| v vs IH]; [discriminate |].
  cbn [find map].
  destruct (String.eqb (id v) uid) eqn:E.
  - rewrite (patch_row_hit _ _ _ E), Hid, E. intros H. injection H as ->. reflexivity.
  - rewrite (patch_row_miss _ _ _ E), E. exact IH.
Qed.

Lemma map_patch_row_field {A : Type} (f : User -> A) (uid : string)
    (P : User -> User) (l : list User) :
  (forall u, f (P u) = f u) ->
  map f (map (patch_row uid P) l) = map f l.
Proof.
  intros H. rewrite map_map. apply map_ext. intros u. unfold patch_row.
  destruct (String.eqb _ _); [apply H | reflexivity].
Qed.

(** The ledger calls leave the registry alone, and change nothing when
    they throw. *)
Lemma sheets_get_references_same (env : Env) (sid : string) (w w' : World)
    (r : outcome (list (list string))) :
  sheets_get_references env sid w = (w', r) -> w' = w.
Proof.
  unfold sheets_get_references.
  destruct (sheets_get_ok env), (ledger w !! sid); intros H; injection H as <- _;
    reflexivity.
Qed.

Lemma sheets_append_registry (env : Env) (sid : string) (values : list ParsedTransaction)
    (w w' : World) (r : outcome unit) :
  sheets_append env sid values w = (w', r) -> registry w' = registry w.
Proof.
  unfold sheets_append.
  destruct (sheets_append_ok env), (ledger w !! sid); intros H; injection H as <- _;
    reflexivity.
Qed.

Lemma sheets_update_metadata_registry (env : Env) (sid : string) (value : ISOString)
    (w w' : World) (r : outcome unit) :
  sheets_update_metadata env sid value w = (w', r) -> registry w' = registry w.
Proof.
  unfold sheets_update_metadata.
  destruct (sheets_update_ok env), (ledger w !! sid); intros H; injection H as <- _;
    reflexivity.
Qed.

(** *** The latest timestamp of the loop *)

Lemma max_instant_snoc (l : list Z) (x : Z) :
  max_instant (l ++ [x]) = later (max_instant l) x.
Proof. unfold max_instant. rewrite fold_left_app. reflexivity. Qed.

Lemma max_instant_None (l : list Z) : max_instant l = None -> l = [].
Proof.
  destruct l as [| x l] using rev_ind; [reflexivity |].
  rewrite max_instant_snoc. destruct (max_instant l); discriminate.
Qed.

(** The update of [latestTimestamp] at the end of a handled message. *)
Lemma newer_latest (st' : LoopState) (d : Date) (seen : list Z) :
  latest_agrees (latestTimestamp st') seen ->
  latest_agrees
    (latestTimestamp
       (if match latestTimestamp st' with
           | Some latest => date_gt d latest
           | None => true
           end
        then mkLoop (existingRefs st') (newTransactions st') (missedEmails st')
               (Some d)
        else st'))
    (seen ++ match d with Some x => [x] | None => [] end).
Proof.
  unfold latest_agrees. intros Hinv.
  destruct (latestTimestamp st') as [[m |] |] eqn:EL.
  - destruct d as [x |]; cbn [date_gt].
    + destruct (Z.ltb_spec m x); cbn [latestTimestamp]; [| rewrite EL];
        rewrite max_instant_snoc, Hinv; cbn [later]; f_equal; lia.
    + rewrite EL, app_nil_r. exact Hinv.
  - destruct d; cbn [date_gt]; rewrite EL; exact I.
  - cbn [latestTimestamp]. subst seen. destruct d; [reflexivity | exact I].
Qed.

Lemma process_message_latest (env : Env) (st : LoopState) (message_id : string)
    (seen : list Z) :
  latest_agrees (latestTimestamp st) seen ->
  latest_agrees
    (latestTimestamp (process_message LocalTZA Date_parse env st message_id))
    (seen ++ match received_instant Date_parse env message_id with
             | Some x => [x]
             | None => []
             end).
Proof.
  intros Hinv. unfold process_message, received_instant.
  destruct (gmail_get env message_id) as [msg |]; cbn [mbind option_bind];
    [| rewrite app_nil_r; exact Hinv].
  destruct (parseHDFCEmail _ _ _ _ _ _) as [t | err data].
  - destruct (keep_if_new _ t) as [refs new].
    apply (newer_latest (mkLoop refs new (missedEmails st) (latestTimestamp st))).
    exact Hinv.
  - unfold toISOString.
    destruct (receivedDate_of Date_parse msg) as [x |] eqn:Ed;
      cbn [mbind option_bind].
    + apply (newer_latest
               (mkLoop (existingRefs st) (newTransactions st)
                  (missedEmails st ++ [mkMissed message_id (subject_of msg)
                     (take 200 (body_of msg)) x "alerts@hdfcbank.net"])
                  (latestTimestamp st)) (Some x)).
      exact Hinv.
    + rewrite app_nil_r. exact Hinv.
Qed.

Lemma fold_process_message_latest (env : Env) (messages : list string)
    (st : LoopState) (seen : list Z) :
  latest_agrees (latestTimestamp st) seen ->
  latest_agrees
    (latestTimestamp (fold_left (process_message LocalTZA Date_parse env) messages st))
    (seen ++ omap (received_instant Date_parse env) messages).
Proof.
  revert st seen. induction messages as [| m messages IH]; intros st seen Hinv.
  - cbn. rewrite app_nil_r. exact Hinv.
  - cbn [fold_left].
    change (omap (received_instant Date_parse env) (m :: messages))
      with (match received_instant Date_parse env m with
            | Some x => x :: omap (received_instant Date_parse env) messages
            | None => omap (received_instant Date_parse env) messages
            end).
    pose proof (process_message_latest env st m seen Hinv) as H.
    apply IH in H.
    destruct (received_instant Date_parse env m);
      [rewrite <- app_assoc in H | rewrite app_nil_r in H]; exact H.
Qed.


Lemma sync_account_effect (env : Env) (user : User) (sid : string)
    (w w' : World) (r : outcome (option SyncResult)) :
  sync_account LocalTZA Date_parse env user sid w = (w', r) ->
  (r = Thrown /\ registry w' = registry w)
  \/ (r = Returned None /\ ledger w' = ledger w
      /\ registry w'
         = map (patch_row (id user) (set_is_active false ∘ set_is_processing false))
             (registry w))
  \/ (r = Returned (Some (mkResult 0 0))
      /\ gmail_list env (query_of user) = Some []
      /\ w' = mkWorld
                (map (patch_row (id user)
                        (set_is_processing false ∘ set_last_sync_time (now env)))
                   (registry w))
                (ledger w))
  \/ (exists res log,
        r = Returned (Some res)
        /\ retrieved env user <> []
        /\ registry w'
           = map (patch_row (id user)
                    (set_last_processed
                       (match latest_received Date_parse env user with
                        | Some m => Some m
                        | None => last_processed_email_timestamp user
                        end)
                     ∘ set_last_sync_time (now env)
                     ∘ set_is_processing false
                     ∘ set_missed_emails log))
               (registry w)).
Proof.
  unfold sync_account, bind, call.
  destruct (decrypt env (google_refresh_token user)) as [refreshToken |];
    cbn [ret throw]; [| intros H; injection H as <- <-; left; auto].
  cbv zeta. destruct (truthy (refreshAccessToken env refreshToken)); cbn [negb].
  2: { cbn. intros H. injection H as <- <-. right. left. auto. }
  destruct (gmail_list env (query_of user)) as [messages |] eqn:Elist;
    cbn [ret throw]; [| intros H; injection H as <- <-; left; auto].
  destruct messages as [| m messages].
  { cbn. intros H. injection H as <- <-. right. right. left. auto. }
  assert (Hret : retrieved env user = m :: messages).
  { unfold retrieved. rewrite Elist. reflexivity. }
  unfold try_catch at 1.
  destruct (sheets_get_references env sid w) as [w1 rv] eqn:Eget.
  apply sheets_get_references_same in Eget. subst w1.
  set (values := match rv with Returned a => a | Thrown => [] end).
  replace (match rv with
           | Returned a => (w, Returned a)
           | Thrown => ret [] w
           end) with (w, Returned values) by (destruct rv; reflexivity).
  cbv zeta.
  set (st := fold_left (process_message LocalTZA Date_parse env) (m :: messages)
               (mkLoop (existing_refs values) [] [] None)).
  pose proof (fold_process_message_latest env (m :: messages)
                (mkLoop (existing_refs values) [] [] None) [] eq_refl) as Hlatest.
  fold st in Hlatest. cbn [app] in Hlatest.
  fold (retrieved env user) in Hret. rewrite <- Hret in Hlatest.
  clearbody st. clear Elist values rv.
  destruct (match newTransactions st with
            | [] => ret tt
            | _ :: _ => sheets_append env sid (newTransactions st)
            end w) as [w2 o2] eqn:Eappend.
  assert (Hreg2 : registry w2 = registry w).
  { destruct (newTransactions st).
    - injection Eappend as <- _. reflexivity.
    - exact (sheets_append_registry _ _ _ _ _ _ Eappend). }
  destruct o2 as [[] |]; [| intros H; injection H as <- <-; left; auto].
  destruct (match latestTimestamp st with
            | Some latest =>
                try_catch
                  (fun w0 =>
                     let (w1, o) := match toISOString latest with
                                    | Some a => ret a
                                    | None => throw
                                    end w0 in
                     match o with
                     | Returned a => sheets_update_metadata env sid a w1
                     | Thrown => (w1, Thrown)
                     end)
                  (ret tt)
            | None => ret tt
            end w2) as [w3 o3] eqn:Emeta.
  assert (Hmeta : registry w3 = registry w2 /\ o3 = Returned tt).
  { destruct (latestTimestamp st) as [latest |].
    - unfold try_catch in Emeta.
      destruct (toISOString latest) as [iso |]; cbn [ret throw] in Emeta.
      + destruct (sheets_update_metadata env sid iso w2) as [w4 [[] |]] eqn:Eupd;
          apply sheets_update_metadata_registry in Eupd;
          injection Emeta as <- <-; auto.
      + injection Emeta as <- <-. auto.
    - injection Emeta as <- <-. auto. }
  destruct Hmeta as [Hreg3 ->].
  unfold latest_agrees in Hlatest. unfold toISOString.
  destruct (latestTimestamp st) as [[iso |] |]; cbn [ret throw update_user].
  - intros H. injection H as <- <-. right. right. right.
    eexists _, _. split; [reflexivity |]. split; [congruence |].
    cbn [registry]. unfold latest_received. rewrite Hlatest, Hreg3, Hreg2.
    reflexivity.
  - intros H. injection H as <- <-. left. split; [reflexivity | congruence].
  - intros H. injection H as <- <-. right. right. right.
    eexists _, _. split; [reflexivity |]. split; [congruence |].
    cbn [registry]. unfold latest_received. rewrite Hlatest, Hreg3, Hreg2.
    reflexivity.
Qed.


Lemma not_later_refl (a : option Z) : not_later a a.
Proof. destruct a; cbn; [lia | exact I]. Qed.

(** The watermark after one cycle. *)
Lemma cycle_watermark (env : Env) (user : User) (w w' : World)
    (r : outcome (option SyncResult)) :
  account_row (id user) w = Some user ->
  processUser LocalTZA Date_parse env user w = (w', r) ->
  exists after,
    watermark_of (id user) w' = Some after
    /\ (after = last_processed_email_timestamp user
        \/ exists m, latest_received Date_parse env user = Some m /\ after = Some m)
    /\ (truthy (google_sheet_id user) = true ->
        is_processing user = false ->
        (exists res, r = Returned (Some res)) ->
        retrieved env user <> [] ->
        after = match latest_received Date_parse env user with
                | Some m => Some m
                | None => last_processed_email_timestamp user
                end)
    /\ ((forall m, latest_received Date_parse env user = Some m ->
                   not_later (last_processed_email_timestamp user) (Some m)) ->
        not_later (last_processed_email_timestamp user) after).
Proof.
  intros Hrow Hrun.
  assert (Hunchanged : forall P : User -> User,
            (forall u, id (P u) = id u) ->
            (forall u, last_processed_email_timestamp (P u)
                       = last_processed_email_timestamp u) ->
            registry w' = map (patch_row (id user) P) (registry w) ->
            watermark_of (id user) w' = Some (last_processed_email_timestamp user)).
  { intros P Hid Hwm Hreg. unfold watermark_of, account_row. rewrite Hreg.
    rewrite (find_patch_row _ _ _ _ Hid Hrow). cbn. rewrite Hwm. reflexivity. }
  assert (Hsame : watermark_of (id user) w' = Some (last_processed_email_timestamp user) ->
            ((exists res, r = Returned (Some res)) ->
             truthy (google_sheet_id user) = true -> is_processing user = false ->
             retrieved env user <> [] -> False) ->
            exists after,
              watermark_of (id user) w' = Some after
              /\ (after = last_processed_email_timestamp user
                  \/ exists m, latest_received Date_parse env user = Some m
                               /\ after = Some m)
              /\ (truthy (google_sheet_id user) = true ->
                  is_processing user = false ->
                  (exists res, r = Returned (Some res)) ->
                  retrieved env user <> [] ->
                  after = match latest_received Date_parse env user with
                          | Some m => Some m
                          | None => last_processed_email_timestamp user
                          end)
              /\ ((forall m, latest_received Date_parse env user = Some m ->
                     not_later (last_processed_email_timestamp user) (Some m)) ->
                  not_later (last_processed_email_timestamp user) after)).
  { intros Hwm Habs. eexists. split; [exact Hwm |]. split; [left; reflexivity |].
    split; [| intros _; apply not_later_refl].
    intros H1 H2 H3 H4. destruct (Habs H3 H1 H2 H4). }
  unfold processUser in Hrun.
  destruct (google_sheet_id user) as [[| c sid] |] eqn:Esheet.
  - injection Hrun as <- <-. apply Hsame.
    + apply (Hunchanged (fun u => u)); auto. symmetry. apply map_patch_row_id.
    + intros _ H. discriminate.
  - destruct (is_processing user) eqn:Ebusy.
    + injection Hrun as <- <-. apply Hsame.
      * apply (Hunchanged (fun u => u)); auto. symmetry. apply map_patch_row_id.
      * intros _ _ H. discriminate.
    + unfold bind, try_catch in Hrun. cbn [update_user] in Hrun.
      destruct (sync_account LocalTZA Date_parse env user (String c sid) _)
        as [w2 r2] eqn:Esync.
      apply sync_account_effect in Esync. cbn [registry ledger] in Esync.
      destruct Esync as [(-> & Hreg) | [(-> & _ & Hreg) | [(-> & Hnone & ->)
                        | (res & log & -> & Hsome & Hreg)]]].
      * cbn [update_user ret] in Hrun. injection Hrun as <- <-. apply Hsame.
        -- apply (Hunchanged (set_is_processing false ∘ set_is_processing true));
             [intros []; reflexivity | intros []; reflexivity |].
           cbn [registry]. rewrite Hreg. apply map_patch_row_compose.
           intros []; reflexivity.
        -- intros (res & H). discriminate.
      * injection Hrun as <- <-. apply Hsame.
        -- apply (Hunchanged (set_is_active false ∘ set_is_processing false
                              ∘ set_is_processing true));
             [intros []; reflexivity | intros []; reflexivity |].
           rewrite Hreg. apply map_patch_row_compose. intros []; reflexivity.
        -- intros (res & H). discriminate.
      * injection Hrun as <- <-. apply Hsame.
        -- apply (Hunchanged (set_is_processing false ∘ set_last_sync_time (now env)
                              ∘ set_is_processing true));
             [intros []; reflexivity | intros []; reflexivity |].
           cbn [registry]. apply map_patch_row_compose. intros []; reflexivity.
        -- intros _ _ _ H. apply H. unfold retrieved. rewrite Hnone. reflexivity.
      * injection Hrun as <- <-.
        exists (match latest_received Date_parse env user with
                | Some m => Some m
                | None => last_processed_email_timestamp user
                end).
        split.
        { unfold watermark_of, account_row. rewrite Hreg.
          rewrite map_patch_row_compose by (intros []; reflexivity).
          match goal with
          | |- context [patch_row _ ?Q] =>
              assert (HQ : forall u, id (Q u) = id u) by (intros []; reflexivity);
              rewrite (find_patch_row _ Q _ _ HQ Hrow)
          end.
          reflexivity. }
        split.
        { destruct (latest_received Date_parse env user) as [m |];
            [right; exists m; auto | left; reflexivity]. }
        split; [reflexivity |].
        intros Hle. destruct (latest_received Date_parse env user) as [m |];
          [apply Hle; reflexivity | apply not_later_refl].
  - injection Hrun as <- <-. apply Hsame.
    + apply (Hunchanged (fun u => u)); auto. symmetry. apply map_patch_row_id.
    + intros _ H. discriminate.
Qed.


Lemma not_later_trans (a b c : option Z) :
  not_later a b -> not_later b c -> not_later a c.
Proof. destruct a, b, c; cbn; try lia; try tauto. Qed.

(** Over a sequence of cycles the watermark of an account does not move
    back, as long as every cycle retrieves messages whose latest received
    instant is not earlier than the watermark it starts with. *)
Lemma watermark_over_cycles (envs : list Env) (uid : string) (w : World)
    (user : User) :
  id user = uid ->
  account_row uid w = Some user ->
  arrivals_in_order LocalTZA Date_parse envs uid w ->
  exists user',
    account_row uid (sync_cycles LocalTZA Date_parse envs uid w) = Some user'
    /\ id user' = uid
    /\ not_later (last_processed_email_timestamp user)
         (last_processed_email_timestamp user').
Proof.
  revert w user. induction envs as [| env envs IH]; intros w user Hid Hrow Hok.
  - exists user. cbn [sync_cycles]. auto using not_later_refl.
  - cbn [sync_cycles arrivals_in_order] in *. rewrite Hrow in *.
    destruct Hok as [Hle Hok].
    destruct (is_active user).
    + destruct (processUser LocalTZA Date_parse env user w) as [w1 r] eqn:Erun.
      cbn [fst] in *. subst uid.
      destruct (cycle_watermark env user w w1 r Hrow Erun)
        as (after & Hwm & _ & _ & Hmono).
      unfold watermark_of in Hwm.
      destruct (account_row (id user) w1) as [user1 |] eqn:Erow1; [| discriminate].
      cbn in Hwm. injection Hwm as Hwm.
      assert (Hid1 : id user1 = id user).
      { unfold account_row in Erow1. apply find_some in Erow1.
        destruct Erow1 as [_ H]. apply String.eqb_eq in H. exact H. }
      destruct (IH w1 user1 Hid1 Erow1 Hok) as (user' & H1 & H2 & H3).
      exists user'. split; [exact H1 |]. split; [exact H2 |].
      apply (not_later_trans _ (last_processed_email_timestamp user1)); [| exact H3].
      rewrite Hwm. apply Hmono. exact Hle.
    + exact (IH w user Hid Hrow Hok).
Qed.

(** C3 (amended).  For an account whose registry row is the record the
    cycle was started with: after the cycle the watermark is either
    unchanged or the latest received instant of the retrieved messages;
    when the cycle runs to its final account update (it is not skipped,
    returns counts and has retrieved messages) the watermark is that
    latest instant when there is one, accepted or rejected alike, and is
    unchanged otherwise; and the watermark does not move back provided
    that latest instant is not earlier than the previous watermark (the
    program does not compare them). *)
Theorem watermark_after_cycle (env : Env) (user : User) (w w' : World)
    (r : outcome (option SyncResult)) :
  account_row (id user) w = Some user ->
  processUser LocalTZA Date_parse env user w = (w', r) ->
  exists after,
    watermark_of (id user) w' = Some after
    /\ (after = last_processed_email_timestamp user
        \/ exists m, latest_received Date_parse env user = Some m /\ after = Some m)
    /\ (truthy (google_sheet_id user) = true ->
        is_processing user = false ->
        (exists res, r = Returned (Some res)) ->
        retrieved env user <> [] ->
        after = match latest_received Date_parse env user with
                | Some m => Some m
                | None => last_processed_email_timestamp user
                end)
    /\ ((forall m, latest_received Date_parse env user = Some m ->
                   not_later (last_processed_email_timestamp user) (Some m)) ->
        not_later (last_processed_email_timestamp user) after).
Proof. exact (cycle_watermark env user w w' r). Qed.

Lemma Forall2_map_patch {R : User -> User -> Prop} (f : User -> User) (l : list User) :
  (forall u, R u (f u)) -> Forall2 R l (map f l).
Proof. intros H. induction l; cbn [map]; constructor; auto. Qed.

(** C10.  A cycle that retrieves no message writes, for the account, the
    busy flag (cleared) and the time of the sync and nothing else: the
    watermark, the rejected-message log and the active flag of every row
    are as before, the rows of other accounts are as before, and the
    ledger is untouched. *)
Theorem no_messages_frame (env : Env) (user : User) (w : World) (c : ascii)
    (sid refreshToken : string) :
  google_sheet_id user = Some (String c sid) ->
  is_processing user = false ->
  decrypt env (google_refresh_token user) = Some refreshToken ->
  truthy (refreshAccessToken env refreshToken) = true ->
  gmail_list env (query_of user) = Some [] ->
  let w' :=
    mkWorld
      (map (patch_row (id user) (set_is_processing false ∘ set_last_sync_time (now env)))
         (registry w))
      (ledger w) in
  processUser LocalTZA Date_parse env user w = (w', Returned (Some (mkResult 0 0)))
  /\ ledger w' = ledger w
  /\ map last_processed_email_timestamp (registry w')
     = map last_processed_email_timestamp (registry w)
  /\ map missed_emails (registry w') = map missed_emails (registry w)
  /\ map is_active (registry w') = map is_active (registry w)
  /\ Forall (fun u => id u = id user ->
                      is_processing u = false /\ last_sync_time u = Some (now env))
       (registry w')
  /\ Forall2 (fun u u' => id u <> id user -> u' = u) (registry w) (registry w').
Proof.
  intros Hsheet Hbusy Hdecrypt Htoken Hlist w'.
  split.
  - unfold processUser. rewrite Hsheet, Hbusy.
    unfold bind, try_catch, sync_account, bind, call. cbn [update_user].
    rewrite Hdecrypt. cbn [ret]. cbv zeta. rewrite Htoken, Hlist.
    cbn [negb ret update_user registry ledger].
    subst w'. f_equal. f_equal.
    rewrite map_patch_row_compose by (intros []; reflexivity).
    apply map_patch_row_ext. intros []; reflexivity.
  - subst w'. cbn [registry ledger].
    split; [reflexivity |].
    do 3 (split; [apply map_patch_row_field; intros []; reflexivity |]).
    split.
    + apply List.Forall_forall. intros u' Hin Hid.
      apply in_map_iff in Hin. destruct Hin as (u & <- & _).
      unfold patch_row in *. destruct (String.eqb (id u) (id user)) eqn:E.
      * destruct u. split; reflexivity.
      * apply String.eqb_neq in E. contradiction.
    + apply Forall2_map_patch. intros u Hne. apply patch_row_miss.
      apply String.eqb_neq. exact Hne.
Qed.

(** [processUser] never throws: its handler takes every fault of the
    [try] block. *)
Lemma processUser_returns (env : Env) (user : User) (w : World) :
  exists w' result, processUser LocalTZA Date_parse env user w = (w', Returned result).
Proof.
  unfold processUser.
  destruct (google_sheet_id user) as [[| c sid] |];
    [eexists _, _; reflexivity | | eexists _, _; reflexivity].
  destruct (is_processing user); [eexists _, _; reflexivity |].
  unfold bind at 1. cbn [update_user]. unfold try_catch.
  destruct (sync_account _ _ _ _ _ _) as [w2 [result |]];
    eexists _, _; reflexivity.
Qed.

(** The loop over the accounts always reaches its end. *)
Lemma cron_loop_returns (envs : string -> Env) (users : list User)
    (totalTransactions totalMissed : nat) (w : World) :
  exists w' totals,
    cron_loop LocalTZA Date_parse envs users totalTransactions totalMissed w
    = (w', Returned totals).
Proof.
  revert totalTransactions totalMissed w.
  induction users as [| user users IH]; intros tt tm w.
  - eexists _, _. reflexivity.
  - cbn [cron_loop]. unfold bind at 1.
    destruct (processUser_returns (envs (id user)) user w) as (w1 & result & ->).
    destruct result as [result |]; apply IH.
Qed.

(** A cycle that finds the registry and an active account ends with its
    totals; no account makes it fail. *)
Lemma runCron_completes (envs : string -> Env) (w : World) :
  List.filter (fun u => is_active u) (registry w) <> [] ->
  exists w' totalTransactions totalMissed,
    runCron LocalTZA Date_parse true envs w
    = (w', CronDone totalTransactions totalMissed).
Proof.
  intros Hne. unfold runCron.
  destruct (List.filter _ (registry w)) as [| u us] eqn:E; [contradiction |].
  destruct (cron_loop_returns envs (u :: us) 0 0 w) as (w' & [a b] & ->).
  eexists _, _, _. reflexivity.
Qed.

(** C8.  A fault of one account's sync that no narrower handler takes
    (the [try] block throws) is caught by [processUser]: the result is
    the failure value [null]; the busy flag of the account, which was set
    when the fault occurred, is cleared; its active flag and every other
    field of its rows are as before the sync, and so are the rows of all
    other accounts; and the cycle goes on with the remaining accounts,
    its totals unchanged, and reaches its end. *)
Theorem account_fault_isolated (envs : string -> Env) (user : User)
    (users' : list User) (w w_f : World) (c : ascii) (sid : string)
    (totalTransactions totalMissed : nat) :
  google_sheet_id user = Some (String c sid) ->
  is_processing user = false ->
  sync_account LocalTZA Date_parse (envs (id user)) user (String c sid)
    (mkWorld (map (patch_row (id user) (set_is_processing true)) (registry w))
       (ledger w))
  = (w_f, Thrown) ->
  exists w',
    processUser LocalTZA Date_parse (envs (id user)) user w = (w', Returned None)
    /\ Forall (fun u => id u = id user -> is_processing u = true) (registry w_f)
    /\ Forall2
         (fun u u' =>
            (id u = id user -> is_processing u' = false)
            /\ (id u <> id user -> u' = u)
            /\ is_active u' = is_active u
            /\ id u' = id u
            /\ google_email u' = google_email u
            /\ google_access_token u' = google_access_token u
            /\ google_refresh_token u' = google_refresh_token u
            /\ google_sheet_id u' = google_sheet_id u
            /\ last_processed_email_timestamp u' = last_processed_email_timestamp u
            /\ missed_emails u' = missed_emails u
            /\ last_sync_time u' = last_sync_time u)
         (registry w) (registry w')
    /\ ledger w' = ledger w_f
    /\ cron_loop LocalTZA Date_parse envs (user :: users') totalTransactions totalMissed w
       = cron_loop LocalTZA Date_parse envs users' totalTransactions totalMissed w'
    /\ exists w'' totals,
         cron_loop LocalTZA Date_parse envs (user :: users') totalTransactions
           totalMissed w = (w'', Returned totals).
Proof.
  intros Hsheet Hbusy Hsync.
  pose proof (sync_account_effect _ _ _ _ _ _ Hsync) as Heff.
  destruct Heff as [(_ & Hreg) | [(H & _) | [(H & _) | (res & log & H & _)]]];
    try discriminate.
  cbn [registry] in Hreg.
  exists (mkWorld (map (patch_row (id user) (set_is_processing false)) (registry w))
            (ledger w_f)).
  assert (Hrun : processUser LocalTZA Date_parse (envs (id user)) user w
                 = (mkWorld (map (patch_row (id user) (set_is_processing false))
                               (registry w)) (ledger w_f),
                    Returned None)).
  { unfold processUser. rewrite Hsheet, Hbusy.
    unfold bind at 1. cbn [update_user]. unfold try_catch. rewrite Hsync.
    unfold bind, ret. cbn [update_user].
    rewrite Hreg. cbn [registry].
    rewrite map_patch_row_compose by (intros []; reflexivity).
    reflexivity. }
  split; [exact Hrun |].
  split.
  { rewrite Hreg. apply List.Forall_forall. intros u' Hin Hid.
    apply in_map_iff in Hin. destruct Hin as (u & <- & _).
    unfold patch_row in *. destruct (String.eqb (id u) (id user)) eqn:E.
    - reflexivity.
    - apply String.eqb_neq in E. contradiction. }
  split.
  { cbn [registry]. apply Forall2_map_patch. intros u. unfold patch_row.
    destruct (String.eqb (id u) (id user)) eqn:E.
    - apply String.eqb_eq in E. destruct u. cbn in *. repeat split; auto.
      intros H. contradiction.
    - apply String.eqb_neq in E. repeat split; auto. intros H. contradiction. }
  split; [reflexivity |].
  split.
  - cbn [cron_loop]. unfold bind at 1. rewrite Hrun. reflexivity.
  - apply cron_loop_returns.
Qed.

(** The two failures of credential acquisition.  An exchange of the
    refresh credential that gives no access token (or an empty one)
    deactivates the account and clears the busy flag; a failed decryption
    only clears the busy flag.  Neither reads a message or touches the
    ledger. *)
Lemma exchange_failure_deactivates (env : Env) (user : User) (w : World)
    (c : ascii) (sid refreshToken : string) :
  google_sheet_id user = Some (String c sid) ->
  is_processing user = false ->
  decrypt env (google_refresh_token user) = Some refreshToken ->
  truthy (refreshAccessToken env refreshToken) = false ->
  processUser LocalTZA Date_parse env user w
  = (mkWorld
       (map (patch_row (id user) (set_is_active false ∘ set_is_processing false))
          (registry w))
       (ledger w),
     Returned None).
Proof.
  intros Hsheet Hbusy Hdecrypt Htoken.
  unfold processUser. rewrite Hsheet, Hbusy.
  unfold bind, try_catch, sync_account, bind, call. cbn [update_user].
  rewrite Hdecrypt. cbn [ret]. cbv zeta. rewrite Htoken.
  cbn [negb ret update_user registry ledger].
  rewrite map_patch_row_compose by (intros []; reflexivity). reflexivity.
Qed.

Lemma decrypt_failure_effect (env : Env) (user : User) (w : World)
    (c : ascii) (sid : string) :
  google_sheet_id user = Some (String c sid) ->
  is_processing user = false ->
  decrypt env (google_refresh_token user) = None ->
  processUser LocalTZA Date_parse env user w
  = (mkWorld (map (patch_row (id user) (set_is_processing false)) (registry w))
       (ledger w),
     Returned None).
Proof.
  intros Hsheet Hbusy Hdecrypt.
  unfold processUser. rewrite Hsheet, Hbusy.
  unfold bind, try_catch, sync_account, bind, call. cbn [update_user].
  rewrite Hdecrypt. cbn [throw ret update_user registry ledger].
  rewrite map_patch_row_compose by (intros []; reflexivity). reflexivity.
Qed.

(** C7 (the program departs from the claim).  When the stored refresh
    credential cannot be decrypted, the fault goes to the handler of the
    account: the result is [null] and the busy flag is cleared, but the
    account is not deactivated; the registry is what it was. *)
Theorem decrypt_failure_leaves_account_active :
  decrypt env_decrypt_fails (google_refresh_token example_user) = None
  /\ processUser LocalTZA Date_parse env_decrypt_fails example_user example_world
     = (example_world, Returned None)
  /\ is_active <$> account_row "u1" example_world = Some true
  /\ is_processing <$> account_row "u1" example_world = Some false.
Proof.
  repeat split; reflexivity.
Qed.

End Account.

Lemma watermark_after_cycle_witness :
  account_row "u1" example_world = Some example_user
  /\ exists after,
       watermark_of "u1"
         (fst (processUser 19800000 example_Date_parse env_old_message example_user
                 example_world)) = Some after
       /\ (after = Some 1768224074000
           \/ exists m, latest_received example_Date_parse env_old_message example_user
                        = Some m /\ after = Some m).
Proof.
  split; [reflexivity |].
  destruct (watermark_after_cycle 19800000 example_Date_parse env_old_message
              example_user example_world _ _ eq_refl (surjective_pairing _))
    as (after & H1 & H2 & _).
  exists after. split; [exact H1 | exact H2].
Defined.

(** C3 (the claim as stated fails).  The new watermark is the latest
    received instant of the batch whatever the old one was: an account
    with watermark 13:21:14 that retrieves one message, sent at 13:21:04
    and delivered after the watermark, is left with watermark 13:21:04. *)
Lemma watermark_moves_back :
  last_processed_email_timestamp example_user = Some 1768224074000
  /\ watermark_of "u1"
       (fst (processUser 19800000 example_Date_parse env_old_message example_user
               example_world)) = Some (Some 1768224064000)
  /\ ~ not_later (Some 1768224074000) (Some 1768224064000).
Proof.
  split; [reflexivity |]. split; [vm_compute; reflexivity |].
  cbn. lia.
Qed.

Lemma no_messages_frame_witness :
  let w' :=
    mkWorld
      (map (patch_row "u1" (set_is_processing false ∘ set_last_sync_time 5000))
         (registry Accounts.example_registry))
      (ledger Accounts.example_registry) in
  processUser 19800000 (fun _ => None) env_no_messages example_user
    Accounts.example_registry
  = (w', Returned (Some (mkResult 0 0)))
  /\ ledger w' = ledger Accounts.example_registry
  /\ map last_processed_email_timestamp (registry w')
     = [Some 1768224074000; None; None; Some 1768000000000]
  /\ map missed_emails (registry w') = [[]; []; []; []]
  /\ map is_active (registry w') = [true; true; true; false]
  /\ map last_sync_time (registry w') = [Some 5000; None; None; None].
Proof.
  intros w'.
  destruct (no_messages_frame 19800000 (fun _ => None) env_no_messages example_user
              Accounts.example_registry "s" "heet1" "stored-token"
              eq_refl eq_refl eq_refl eq_refl eq_refl)
    as (H1 & H2 & H3 & H4 & H5 & _).
  split; [exact H1 |]. split; [exact H2 |]. split; [exact H3 |].
  split; [exact H4 |]. split; [exact H5 | reflexivity].
Defined.

Lemma account_fault_isolated_witness :
  exists w_f w' w'' sh2,
    is_processing <$> account_row "u1" w_f = Some true
    /\ processUser 19800000 example_Date_parse env_mail_unreachable example_user
         Accounts.example_registry = (w', Returned None)
    /\ is_processing <$> account_row "u1" w' = Some false
    /\ is_active <$> account_row "u1" w' = Some true
    /\ cron_loop 19800000 example_Date_parse Accounts.envs_first_unreachable
         [example_user; Accounts.second_user; Accounts.busy_user] 0 0 Accounts.example_registry
       = (w'', Returned (1%nat, 0%nat))
    /\ ledger w'' !! "sheet2" = Some sh2
    /\ map referenceNumber (rows sh2) = ["ABC123"].
Proof.
  set (w_f := mkWorld (map (patch_row "u1" (set_is_processing true))
                         (registry Accounts.example_registry))
                (ledger Accounts.example_registry)).
  destruct (account_fault_isolated 19800000 example_Date_parse Accounts.envs_first_unreachable
              example_user [Accounts.second_user; Accounts.busy_user] Accounts.example_registry w_f "s" "heet1"
              0 0 eq_refl eq_refl eq_refl)
    as (w' & Hrun & Hset & Hrows & _ & Hloop & _).
  pose proof (f_equal fst Hrun) as Hw'. cbn [fst] in Hw'.
  exists w_f, w',
    (fst (cron_loop 19800000 example_Date_parse Accounts.envs_first_unreachable
            [Accounts.second_user; Accounts.busy_user] 0 0 w')).
  eexists.
  split; [reflexivity |]. split; [exact Hrun |].
  rewrite Hloop. rewrite <- Hw'.
  split; [vm_compute; reflexivity |]. split; [vm_compute; reflexivity |].
  split; [apply injective_projections; [reflexivity | vm_compute; reflexivity] |].
  split; vm_compute; reflexivity.
Defined.

(* ================================================================== *)
(** * Part II, continued: further properties of the code *)
(* ================================================================== *)

Import Language Gate Layout Calendar Accounts.

(** ** Texts *)

Lemma append_assoc (a b c : string) : (a +:+ b) +:+ c = a +:+ (b +:+ c).
Proof.
  induction a as [| x a IH]; [reflexivity |].
  change (String x ((a +:+ b) +:+ c) = String x (a +:+ (b +:+ c))). rewrite IH. reflexivity.
Qed.

Lemma strlen_append (a b : string) : strlen (a +:+ b) = (strlen a + strlen b)%nat.
Proof.
  induction a as [| x a IH]; [reflexivity |].
  change (S (strlen (a +:+ b)) = S (strlen a + strlen b)). rewrite IH. reflexivity.
Qed.

Lemma take_append (a b : string) : take (strlen a) (a +:+ b) = a.
Proof.
  induction a as [| x a IH]; [destruct b; reflexivity |].
  change (String x (take (strlen a) (a +:+ b)) = String x a). rewrite IH. reflexivity.
Qed.

Lemma consumed_append (x s' : string) : consumed (x +:+ s') s' = x.
Proof.
  unfold consumed. rewrite strlen_append.
  replace (strlen x + strlen s' - strlen s')%nat with (strlen x) by lia.
  apply take_append.
Qed.

Lemma append_nil_r (a : string) : a +:+ "" = a.
Proof.
  induction a as [| x a IH]; [reflexivity |].
  change (String x (a +:+ "") = String x a). rewrite IH. reflexivity.
Qed.

Lemma rev_onto_append (s acc : string) : rev_onto s acc = rev s +:+ acc.
Proof.
  unfold rev. revert acc. induction s as [| c s IH]; intros acc; [reflexivity |].
  cbn [rev_onto]. rewrite (IH (String c acc)), (IH (String c EmptyString)).
  rewrite append_assoc. reflexivity.
Qed.

Lemma rev_cons (c : ascii) (s : string) : rev (String c s) = rev s +:+ String c "".
Proof. unfold rev at 1. cbn [rev_onto]. apply rev_onto_append. Qed.

Lemma rev_snoc (s : string) (c : ascii) : rev (s +:+ String c "") = String c (rev s).
Proof.
  induction s as [| x s IH]; [reflexivity |].
  change (String x s +:+ String c "") with (String x (s +:+ String c "")).
  rewrite !rev_cons, IH. reflexivity.
Qed.

Lemma rev_involutive (s : string) : rev (rev s) = s.
Proof.
  induction s as [| c s IH]; [reflexivity |]. rewrite rev_cons, rev_snoc, IH. reflexivity.
Qed.

Lemma rev_rev_onto (x cur : string) : rev (rev_onto x cur) = rev cur +:+ x.
Proof.
  revert cur. induction x as [| c x IH]; intros cur.
  - cbn [rev_onto]. symmetry. apply append_nil_r.
  - cbn [rev_onto]. rewrite IH, rev_cons, append_assoc. reflexivity.
Qed.

Lemma starts_with_spec (p s : string) :
  starts_with p s = true <-> exists rest, s = p +:+ rest.
Proof.
  revert s. induction p as [| a p IH]; intros s.
  - cbn. split; [intros _; exists s; reflexivity | auto].
  - destruct s as [| b s].
    + cbn. split; [discriminate | intros (rest & H); discriminate].
    + cbn [starts_with]. rewrite andb_true_iff, IH. split.
      * intros (Hab & rest & ->). apply Ascii.eqb_eq in Hab. subst. exists rest. reflexivity.
      * intros (rest & H).
        change (String a p +:+ rest) with (String a (p +:+ rest)) in H.
        injection H as <- ->.
        split; [apply Ascii.eqb_refl | exists rest; reflexivity].
Qed.

Lemma lower_upper (a : ascii) : lower_char (upper_char a) = lower_char a.
Proof. destruct a as [[] [] [] [] [] [] [] []]; reflexivity. Qed.

Lemma toLowerCase_append (a b : string) :
  toLowerCase (a +:+ b) = toLowerCase a +:+ toLowerCase b.
Proof.
  induction a as [| x a IH]; [reflexivity |].
  change (String (lower_char x) (toLowerCase (a +:+ b))
          = String (lower_char x) (toLowerCase a +:+ toLowerCase b)).
  rewrite IH. reflexivity.
Qed.

Lemma char_matches_lower (p a : ascii) :
  char_matches true p a = true -> lower_char a = lower_char p.
Proof.
  unfold char_matches, canonicalize. intros H. apply Ascii.eqb_eq in H.
  rewrite <- (lower_upper a), <- (lower_upper p), H. reflexivity.
Qed.

(** Under the [i] flag a literal matches the texts that are equal to it
    up to letter case. *)
Lemma denotes_lit (w x : string) :
  denotes true (lit w) x -> toLowerCase x = toLowerCase w.
Proof.
  revert x. induction w as [| c w IH]; intros x.
  - cbn. intros ->. reflexivity.
  - destruct w as [| d w].
    + cbn [lit denotes]. intros (a & -> & H). cbn [toLowerCase map_chars].
      rewrite (char_matches_lower _ _ H). reflexivity.
    + change (lit (String c (String d w))) with (RSeq (RChar c) (lit (String d w))).
      cbn [denotes]. intros (x1 & x2 & -> & (a & -> & H) & H2).
      apply IH in H2. rewrite toLowerCase_append, H2.
      cbn [toLowerCase map_chars]. rewrite (char_matches_lower _ _ H). reflexivity.
Qed.

Lemma strlen_take (n : nat) (s : string) : (strlen (take n s) <= n)%nat.
Proof.
  revert s. induction n as [| n IH]; intros [| c s]; cbn; try lia.
  specialize (IH s). unfold strlen in IH. lia.
Qed.

(** ** The language of a pattern *)

Section Sound.
Variable ic : bool.

Lemma repeat_matcher_sound (m : string -> captures -> list state) (P : string -> Prop)
    (inner : list nat) (greedy : bool) :
  (forall s c s' c', In (s', c') (m s c) -> exists x, s = x +:+ s' /\ P x) ->
  forall fuel min max s c s' c',
    (min <= fuel)%nat ->
    In (s', c') (repeat_matcher m inner greedy fuel min max s c) ->
    exists xs, s = concat_strings xs +:+ s' /\ Forall P xs
               /\ count_ok min max (length xs).
Proof.
  intros Hm. induction fuel as [| fuel IH]; intros min max s c s' c' Hfuel Hin.
  - assert (Hin' : In (s', c') [(s, c)]).
    { cbn [repeat_matcher] in Hin. destruct max as [[| m'] |]; exact Hin. }
    destruct Hin' as [H | []]. injection H as <- <-.
    exists []. split; [reflexivity |]. split; [constructor |].
    unfold count_ok. destruct max; cbn; lia.
  - assert (Hstop : (min = 0)%nat \/ max = Some 0%nat ->
                    exists xs, s = concat_strings xs +:+ s /\ Forall P xs
                               /\ count_ok min max (length xs)).
    { intros H. exists []. split; [reflexivity |]. split; [constructor |].
      unfold count_ok. destruct H as [-> | ->]; [destruct max |]; cbn; lia. }
    destruct max as [[| m'] |].
    + destruct Hin as [H | []]. injection H as <- <-. apply Hstop. auto.
    + cbn [repeat_matcher] in Hin.
      set (again := flat_map _ _) in Hin.
      assert (Hagain : In (s', c') again ->
                exists xs, s = concat_strings xs +:+ s' /\ Forall P xs
                           /\ count_ok min (Some (S m')) (length xs)).
      { subst again. rewrite in_flat_map. intros ([s1 c1] & H1 & H2).
        destruct (Nat.eqb min 0 && Nat.leb (strlen s) (strlen s1)); [destruct H2 |].
        apply Hm in H1. destruct H1 as (x1 & -> & Hx1).
        apply IH in H2; [| lia]. destruct H2 as (xs & -> & Hxs & Hcount).
        exists (x1 :: xs). split; [cbn [concat_strings]; apply eq_sym, append_assoc |].
        split; [constructor; assumption |].
        unfold count_ok in *. cbn [option_map length] in *. lia. }
      destruct (Nat.eqb_spec min 0) as [Hz | Hnz]; cbn [negb] in Hin.
      * destruct greedy.
        -- apply in_app_or in Hin. destruct Hin as [H | [H | []]]; [auto |].
           injection H as <- <-. apply Hstop. auto.
        -- destruct Hin as [H | H]; [| auto].
           injection H as <- <-. apply Hstop. auto.
      * auto.
    + cbn [repeat_matcher] in Hin.
      set (again := flat_map _ _) in Hin.
      assert (Hagain : In (s', c') again ->
                exists xs, s = concat_strings xs +:+ s' /\ Forall P xs
                           /\ count_ok min None (length xs)).
      { subst again. rewrite in_flat_map. intros ([s1 c1] & H1 & H2).
        destruct (Nat.eqb min 0 && Nat.leb (strlen s) (strlen s1)); [destruct H2 |].
        apply Hm in H1. destruct H1 as (x1 & -> & Hx1).
        apply IH in H2; [| lia]. destruct H2 as (xs & -> & Hxs & Hcount).
        exists (x1 :: xs). split; [cbn [concat_strings]; apply eq_sym, append_assoc |].
        split; [constructor; assumption |].
        unfold count_ok in *. cbn [option_map length] in *. lia. }
      destruct (Nat.eqb_spec min 0) as [Hz | Hnz]; cbn [negb] in Hin.
      * destruct greedy.
        -- apply in_app_or in Hin. destruct Hin as [H | [H | []]]; [auto |].
           injection H as <- <-. apply Hstop. auto.
        -- destruct Hin as [H | H]; [| auto].
           injection H as <- <-. apply Hstop. auto.
      * auto.
Qed.

(** Every match of the engine is a text of the language of the
    pattern, taken from the start of the input. *)
Lemma run_sound (r : regex) :
  forall s c s' c', In (s', c') (run ic r s c) ->
  exists x, s = x +:+ s' /\ denotes ic r x.
Proof.
  induction r as [| p | negated items | r1 IH1 r2 IH2 | r1 IH1 r2 IH2
                 | r IH min max greedy | i r IH |]; intros s c s' c' Hin;
    cbn [run] in Hin.
  - destruct Hin as [H | []]. injection H as <- <-.
    exists EmptyString. split; reflexivity.
  - destruct s as [| a s]; [destruct Hin |].
    destruct (char_matches ic p a) eqn:E; [| destruct Hin].
    destruct Hin as [H | []]. injection H as <- <-.
    exists (String a EmptyString). split; [reflexivity |]. cbn. eauto.
  - destruct s as [| a s]; [destruct Hin |].
    destruct (class_matches ic negated items a) eqn:E; [| destruct Hin].
    destruct Hin as [H | []]. injection H as <- <-.
    exists (String a EmptyString). split; [reflexivity |]. cbn. eauto.
  - apply in_flat_map in Hin. destruct Hin as ([s1 c1] & H1 & H2).
    apply IH1 in H1. apply IH2 in H2.
    destruct H1 as (x1 & -> & Hx1). destruct H2 as (x2 & -> & Hx2).
    exists (x1 +:+ x2). split; [apply eq_sym, append_assoc |]. cbn. eauto.
  - apply in_app_or in Hin. destruct Hin as [H | H].
    + apply IH1 in H. destruct H as (x & -> & Hx). exists x. cbn. auto.
    + apply IH2 in H. destruct H as (x & -> & Hx). exists x. cbn. auto.
  - apply (repeat_matcher_sound _ (denotes ic r)) in Hin; [| exact IH | lia].
    destruct Hin as (xs & -> & Hxs & Hcount).
    exists (concat_strings xs). split; [reflexivity |]. cbn. eauto.
  - apply in_map_iff in Hin. destruct Hin as ([s1 c1] & H & Hin).
    injection H as <- <-. apply IH in Hin. exact Hin.
  - destruct s; [| destruct Hin]. destruct Hin as [H | []]. injection H as <- <-.
    exists EmptyString. split; reflexivity.
Qed.

(** A group that ends the pattern holds a text of the language of its
    content. *)
Lemma run_tail_group (i : nat) (r g : regex) :
  tail_group i r = Some g ->
  forall s c s' c', In (s', c') (run ic r s c) ->
  exists x, get_capture i c' = Some x /\ denotes ic g x.
Proof.
  induction r as [| p | negated items | r1 IH1 r2 IH2 | r1 IH1 r2 IH2
                 | r IH min max greedy | j r IH |]; cbn [tail_group];
    try discriminate; intros Hg s c s' c' Hin; cbn [run] in Hin.
  - apply in_flat_map in Hin. destruct Hin as ([s1 c1] & _ & H2).
    exact (IH2 Hg _ _ _ _ H2).
  - destruct (Nat.eqb_spec i j) as [-> | Hne]; [| discriminate].
    injection Hg as ->.
    apply in_map_iff in Hin. destruct Hin as ([s1 c1] & H & Hin).
    injection H as <- <-. apply run_sound in Hin. destruct Hin as (x & -> & Hx).
    exists x. split; [| exact Hx].
    cbn [get_capture set_capture]. rewrite Nat.eqb_refl, consumed_append. reflexivity.
Qed.

Lemma search_tail_group (i : nat) (r g : regex) (s : string) (m : MatchResult) :
  tail_group i r = Some g ->
  search ic r s = Some m ->
  denotes ic g (group i m).
Proof.
  intros Hg. induction s as [| a s IH]; cbn [search].
  - destruct (run ic r EmptyString []) as [| [s' c] rest] eqn:E; [discriminate |].
    intros H. injection H as <-.
    destruct (run_tail_group i r g Hg EmptyString [] s' c) as (x & Hx & Hd);
      [rewrite E; left; reflexivity |].
    unfold group. cbn [groups]. rewrite Hx. exact Hd.
  - destruct (run ic r (String a s) []) as [| [s' c] rest] eqn:E; [exact IH |].
    intros H. injection H as <-.
    destruct (run_tail_group i r g Hg (String a s) [] s' c) as (x & Hx & Hd);
      [rewrite E; left; reflexivity |].
    unfold group. cbn [groups]. rewrite Hx. exact Hd.
Qed.

End Sound.

Lemma match_tail_group (i : nat) (re : RegExp) (g : regex) (s : string) (m : MatchResult) :
  tail_group i (pattern re) = Some g ->
  match_ s re = Some m ->
  denotes (ignoreCase re) g (group i m).
Proof. apply search_tail_group. Qed.

(** ** What the parser accepts and what it rejects *)

Lemma parse_cases (tz : Zone) (dp : string -> Date) (body subject : string)
    (received : Date) (message_id : string) :
  let nb := normalized body in
  (falsy (amount_of nb) || is_empty (account_of nb) = true
   /\ parseHDFCEmail tz dp body subject received message_id
      = Failure "Missing required fields (amount, type, or account)"
          (mkEmailData message_id subject (take 200 body) received
             "alerts@hdfcbank.net"))
  \/ (falsy (amount_of nb) = false /\ is_empty (account_of nb) = false
      /\ exists t,
           parseHDFCEmail tz dp body subject received message_id = Success t
           /\ amount t = amount_of nb /\ account t = account_of nb
           /\ method t = method_of nb
           /\ category t = "" /\ notes t = ""
           /\ emailReceivedDate t = formatToIndianDateTime tz received).
Proof.
  cbv zeta. unfold parseHDFCEmail. cbv zeta.
  fold (normalized body). fold (amount_of (normalized body)).
  fold (account_of (normalized body)). fold (method_of (normalized body)).
  assert (Htype : forall ty, type_falsy ty = false) by (intros []; reflexivity).
  rewrite Htype, orb_false_r.
  destruct (falsy (amount_of (normalized body)) || is_empty (account_of (normalized body)))
    eqn:G.
  - left. auto.
  - right. apply orb_false_iff in G. destruct G as [G1 G2].
    split; [exact G1 |]. split; [exact G2 |].
    eexists. split; [reflexivity |]. cbn. repeat split.
Qed.

Lemma not_falsy_positive (n : number) :
  falsy n = false -> exists m e, n = Dec m e /\ 0 < m.
Proof.
  destruct n as [| m e]; [discriminate |]. cbn [falsy is_zero].
  intros H. exists m, e. split; [reflexivity |].
  apply Z.leb_gt in H.
  assert (0 < 10 ^ Z.of_nat e) by (apply Z.pow_pos_nonneg; lia).
  assert (0 < 2 ^ 1075) by (apply Z.pow_pos_nonneg; lia).
  nia.
Qed.

Lemma denotes_four_digits (ic : bool) (x : string) :
  denotes ic (times 4 4 digit) x -> four_digits x = true.
Proof.
  cbn [denotes times digit]. intros (xs & -> & Hxs & Hcount).
  unfold count_ok in Hcount. cbn in Hcount.
  destruct xs as [| x1 [| x2 [| x3 [| x4 [| x5 xs]]]]]; cbn [length] in Hcount; try lia.
  repeat match goal with
         | H : Forall _ (_ :: _) |- _ => inversion H; subst; clear H
         end.
  repeat match goal with
         | H : exists a, _ /\ _ |- _ =>
             let a := fresh "a" in
             let E := fresh "E" in
             destruct H as (a & -> & E);
             unfold class_matches in E; cbn [existsb item_matches xorb orb] in E;
             rewrite orb_false_r in E
         end.
  match goal with
  | |- four_digits (concat_strings [String ?a ""; String ?b ""; String ?c ""; String ?d ""])
       = true =>
      change (four_digits (String a (String b (String c (String d EmptyString)))) = true)
  end.
  cbn [four_digits].
  repeat match goal with
         | H : is_digit _ = true |- _ => rewrite H; clear H
         end.
  reflexivity.
Qed.

(** X1.  An accepted transaction has a positive amount (never zero, never
    NaN) and an account of exactly four decimal digits; its category and
    notes are empty and its received date is the formatted received
    date of the message. *)
Theorem accepted_amount_and_account (tz : Zone) (dp : string -> Date)
    (body subject : string) (received : Date) (message_id : string)
    (t : ParsedTransaction) :
  parseHDFCEmail tz dp body subject received message_id = Success t ->
  (exists m e, amount t = Dec m e /\ 0 < m)
  /\ four_digits (account t) = true
  /\ category t = "" /\ notes t = ""
  /\ emailReceivedDate t = formatToIndianDateTime tz received.
Proof.
  intros H.
  destruct (parse_cases tz dp body subject received message_id)
    as [(_ & H') | (G1 & G2 & t' & H' & Ha & Hc & _ & Hcat & Hnotes & Hrec)];
    [congruence |].
  rewrite H in H'. injection H' as <-.
  split; [rewrite Ha; apply not_falsy_positive, G1 |].
  split; [| auto].
  rewrite Hc. unfold account_of in *.
  destruct (match_ (normalized body) PATTERNS.account) as [m |] eqn:E; [| discriminate].
  apply (denotes_four_digits true).
  exact (match_tail_group 1 PATTERNS.account _ _ _ eq_refl E).
Qed.

Lemma accepted_amount_and_account_witness :
  exists t,
    parseHDFCEmail 19800000 (fun _ => None) no_reference_body "Alert"
      (Some 1768224074692) "m1" = Success t
    /\ (exists m e, amount t = Dec m e /\ 0 < m)
    /\ four_digits (account t) = true
    /\ category t = "" /\ notes t = ""
    /\ emailReceivedDate t = formatToIndianDateTime 19800000 (Some 1768224074692).
Proof.
  eexists. split; [vm_compute; reflexivity |].
  apply (accepted_amount_and_account 19800000 (fun _ => None) no_reference_body "Alert"
           (Some 1768224074692) "m1").
  vm_compute. reflexivity.
Defined.

(** X2.  The method of an accepted transaction is, up to letter case, a
    member of the closed vocabulary; and every method that holds
    "cash deposit" in any letter case is exactly "Cash Deposit". *)
Theorem method_in_vocabulary_up_to_case (tz : Zone) (dp : string -> Date)
    (body subject : string) (received : Date) (message_id : string)
    (t : ParsedTransaction) :
  parseHDFCEmail tz dp body subject received message_id = Success t ->
  In (toLowerCase (method t)) (map toLowerCase METHODS)
  /\ (includes "cash deposit" (toLowerCase (method t)) = true ->
      method t = "Cash Deposit").
Proof.
  intros H.
  destruct (parse_cases tz dp body subject received message_id)
    as [(_ & H') | (_ & _ & t' & H' & _ & _ & Hm & _)]; [congruence |].
  rewrite H in H'. injection H' as <-. rewrite Hm. clear.
  unfold method_of.
  destruct (match_ (normalized body) PATTERNS.method) as [m |] eqn:E.
  2: { destruct (includes "upi" _); split; try (vm_compute; tauto); discriminate. }
  pose proof (match_tail_group 1 PATTERNS.method _ _ _ eq_refl E) as Hd.
  cbv zeta.
  destruct (includes "cash deposit" (toLowerCase (group 1 m))) eqn:Ecash.
  { split; [vm_compute; tauto | reflexivity]. }
  split; [| congruence].
  cbn [ignoreCase PATTERNS.method alt_of seq_of denotes] in Hd.
  assert (Hlit : forall w, denotes true (lit w) (group 1 m) ->
                           In (toLowerCase w) (map toLowerCase METHODS) ->
                           In (toLowerCase (group 1 m)) (map toLowerCase METHODS)).
  { intros w Hw Hin. rewrite (denotes_lit _ _ Hw). exact Hin. }
  destruct Hd as [Hd | [Hd | [Hd | [Hd | [Hd | [Hd | [Hd | Hd]]]]]]];
    try (apply (Hlit _ Hd); vm_compute; tauto).
  destruct Hd as (x1 & x2 & Hx & H1 & _). exfalso.
  apply denotes_lit in H1.
  assert (includes "cash deposit" (toLowerCase (group 1 m)) = true); [| congruence].
  rewrite Hx, toLowerCase_append, H1.
  destruct (toLowerCase x2); reflexivity.
Qed.

Lemma method_in_vocabulary_up_to_case_witness :
  exists t,
    parseHDFCEmail 19800000 (fun _ => None) lower_case_upi_body "Alert"
      (Some 1768224074692) "m1" = Success t
    /\ In (toLowerCase (method t)) (map toLowerCase METHODS)
    /\ (includes "cash deposit" (toLowerCase (method t)) = true ->
        method t = "Cash Deposit").
Proof.
  eexists. split; [vm_compute; reflexivity |].
  apply (method_in_vocabulary_up_to_case 19800000 (fun _ => None) lower_case_upi_body
           "Alert" (Some 1768224074692) "m1").
  vm_compute. reflexivity.
Defined.

(** X3.  A message is rejected exactly when its normalised body gives no
    positive amount or no account; the direction is not consulted.  The
    rejection carries the fixed reason and the data of the message, with
    the first characters of the raw body, at most 200, as its snippet. *)
Theorem rejection_criterion (tz : Zone) (dp : string -> Date)
    (body subject : string) (received : Date) (message_id : string) :
  let nb := normalized body in
  let result := parseHDFCEmail tz dp body subject received message_id in
  ((exists error data, result = Failure error data)
   <-> falsy (amount_of nb) = true \/ match_ nb PATTERNS.account = None)
  /\ (forall error data,
        result = Failure error data ->
        error = "Missing required fields (amount, type, or account)"
        /\ data = mkEmailData message_id subject (take 200 body) received
                    "alerts@hdfcbank.net"
        /\ (strlen (body_snippet data) <= 200)%nat).
Proof.
  cbv zeta.
  assert (Hacc : is_empty (account_of (normalized body)) = true
                 <-> match_ (normalized body) PATTERNS.account = None).
  { unfold account_of.
    destruct (match_ (normalized body) PATTERNS.account) as [m |] eqn:E;
      [| split; reflexivity].
    pose proof (match_tail_group 1 PATTERNS.account _ _ _ eq_refl E) as Hd.
    apply denotes_four_digits in Hd.
    destruct (group 1 m); [discriminate Hd | split; discriminate]. }
  destruct (parse_cases tz dp body subject received message_id)
    as [(G & H) | (G1 & G2 & t & H & _)]; rewrite H.
  - split.
    + split; [intros _ | eauto].
      apply orb_true_iff in G. destruct G as [G | G]; [auto | right; apply Hacc, G].
    + intros error data E.
      assert (error = "Missing required fields (amount, type, or account)"
              /\ data = mkEmailData message_id subject (take 200 body) received
                          "alerts@hdfcbank.net") as [-> ->]
        by (split; congruence).
      split; [reflexivity |]. split; [reflexivity |].
      exact (strlen_take 200 body).
  - split; [| intros error data E; discriminate].
    split; [intros (error & data & E); discriminate |].
    intros [G | G]; [congruence |]. apply Hacc in G. congruence.
Qed.

Lemma denotes_plus_word (ic : bool) (x : string) :
  denotes ic (plus word) x -> x <> "" /\ all_chars is_word x = true.
Proof.
  cbn [denotes plus word]. intros (xs & -> & Hxs & Hcount).
  unfold count_ok in Hcount.
  assert (Hall : all_chars is_word (concat_strings xs) = true
                 /\ (xs <> [] -> concat_strings xs <> "")).
  { clear Hcount. induction Hxs as [| x xs (a & -> & Ha) Hxs IH];
      [split; [reflexivity | intros H; destruct (H eq_refl)] |].
    unfold class_matches in Ha. cbn [existsb item_matches xorb] in Ha.
    rewrite orb_false_r in Ha.
    change (concat_strings (String a "" :: xs)) with (String a (concat_strings xs)).
    cbn [all_chars]. rewrite Ha. split; [apply IH | discriminate]. }
  destruct Hall as [H1 H2]. split; [| exact H1].
  apply H2. destruct xs; [cbn in Hcount; lia | discriminate].
Qed.

(** X4.  The reference number of an accepted transaction is "EMAIL_"
    followed by the message identifier when the reference pattern
    matches nowhere in the normalised body, and otherwise the text that
    the pattern captures, a non-empty run of word characters (letters,
    digits, underscore).  What the pattern captures need not be a
    reference: the pattern also matches inside a word, as the witness
    shows on the "und" of "refund". *)
Theorem reference_is_fallback_or_word (tz : Zone) (dp : string -> Date)
    (body subject : string) (received : Date) (message_id : string)
    (t : ParsedTransaction) :
  parseHDFCEmail tz dp body subject received message_id = Success t ->
  match match_ (normalized body) PATTERNS.referenceNumber with
  | None => referenceNumber t = "EMAIL_" +:+ message_id
  | Some refMatch =>
      referenceNumber t = group 1 refMatch
      /\ referenceNumber t <> ""
      /\ all_chars is_word (referenceNumber t) = true
  end.
Proof.
  intros H. rewrite (reference_of_accepted _ _ _ _ _ _ _ H).
  destruct (match_ (normalized body) PATTERNS.referenceNumber) as [m |] eqn:Hm;
    [| reflexivity].
  pose proof (match_tail_group 1 PATTERNS.referenceNumber _ _ _ eq_refl Hm) as Hd.
  apply denotes_plus_word in Hd. destruct Hd as [Hne Hw].
  destruct (group 1 m) eqn:E; [congruence |]. cbn [is_empty]. auto.
Qed.

Lemma reference_is_fallback_or_word_witness :
  exists t refMatch,
    parseHDFCEmail 19800000 (fun _ => None) refund_body "Alert"
      (Some 1768224074692) "m1" = Success t
    /\ match_ (normalized refund_body) PATTERNS.referenceNumber = Some refMatch
    /\ referenceNumber t = group 1 refMatch
    /\ referenceNumber t = "und".
Proof.
  eexists _, _. split; [vm_compute; reflexivity |].
  split; [vm_compute; reflexivity |].
  assert (H : parseHDFCEmail 19800000 (fun _ => None) refund_body "Alert"
                (Some 1768224074692) "m1" = Success _) by (vm_compute; reflexivity).
  pose proof (reference_is_fallback_or_word _ _ _ _ _ _ _ H) as Href.
  assert (Hm : match_ (normalized refund_body) PATTERNS.referenceNumber = Some _)
    by (vm_compute; reflexivity).
  rewrite Hm in Href. split; [apply Href | reflexivity].
Defined.

(** ** The layout of white space *)





Lemma single_spaced_weaken (s : string) :
  single_spaced true s = true -> single_spaced false s = true.
Proof.
  destruct s as [| c s]; [reflexivity |]. cbn [single_spaced].
  destruct (is_space c); [| auto]. rewrite andb_false_r. discriminate.
Qed.











(** ** Date and time tokens *)

Lemma DayFromYear_mono (y y' : Z) : y < y' -> DayFromYear (y + 1) <= DayFromYear y'.
Proof. unfold DayFromYear. intros H. Z.div_mod_to_equations. lia. Qed.

Lemma YearFromDay_unique (y D : Z) :
  DayFromYear y <= D < DayFromYear (y + 1) -> YearFromDay D = y.
Proof.
  intros H. pose proof (YearFromDay_spec D) as H'.
  destruct (Z.lt_trichotomy (YearFromDay D) y) as [Hlt | [Heq | Hgt]]; [| exact Heq |].
  - pose proof (DayFromYear_mono _ _ Hlt). lia.
  - pose proof (DayFromYear_mono _ _ Hgt). lia.
Qed.

Lemma month_cases (m : Z) :
  1 <= m <= 12 ->
  m = 1 \/ m = 2 \/ m = 3 \/ m = 4 \/ m = 5 \/ m = 6 \/ m = 7 \/ m = 8 \/ m = 9
  \/ m = 10 \/ m = 11 \/ m = 12.
Proof. lia. Qed.

Ltac month_index :=
  repeat match goal with
         | |- context [Z.pos ?p - 1] =>
             let v := eval vm_compute in (Z.pos p - 1) in
             change (Z.pos p - 1) with v
         end.

(** The day of the year of a calendar date, and back. *)
Lemma day_of_year (y m d : Z) :
  1 <= m <= 12 -> 1 <= d <= days_in_month y m ->
  let leap := if is_leap y then 1 else 0 in
  let n := month_start leap (m - 1) + d - 1 in
  0 <= n < 365 + leap
  /\ month_of_day leap n = m - 1
  /\ n - month_start leap (m - 1) + 1 = d.
Proof.
  intros Hm Hd. cbv zeta. split; [| split; [| lia]].
  - apply month_cases in Hm.
    repeat (destruct Hm as [-> | Hm]); try subst m;
      month_index;
      cbn [days_in_month month_start] in *;
      destruct (is_leap y); lia.
  - apply month_cases in Hm. unfold month_of_day.
    repeat (destruct Hm as [-> | Hm]); try subst m;
      month_index;
      cbn [days_in_month month_start] in *;
      destruct (is_leap y);
      repeat match goal with
             | |- context [if ?a <? ?b then _ else _] =>
                 destruct (Z.ltb_spec a b); try lia
             end.
Qed.

(** The local fields of the instant built from a calendar date and a
    time of day. *)
Lemma fields_of_instant (y m d h mi s : Z) :
  1 <= m <= 12 -> 1 <= d <= days_in_month y m ->
  0 <= h <= 23 -> 0 <= mi <= 59 -> 0 <= s <= 59 ->
  let t := MakeDate (MakeDay y (m - 1) d) (MakeTime h mi s 0) in
  YearFromTime t = y /\ MonthFromTime t = m - 1 /\ DateFromTime t = d
  /\ HourFromTime t = h /\ MinFromTime t = mi.
Proof.
  intros Hm Hd Hh Hmi Hs. cbv zeta.
  destruct (day_of_year y m d Hm Hd) as (Hn & Hmonth & Hdate). cbv zeta in *.
  set (leap := if is_leap y then 1 else 0) in *.
  assert (Hday : MakeDay y (m - 1) d = DayFromYear y + (month_start leap (m - 1) + d - 1)).
  { unfold MakeDay. cbv zeta.
    replace ((m - 1) / 12) with 0 by (symmetry; apply Z.div_small; lia).
    replace ((m - 1) mod 12) with (m - 1) by (symmetry; apply Z.mod_small; lia).
    rewrite Z.add_0_r. fold leap. lia. }
  set (n := month_start leap (m - 1) + d - 1) in *.
  set (t := MakeDate (MakeDay y (m - 1) d) (MakeTime h mi s 0)).
  assert (Ht : t = (DayFromYear y + n) * 86400000 + (h * 3600000 + mi * 60000 + s * 1000)).
  { unfold t, MakeDate, MakeTime, msPerDay, msPerHour, msPerMinute, msPerSecond.
    rewrite Hday. lia. }
  assert (HDay : Day t = DayFromYear y + n).
  { unfold Day, msPerDay. rewrite Ht. Z.div_mod_to_equations. lia. }
  assert (Hyear : YearFromTime t = y).
  { unfold YearFromTime. rewrite HDay. apply YearFromDay_unique.
    rewrite DayFromYear_step. fold leap. lia. }
  assert (Hwithin : DayWithinYear t = n).
  { unfold DayWithinYear. rewrite Hyear, HDay. lia. }
  assert (Hleap : InLeapYear t = leap).
  { unfold InLeapYear. rewrite Hyear. reflexivity. }
  split; [exact Hyear |].
  split; [unfold MonthFromTime; rewrite Hleap, Hwithin; exact Hmonth |].
  split; [unfold DateFromTime, MonthFromTime; rewrite Hleap, Hwithin, Hmonth; exact Hdate |].
  split.
  - unfold HourFromTime, msPerHour. rewrite Ht. Z.div_mod_to_equations. lia.
  - unfold MinFromTime, msPerMinute. rewrite Ht. Z.div_mod_to_equations. lia.
Qed.

(** [split] on a text without separator, and up to the first
    separator. *)
Lemma split_on_none (sep : ascii -> bool) (x cur : string) :
  (forall c, is_digit c = true -> sep c = false) -> digits x = true ->
  split_on sep cur x = [rev cur +:+ x].
Proof.
  intros Hsep. revert cur. induction x as [| c x IH]; intros cur Hx.
  - cbn [split_on]. rewrite append_nil_r. reflexivity.
  - cbn [digits] in Hx. apply andb_prop in Hx. destruct Hx as [Hc Hx].
    cbn [split_on]. rewrite (Hsep c Hc), (IH _ Hx), rev_cons, append_assoc. reflexivity.
Qed.

Lemma split_on_first (sep : ascii -> bool) (x cur : string) (c : ascii) (rest : string) :
  (forall c, is_digit c = true -> sep c = false) -> digits x = true -> sep c = true ->
  split_on sep cur (x +:+ String c rest)
  = (rev cur +:+ x) :: split_on sep EmptyString rest.
Proof.
  intros Hsep Hx Hc. revert cur. induction x as [| a x IH]; intros cur.
  - change ("" +:+ String c rest) with (String c rest). cbn [split_on].
    rewrite Hc, append_nil_r. reflexivity.
  - cbn [digits] in Hx. apply andb_prop in Hx. destruct Hx as [Ha Hx].
    change (String a x +:+ String c rest) with (String a (x +:+ String c rest)).
    cbn [split_on]. rewrite (Hsep a Ha), (IH Hx), rev_cons, append_assoc. reflexivity.
Qed.

Lemma digit_not_separator (c : ascii) :
  is_digit c = true -> is_date_sep c = false /\ Ascii.eqb ":" c = false.
Proof. destruct c as [[] [] [] [] [] [] [] []]; try discriminate; split; reflexivity. Qed.

Lemma two_digits_digits (s : string) : two_digits s = true -> digits s = true.
Proof.
  intros H. destruct (two_digits_inv _ H) as (a & b & -> & Ha & Hb).
  cbn. rewrite Ha, Hb. reflexivity.
Qed.

Lemma includes_here (p s : string) : starts_with p s = true -> includes p s = true.
Proof. intros H. destruct s; cbn [includes]; rewrite H; reflexivity. Qed.

Lemma includes_append (p x s : string) : includes p s = true -> includes p (x +:+ s) = true.
Proof.
  intros H. induction x as [| c x IH]; [exact H |].
  change (String c x +:+ s) with (String c (x +:+ s)). cbn [includes].
  rewrite IH. apply orb_true_r.
Qed.

Lemma includes_separator (sep : ascii) (x rest : string) :
  is_date_sep sep = true ->
  includes "-" (x +:+ String sep rest) || includes "/" (x +:+ String sep rest) = true.
Proof.
  unfold is_date_sep. intros H. apply orb_true_iff in H. apply orb_true_iff.
  destruct H as [H | H]; apply Ascii.eqb_eq in H; subst sep; [left | right];
    apply includes_append, includes_here; reflexivity.
Qed.

Lemma split_two (sep : ascii -> bool) (x y : string) (c : ascii) :
  (forall c, is_digit c = true -> sep c = false) ->
  digits x = true -> digits y = true -> sep c = true ->
  split sep (x +:+ String c y) = [x; y].
Proof.
  intros Hsep Hx Hy Hc. unfold split.
  rewrite (split_on_first sep x "" c y Hsep Hx Hc), (split_on_none sep y "" Hsep Hy).
  reflexivity.
Qed.

Lemma split_three (sep : ascii -> bool) (x y z : string) (c1 c2 : ascii) :
  (forall c, is_digit c = true -> sep c = false) ->
  digits x = true -> digits y = true -> digits z = true ->
  sep c1 = true -> sep c2 = true ->
  split sep (x +:+ String c1 (y +:+ String c2 z)) = [x; y; z].
Proof.
  intros Hsep Hx Hy Hz Hc1 Hc2. unfold split.
  rewrite (split_on_first sep x "" c1 _ Hsep Hx Hc1).
  fold (split sep (y +:+ String c2 z)). rewrite split_two by assumption. reflexivity.
Qed.

(** A date token [D-M-Y] and a time token [H:M], read by
    [parseEmailDate]. *)
Lemma parseEmailDate_tokens (tz : Zone) (dp : string -> Date)
    (D M Y H Mi : string) (sep1 sep2 : ascii) :
  digits D = true -> digits M = true -> digits Y = true ->
  two_digits H = true -> digits Mi = true ->
  is_date_sep sep1 = true -> is_date_sep sep2 = true ->
  parseEmailDate tz dp (D +:+ String sep1 (M +:+ String sep2 Y))
    (Some (H +:+ ":" +:+ Mi))
  = setHours tz
      (Date_of_ymd tz ((fun y => if y <? 100 then 2000 + y else y) <$> parseInt Y)
         (Z.add (-1) <$> parseInt M) (parseInt D))
      (parseInt H) (parseInt Mi) (Some 0).
Proof.
  intros HD HM HY HH HMi Hs1 Hs2. unfold parseEmailDate.
  rewrite includes_separator by exact Hs1.
  rewrite (split_three is_date_sep D M Y sep1 sep2)
    by (auto; intros c Hc; apply digit_not_separator, Hc).
  cbn [nth_error parseInt_opt].
  assert (Hsplit : split (Ascii.eqb ":") (H +:+ ":" +:+ Mi) = [H; Mi]).
  { apply split_two; auto using two_digits_digits.
    intros c Hc; apply digit_not_separator, Hc. }
  destruct (two_digits_inv _ HH) as (a & b & -> & Ha & Hb).
  change (String a (String b "") +:+ ":" +:+ Mi)
    with (String a (String b "" +:+ String ":" Mi)) in *.
  cbv iota. rewrite Hsplit. reflexivity.
Qed.

Lemma parseInt_pad2 (n : Z) : 0 <= n <= 99 -> parseInt (pad2 n) = Some n.
Proof.
  intros H.
  pose proof (forall_range
                (fun n => match parseInt (pad2 n) with
                          | Some v => v =? n
                          | None => false
                          end) 0 100 ltac:(vm_compute; reflexivity) n ltac:(lia)) as E.
  cbv beta in E. destruct (parseInt (pad2 n)) as [v |]; [| discriminate].
  apply Z.eqb_eq in E. congruence.
Qed.

Lemma hours12_clock12 (h : Z) : 0 <= h -> hours12 (Some h) = Some (clock12 h).
Proof.
  intros H. unfold hours12, clock12. cbn [fmap option_fmap option_map].
  rewrite Z.rem_mod_nonneg by lia.
  pose proof (Z.mod_pos_bound h 12 ltac:(lia)) as Hb.
  destruct (h mod 12) eqn:E; [reflexivity | reflexivity | lia].
Qed.

Lemma instant_bounds (y m d h mi s : Z) :
  100 <= y <= 9999 -> 1 <= m <= 12 -> 1 <= d <= days_in_month y m ->
  0 <= h <= 23 -> 0 <= mi <= 59 -> 0 <= s <= 59 ->
  Z.abs (MakeDate (MakeDay y (m - 1) d) (MakeTime h mi s 0)) <= 8000000000000000
  /\ Day (MakeDate (MakeDay y (m - 1) d) 0) = MakeDay y (m - 1) d
  /\ msFromTime (MakeDate (MakeDay y (m - 1) d) 0) = 0.
Proof.
  intros Hy Hm Hd Hh Hmi Hs.
  destruct (day_of_year y m d Hm Hd) as (Hn & _). cbv zeta in Hn.
  set (leap := if is_leap y then 1 else 0) in *.
  assert (Hleap : 0 <= leap <= 1) by (subst leap; destruct (is_leap y); lia).
  assert (Hday : MakeDay y (m - 1) d = DayFromYear y + (month_start leap (m - 1) + d - 1)).
  { unfold MakeDay. cbv zeta.
    replace ((m - 1) / 12) with 0 by (symmetry; apply Z.div_small; lia).
    replace ((m - 1) mod 12) with (m - 1) by (symmetry; apply Z.mod_small; lia).
    rewrite Z.add_0_r. fold leap. lia. }
  assert (Hdfy : -700000 <= DayFromYear y <= 3000000).
  { unfold DayFromYear. Z.div_mod_to_equations. lia. }
  rewrite Hday. set (n := month_start leap (m - 1) + d - 1) in *.
  unfold MakeDate, MakeTime, Day, msFromTime, msPerDay, msPerHour, msPerMinute,
    msPerSecond.
  split; [lia |]. split; Z.div_mod_to_equations; lia.
Qed.

(** Reading a date token and a time token and printing the date. *)
Lemma tokens_read_back (zone : Zone) (dp : string -> Date)
    (Y : string) (y m d h mi : Z) (sep1 sep2 : ascii) :
  digits Y = true -> parseInt Y = Some y -> 100 <= y <= 9999 ->
  1 <= m <= 12 -> 1 <= d <= days_in_month y m ->
  0 <= h <= 23 -> 0 <= mi <= 59 ->
  is_date_sep sep1 = true -> is_date_sep sep2 = true ->
  exists_in zone (MakeDate (MakeDay y (m - 1) d) 0) ->
  exists_in zone (MakeDate (MakeDay y (m - 1) d) (MakeTime h mi 0 0)) ->
  formatToIndianDateTime zone
    (parseEmailDate zone dp
       (pad2 d +:+ String sep1 (pad2 m +:+ String sep2 Y))
       (Some (pad2 h +:+ ":" +:+ pad2 mi)))
  = pad2 d +:+ "/" +:+ pad2 m +:+ "/" +:+ to_string (Some y) +:+ " "
      +:+ to_string (Some (clock12 h)) +:+ ":" +:+ pad2 mi +:+ " "
      +:+ (if 12 <=? h then "PM" else "AM").
Proof.
  intros HY HpY Hy Hm Hd Hh Hmi Hs1 Hs2 [Hoff0 Hback0] [Hoff Hback].
  assert (Hdim : days_in_month y m <= 31).
  { pose proof (month_cases m Hm) as Hc. clear Hd Hoff0 Hback0 Hoff Hback.
    repeat (destruct Hc as [-> | Hc]); try subst m; cbn [days_in_month];
      try destruct (is_leap y); lia. }
  rewrite parseEmailDate_tokens;
    try assumption;
    try (apply two_digits_digits, padStart2_two_digits; lia);
    try (apply padStart2_two_digits; lia).
  rewrite !parseInt_pad2, HpY by lia.
  cbn [fmap option_fmap option_map].
  replace (y <? 100) with false by (symmetry; apply Z.ltb_ge; lia).
  replace (-1 + m) with (m - 1) by lia.
  rewrite Date_of_ymd_Some.
  replace ((0 <=? y) && (y <=? 99)) with false
    by (symmetry; apply andb_false_iff; right; apply Z.leb_gt; lia).
  destruct (instant_bounds y m d 0 0 0 Hy Hm Hd ltac:(lia) ltac:(lia) ltac:(lia))
    as (Hb0 & Hday0 & Hms0).
  destruct (instant_bounds y m d h mi 0 Hy Hm Hd Hh Hmi ltac:(lia)) as (Hb & _ & _).
  replace (MakeTime 0 0 0 0) with 0 in Hb0 by reflexivity.
  unfold msPerDay in Hoff0, Hoff.
  rewrite TimeClip_small by (unfold UTC; lia).
  rewrite setHours_Some, Hback0, Hday0, Hms0.
  rewrite TimeClip_small by (unfold UTC; lia).
  rewrite format_shift, Hback.
  destruct (fields_of_instant y m d h mi 0 Hm Hd Hh Hmi ltac:(lia))
    as (F1 & F2 & F3 & F4 & F5). cbv zeta in *.
  set (t := MakeDate (MakeDay y (m - 1) d) (MakeTime h mi 0 0)) in *.
  unfold formatToIndianDateTime, getDate, getMonth, getFullYear, getHours, getMinutes.
  cbn [fmap option_fmap option_map compose].
  unfold LocalTime. cbn [offset_at fixed_offset]. rewrite Z.add_0_r, F1, F2, F3, F4, F5.
  replace (1 + (m - 1)) with m by lia.
  rewrite hours12_clock12 by lia. reflexivity.
Qed.

(** X6.  Round trip of date tokens.  A date token D-M-Y (either
    separator) whose day and month are written with two digits and whose
    year token denotes a year from 100 to 9999, with a time token HH:MM
    of the 24-hour clock, for a date of the calendar, is read and printed
    back as DD/MM/Y H:MM AM|PM with the same day, month, year and minute
    and the hour of the 12-hour clock, in every zone in which the
    midnight of that day and that time of the day exist. *)
Theorem date_token_round_trip (zone : Zone) (dp : string -> Date)
    (Y : string) (y m d h mi : Z) (sep1 sep2 : ascii) :
  digits Y = true -> parseInt Y = Some y -> 100 <= y <= 9999 ->
  1 <= m <= 12 -> 1 <= d <= days_in_month y m ->
  0 <= h <= 23 -> 0 <= mi <= 59 ->
  is_date_sep sep1 = true -> is_date_sep sep2 = true ->
  exists_in zone (MakeDate (MakeDay y (m - 1) d) 0) ->
  exists_in zone (MakeDate (MakeDay y (m - 1) d) (MakeTime h mi 0 0)) ->
  formatToIndianDateTime zone
    (parseEmailDate zone dp
       (pad2 d +:+ String sep1 (pad2 m +:+ String sep2 Y))
       (Some (pad2 h +:+ ":" +:+ pad2 mi)))
  = pad2 d +:+ "/" +:+ pad2 m +:+ "/" +:+ to_string (Some y) +:+ " "
      +:+ to_string (Some (clock12 h)) +:+ ":" +:+ pad2 mi +:+ " "
      +:+ (if 12 <=? h then "PM" else "AM").
Proof. exact (tokens_read_back zone dp Y y m d h mi sep1 sep2). Qed.

Lemma date_token_round_trip_witness :
  formatToIndianDateTime london_2026
    (parseEmailDate london_2026 (fun _ => None)
       (pad2 12 +:+ String "-" (pad2 7 +:+ String "-" "2026"))
       (Some (pad2 18 +:+ ":" +:+ pad2 51)))
  = pad2 12 +:+ "/" +:+ pad2 7 +:+ "/" +:+ to_string (Some 2026) +:+ " "
      +:+ to_string (Some (clock12 18)) +:+ ":" +:+ pad2 51 +:+ " "
      +:+ (if 12 <=? 18 then "PM" else "AM").
Proof.
  apply (date_token_round_trip london_2026 (fun _ => None) "2026" 2026 7 12 18 51 "-" "-");
    try reflexivity;
    try (split; [vm_compute; discriminate | vm_compute; reflexivity]);
    vm_compute; first [discriminate | split; discriminate].
Defined.

(** A time of the day that the zone skips is not printed back: in London
    the clocks go from 01:00 to 02:00 on 29 March 2026, and the token of
    01:30 on that day is printed as 2:30 AM. *)
Example skipped_hour_moves_forward :
  ~ exists_in london_2026 (MakeDate (MakeDay 2026 2 29) (MakeTime 1 30 0 0))
  /\ formatToIndianDateTime london_2026
       (parseEmailDate london_2026 (fun _ => None) "29-03-2026" (Some "01:30"))
     = "29/03/2026 2:30 AM".
Proof.
  split; [| vm_compute; reflexivity].
  intros [_ H]. vm_compute in H. discriminate.
Qed.

(** The example message of the specification in a zone whose offset
    changes: its date and time are read and printed back wherever the
    midnight of 12 January 2026 and 18:51 of that day exist. *)
Lemma parse_example_message_zone (zone : Zone) (dp : string -> Date) (subject : string)
    (received : Date) (message_id : string) :
  exists_in zone (MakeDate (MakeDay 2026 0 12) 0) ->
  exists_in zone (MakeDate (MakeDay 2026 0 12) (MakeTime 18 51 0 0)) ->
  parseHDFCEmail zone dp example_body subject received message_id
  = Success
      (mkTransaction "12/01/2026 6:51 PM" (Dec 500 0) Debit "UPI" "1234"
         "MERCHANT NAME (merchant@upi)" "ABC123" (Available (Dec 10000 0))
         "" "" (formatToIndianDateTime zone received)).
Proof.
  intros H0 H1.
  pose proof (tokens_read_back zone dp "2026" 2026 1 12 18 51 "-" "-"
                eq_refl eq_refl ltac:(lia) ltac:(lia)
                ltac:(vm_compute; split; discriminate) ltac:(lia) ltac:(lia)
                eq_refl eq_refl H0 H1) as Hdate.
  unfold parseHDFCEmail.
  revert Hdate.
  generalize (parseEmailDate zone dp), (formatToIndianDateTime zone).
  intros parse_date format Hdate.
  vm_compute. vm_compute in Hdate. rewrite Hdate. reflexivity.
Qed.

Lemma digit_cases (a : ascii) :
  is_digit a = true ->
  In a ["0"; "1"; "2"; "3"; "4"; "5"; "6"; "7"; "8"; "9"]%char.
Proof.
  destruct a as [[] [] [] [] [] [] [] []]; try discriminate; intros _; cbn; tauto.
Qed.

Lemma parseInt_two_digit_year (s : string) :
  two_digits s = true ->
  exists n, parseInt s = Some n /\ parseInt ("20" +:+ s) = Some (2000 + n)
            /\ (0 <=? n) && (n <? 100) = true.
Proof.
  intros H. destruct (two_digits_inv _ H) as (a & b & -> & Ha & Hb).
  apply digit_cases in Ha, Hb. cbn [In] in Ha, Hb.
  repeat (destruct Ha as [<- | Ha]); try destruct Ha;
    repeat (destruct Hb as [<- | Hb]); try destruct Hb;
    eexists; (split; [vm_compute; reflexivity |]);
    (split; [vm_compute; reflexivity |]); reflexivity.
Qed.

(** X7.  A two-digit year in a date token stands for the year 20YY: the
    token reads as the same token with "20" before the year. *)
Theorem two_digit_year_is_this_century (tz : Zone) (dp : string -> Date)
    (D M YY : string) (sep1 sep2 : ascii) (timeStr : option string) :
  digits D = true -> digits M = true -> two_digits YY = true ->
  is_date_sep sep1 = true -> is_date_sep sep2 = true ->
  parseEmailDate tz dp (D +:+ String sep1 (M +:+ String sep2 YY)) timeStr
  = parseEmailDate tz dp (D +:+ String sep1 (M +:+ String sep2 ("20" +:+ YY))) timeStr.
Proof.
  intros HD HM HY Hs1 Hs2. unfold parseEmailDate.
  rewrite !includes_separator by exact Hs1.
  assert (HY' : digits ("20" +:+ YY) = true).
  { destruct (two_digits_inv _ HY) as (a & b & -> & Ha & Hb).
    change ("20" +:+ String a (String b ""))
      with (String "2" (String "0" (String a (String b "")))).
    cbn [digits]. rewrite Ha, Hb. reflexivity. }
  rewrite !(split_three is_date_sep D M _ sep1 sep2)
    by (auto using two_digits_digits; intros c Hc; apply digit_not_separator, Hc).
  cbn [nth_error parseInt_opt].
  destruct (parseInt_two_digit_year YY HY) as (n & -> & -> & Hn).
  cbn [fmap option_fmap option_map].
  apply andb_prop in Hn. destruct Hn as [Hn0 Hn]. rewrite Hn.
  replace (2000 + n <? 100) with false; [reflexivity |].
  symmetry. apply Z.ltb_ge. apply Z.leb_le in Hn0. lia.
Qed.

Lemma two_digit_year_is_this_century_witness :
  parseEmailDate 19800000 (fun _ => None) "12-01-26" (Some "18:51")
  = parseEmailDate 19800000 (fun _ => None) "12-01-2026" (Some "18:51").
Proof.
  apply (two_digit_year_is_this_century 19800000 (fun _ => None) "12" "01" "26" "-" "-"
           (Some "18:51")); reflexivity.
Defined.

(** ** One cycle of an account, outcome by outcome *)

Section AccountRun.
Variable LocalTZA : Zone.
Variable Date_parse : string -> Date.

Lemma write_sheet_nothing (sid : string) (g : gmap string Sheet) :
  write_sheet sid [] None g = g.
Proof.
  unfold write_sheet. destruct (g !! sid) as [sh |] eqn:E; [| reflexivity].
  rewrite app_nil_r. destruct sh. cbn. apply insert_id. exact E.
Qed.

Lemma write_sheet_twice (sid : string) (new : list ParsedTransaction)
    (meta : option ISOString) (g : gmap string Sheet) :
  write_sheet sid [] meta (write_sheet sid new None g) = write_sheet sid new meta g.
Proof.
  unfold write_sheet. destruct (g !! sid) as [sh |] eqn:E.
  - rewrite lookup_insert_eq. cbn [rows metadata_B2]. rewrite app_nil_r, insert_insert_eq.
    reflexivity.
  - rewrite E. reflexivity.
Qed.

Lemma sheets_append_effect (env : Env) (sid : string) (values : list ParsedTransaction)
    (w w' : World) (r : outcome unit) :
  sheets_append env sid values w = (w', r) ->
  (r = Thrown /\ w' = w)
  \/ (r = Returned tt /\ registry w' = registry w
      /\ ledger w !! sid <> None
      /\ ledger w' = write_sheet sid values None (ledger w)).
Proof.
  unfold sheets_append, write_sheet.
  destruct (sheets_append_ok env), (ledger w !! sid) as [sh |];
    intros H; injection H as <- <-; auto.
Qed.

Lemma sheets_update_metadata_effect (env : Env) (sid : string) (value : ISOString)
    (w w' : World) (r : outcome unit) :
  sheets_update_metadata env sid value w = (w', r) ->
  (r = Thrown /\ w' = w
   /\ (sheets_update_ok env = false \/ ledger w !! sid = None))
  \/ (r = Returned tt /\ registry w' = registry w
      /\ ledger w' = write_sheet sid [] (Some value) (ledger w)).
Proof.
  unfold sheets_update_metadata, write_sheet.
  destruct (sheets_update_ok env), (ledger w !! sid) as [sh |];
    intros H; injection H as <- <-; auto.
  right. cbn. rewrite app_nil_r. auto.
Qed.


Lemma sheets_get_references_values (env : Env) (sid : string) (w : World) :
  try_catch (sheets_get_references env sid) (ret []) w
  = (w, Returned (values_read env sid w)).
Proof.
  unfold try_catch, sheets_get_references, values_read, column_of.
  destruct (sheets_get_ok env), (ledger w !! sid); reflexivity.
Qed.

(** The [try] block of [processUser], outcome by outcome. *)
Lemma sync_account_run (env : Env) (user : User) (sid : string)
    (w w' : World) (r : outcome (option SyncResult)) :
  sync_account LocalTZA Date_parse env user sid w = (w', r) ->
  let st := cycle_loop LocalTZA Date_parse env user sid w in
  (r = Thrown /\ registry w' = registry w
   /\ exists new,
        (new = [] \/ new = newTransactions st)
        /\ ledger w' = write_sheet sid new None (ledger w))
  \/ (r = Returned None
      /\ (exists refreshToken,
            decrypt env (google_refresh_token user) = Some refreshToken
            /\ truthy (refreshAccessToken env refreshToken) = false)
      /\ w' = mkWorld
                (map (patch_row (id user) (set_is_active false ∘ set_is_processing false))
                   (registry w))
                (ledger w))
  \/ (r = Returned (Some (mkResult 0 0))
      /\ gmail_list env (query_of user) = Some []
      /\ w' = mkWorld
                (map (patch_row (id user)
                        (set_is_processing false ∘ set_last_sync_time (now env)))
                   (registry w))
                (ledger w))
  \/ (r = Returned (Some (mkResult (length (newTransactions st))
                            (length (missedEmails st))))
      /\ retrieved env user <> []
      /\ latestTimestamp st <> Some None
      /\ (newTransactions st <> [] -> ledger w !! sid <> None)
      /\ exists meta,
           (meta = None \/ latestTimestamp st = Some meta)
           /\ (sheets_update_ok env = true -> ledger w !! sid <> None ->
               latestTimestamp st = None \/ latestTimestamp st = Some meta)
           /\ w' = mkWorld
                     (map (patch_row (id user)
                             (set_last_processed
                                (match latestTimestamp st with
                                 | Some (Some iso) => Some iso
                                 | _ => last_processed_email_timestamp user
                                 end)
                              ∘ set_last_sync_time (now env)
                              ∘ set_is_processing false
                              ∘ set_missed_emails
                                  (last_50 (missed_emails user ++ missedEmails st))))
                        (registry w))
                     (write_sheet sid (newTransactions st) meta (ledger w))).
Proof.
  intros Hrun st. revert Hrun.
  unfold sync_account, bind, call.
  destruct (decrypt env (google_refresh_token user)) as [refreshToken |] eqn:Edec;
    cbn [ret throw].
  2: { intros H; injection H as <- <-. left. split; [reflexivity |].
       split; [reflexivity |]. exists []. split; [auto |].
       symmetry. apply write_sheet_nothing. }
  cbv zeta.
  destruct (truthy (refreshAccessToken env refreshToken)) eqn:Etok; cbn [negb].
  2: { cbn. intros H. injection H as <- <-. right. left.
       split; [reflexivity |]. split; [eauto | reflexivity]. }
  destruct (gmail_list env (query_of user)) as [messages |] eqn:Elist;
    cbn [ret throw].
  2: { intros H; injection H as <- <-. left. split; [reflexivity |].
       split; [reflexivity |]. exists []. split; [auto |].
       symmetry. apply write_sheet_nothing. }
  destruct messages as [| m messages].
  { cbn. intros H. injection H as <- <-. right. right. left. auto. }
  assert (Hret : retrieved env user = m :: messages).
  { unfold retrieved. rewrite Elist. reflexivity. }
  rewrite sheets_get_references_values. cbv zeta.
  change (fold_left (process_message LocalTZA Date_parse env) (m :: messages)
            (mkLoop (existing_refs (values_read env sid w)) [] [] None))
    with (message_loop LocalTZA Date_parse env (m :: messages) (values_read env sid w)).
  rewrite <- Hret. fold (cycle_loop LocalTZA Date_parse env user sid w). fold st.
  clearbody st. clear Elist.
  destruct (match newTransactions st with
            | [] => ret tt
            | _ :: _ => sheets_append env sid (newTransactions st)
            end w) as [w2 o2] eqn:Eappend.
  assert (Happ : (o2 = Thrown /\ w2 = w)
                 \/ (o2 = Returned tt /\ registry w2 = registry w
                     /\ (newTransactions st <> [] -> ledger w !! sid <> None)
                     /\ ledger w2 = write_sheet sid (newTransactions st) None (ledger w))).
  { destruct (newTransactions st) as [| t ts].
    - injection Eappend as <- <-. right. split; [reflexivity |].
      split; [reflexivity |]. split; [congruence |].
      symmetry. apply write_sheet_nothing.
    - apply sheets_append_effect in Eappend.
      destruct Eappend as [H | (H1 & H2 & H3 & H4)]; [left; exact H | right; auto]. }
  destruct Happ as [(-> & ->) | (-> & Hreg2 & Hsheet & Hled2)].
  { intros H; injection H as <- <-. left. split; [reflexivity |].
    split; [reflexivity |]. exists []. split; [auto |].
    symmetry. apply write_sheet_nothing. }
  clear Eappend.
  destruct (match latestTimestamp st with
            | Some latest =>
                try_catch
                  (fun w0 =>
                     let (w1, o) := match toISOString latest with
                                    | Some a => ret a
                                    | None => throw
                                    end w0 in
                     match o with
                     | Returned a => sheets_update_metadata env sid a w1
                     | Thrown => (w1, Thrown)
                     end)
                  (ret tt)
            | None => ret tt
            end w2) as [w3 o3] eqn:Emeta.
  assert (Hmeta : o3 = Returned tt /\ registry w3 = registry w2
                  /\ exists meta,
                       ledger w3 = write_sheet sid [] meta (ledger w2)
                       /\ (meta = None \/ latestTimestamp st = Some meta)
                       /\ (sheets_update_ok env = true -> ledger w2 !! sid <> None ->
                           latestTimestamp st = None \/ latestTimestamp st = Some meta)).
  { destruct (latestTimestamp st) as [latest |].
    - unfold try_catch in Emeta. unfold toISOString in Emeta.
      destruct latest as [iso |]; cbn [ret throw] in Emeta.
      + destruct (sheets_update_metadata env sid iso w2) as [w4 o4] eqn:Eupd.
        apply sheets_update_metadata_effect in Eupd.
        destruct Eupd as [(-> & -> & Hwhy) | (-> & Hreg & Hled)];
          injection Emeta as <- <-.
        * split; [reflexivity |]. split; [reflexivity |]. exists None.
          split; [symmetry; apply write_sheet_nothing |]. split; [auto |].
          intros Hok Hex. destruct Hwhy; congruence.
        * split; [reflexivity |]. split; [exact Hreg |]. exists (Some iso). auto.
      + injection Emeta as <- <-. split; [reflexivity |]. split; [reflexivity |].
        exists None. split; [symmetry; apply write_sheet_nothing |]. auto.
    - injection Emeta as <- <-. split; [reflexivity |]. split; [reflexivity |].
      exists None. split; [symmetry; apply write_sheet_nothing |]. auto. }
  destruct Hmeta as (-> & Hreg3 & meta & Hled3 & Hmeta1 & Hmeta2).
  rewrite Hled2, write_sheet_twice in Hled3.
  assert (Hsame : ledger w2 !! sid <> None <-> ledger w !! sid <> None).
  { rewrite Hled2. unfold write_sheet.
    destruct (ledger w !! sid) eqn:E; [rewrite lookup_insert_eq | rewrite E]; split; congruence. }
  unfold toISOString.
  destruct (latestTimestamp st) as [[iso |] |] eqn:Elatest; cbn [ret throw update_user].
  - intros H. injection H as <- <-. right. right. right.
    split; [reflexivity |]. split; [congruence |]. split; [discriminate |].
    split; [exact Hsheet |]. exists meta. split; [exact Hmeta1 |].
    split; [intros H1 H2; apply Hmeta2; [exact H1 | apply Hsame, H2] |].
    rewrite Hreg3, Hreg2, Hled3. reflexivity.
  - intros H. injection H as <- <-. left. split; [reflexivity |].
    split; [congruence |]. exists (newTransactions st). split; [auto |].
    destruct Hmeta1 as [-> | H]; [exact Hled3 | ].
    injection H as <-. exact Hled3.
  - intros H. injection H as <- <-. right. right. right.
    split; [reflexivity |]. split; [congruence |]. split; [discriminate |].
    split; [exact Hsheet |]. exists meta. split; [exact Hmeta1 |].
    split; [intros H1 H2; apply Hmeta2; [exact H1 | apply Hsame, H2] |].
    rewrite Hreg3, Hreg2, Hled3. reflexivity.
Qed.


(** [processUser], outcome by outcome: the account is skipped, or the
    sync ends in a fault, in a failed exchange of the credential, with no
    message, or with its final account update. *)
Lemma processUser_run (env : Env) (user : User) (w w' : World)
    (r : outcome (option SyncResult)) :
  processUser LocalTZA Date_parse env user w = (w', r) ->
  (w' = w /\ r = Returned (Some (mkResult 0 0))
   /\ (truthy (google_sheet_id user) = false \/ is_processing user = true))
  \/ exists c s,
       google_sheet_id user = Some (String c s)
       /\ is_processing user = false
       /\ let sid := String c s in
          let st := cycle_loop LocalTZA Date_parse env user sid w in
          (r = Returned None
           /\ exists new,
                (new = [] \/ new = newTransactions st)
                /\ w' = mkWorld
                          (map (patch_row (id user) (set_is_processing false)) (registry w))
                          (write_sheet sid new None (ledger w)))
          \/ (r = Returned None
              /\ (exists refreshToken,
                    decrypt env (google_refresh_token user) = Some refreshToken
                    /\ truthy (refreshAccessToken env refreshToken) = false)
              /\ w' = mkWorld
                        (map (patch_row (id user)
                                (set_is_active false ∘ set_is_processing false))
                           (registry w))
                        (ledger w))
          \/ (r = Returned (Some (mkResult 0 0))
              /\ gmail_list env (query_of user) = Some []
              /\ w' = mkWorld
                        (map (patch_row (id user)
                                (set_is_processing false ∘ set_last_sync_time (now env)))
                           (registry w))
                        (ledger w))
          \/ (r = Returned (Some (mkResult (length (newTransactions st))
                                    (length (missedEmails st))))
              /\ retrieved env user <> []
              /\ latestTimestamp st <> Some None
              /\ (newTransactions st <> [] -> ledger w !! sid <> None)
              /\ exists meta,
                   (meta = None \/ latestTimestamp st = Some meta)
                   /\ (sheets_update_ok env = true -> ledger w !! sid <> None ->
                       latestTimestamp st = None \/ latestTimestamp st = Some meta)
                   /\ w' = mkWorld
                             (map (patch_row (id user)
                                     (set_last_processed
                                        (match latestTimestamp st with
                                         | Some (Some iso) => Some iso
                                         | _ => last_processed_email_timestamp user
                                         end)
                                      ∘ set_last_sync_time (now env)
                                      ∘ set_is_processing false
                                      ∘ set_missed_emails
                                          (last_50 (missed_emails user ++ missedEmails st))))
                                (registry w))
                             (write_sheet sid (newTransactions st) meta (ledger w))).
Proof.
  unfold processUser.
  destruct (google_sheet_id user) as [[| c s] |] eqn:Esheet.
  - intros H; injection H as <- <-. left. auto.
  - destruct (is_processing user) eqn:Ebusy.
    { intros H; injection H as <- <-. left. auto. }
    intros Hrun. right. exists c, s. split; [reflexivity |]. split; [reflexivity |].
    cbv zeta. unfold bind at 1, try_catch in Hrun. cbn [update_user] in Hrun.
    destruct (sync_account LocalTZA Date_parse env user (String c s) _)
      as [w2 r2] eqn:Esync.
    apply sync_account_run in Esync. cbv zeta in Esync.
    change (cycle_loop LocalTZA Date_parse env user (String c s)
              (mkWorld (map (patch_row (id user) (set_is_processing true)) (registry w))
                 (ledger w)))
      with (cycle_loop LocalTZA Date_parse env user (String c s) w) in Esync.
    cbn [registry ledger] in Esync.
    destruct Esync as [(-> & Hreg & new & Hnew & Hled)
                      | [(-> & Hwhy & ->)
                      | [(-> & Hnone & ->)
                      | (-> & Hsome & Hvalid & Hsheet & meta & Hm1 & Hm2 & ->)]]].
    + unfold bind, ret in Hrun. cbn [update_user] in Hrun.
      injection Hrun as <- <-. left. split; [reflexivity |].
      exists new. split; [exact Hnew |]. rewrite Hreg, Hled. f_equal.
      rewrite map_patch_row_compose by (intros []; reflexivity).
      apply map_patch_row_ext. intros []; reflexivity.
    + injection Hrun as <- <-. right. left. split; [reflexivity |].
      split; [exact Hwhy |]. f_equal.
      rewrite map_patch_row_compose by (intros []; reflexivity).
      apply map_patch_row_ext. intros []; reflexivity.
    + injection Hrun as <- <-. right. right. left. split; [reflexivity |].
      split; [exact Hnone |]. f_equal.
      rewrite map_patch_row_compose by (intros []; reflexivity).
      apply map_patch_row_ext. intros []; reflexivity.
    + injection Hrun as <- <-. right. right. right. split; [reflexivity |].
      split; [exact Hsome |]. split; [exact Hvalid |]. split; [exact Hsheet |].
      exists meta. split; [exact Hm1 |]. split; [exact Hm2 |]. f_equal.
      rewrite map_patch_row_compose by (intros []; reflexivity).
      apply map_patch_row_ext. intros []; reflexivity.
  - intros H; injection H as <- <-. left. auto.
Qed.

(** What every outcome of [processUser] does to the registry: the rows
    of the account get a patch that keeps the identity and the
    credentials, clears the busy flag unless the account was skipped, and
    never activates. *)
Lemma processUser_registry (env : Env) (user : User) (w w' : World)
    (r : outcome (option SyncResult)) :
  processUser LocalTZA Date_parse env user w = (w', r) ->
  exists P : User -> User,
    registry w' = map (patch_row (id user) P) (registry w)
    /\ (forall u, id (P u) = id u /\ google_email (P u) = google_email u
                  /\ google_access_token (P u) = google_access_token u
                  /\ google_refresh_token (P u) = google_refresh_token u
                  /\ google_sheet_id (P u) = google_sheet_id u)
    /\ (forall u, is_active (P u) = is_active u
                  \/ is_active (P u) = false
                     /\ exists refreshToken,
                          decrypt env (google_refresh_token user) = Some refreshToken
                          /\ truthy (refreshAccessToken env refreshToken) = false)
    /\ (forall u, truthy (google_sheet_id user) = true -> is_processing user = false ->
                  is_processing (P u) = false)
    /\ (forall u, missed_emails (P u) = missed_emails u
                  \/ (length (missed_emails (P u)) <= 50)%nat).
Proof.
  intros Hrun. apply processUser_run in Hrun.
  destruct Hrun as [(-> & _ & Hskip) | (c & s & Hsheet & Hbusy & Hrun)].
  { exists (fun u => u). split; [symmetry; apply map_patch_row_id |].
    split; [auto |]. split; [auto |]. split; [| auto].
    intros u H1 H2. destruct Hskip; congruence. }
  cbv zeta in Hrun.
  destruct Hrun as [(_ & new & _ & ->)
                   | [(_ & Hwhy & ->)
                   | [(_ & _ & ->)
                   | (_ & _ & _ & _ & meta & _ & _ & ->)]]];
    cbn [registry]; eexists; (split; [reflexivity |]);
    (split; [intros []; cbn; auto |]);
    (split; [intros []; cbn; auto |]);
    (split; [intros []; cbn; auto |]).
  - intros []; cbn; auto.
  - intros []; cbn; auto.
  - intros []; cbn; auto.
  - intros []. right. cbn [missed_emails set_last_processed set_last_sync_time
                          set_is_processing set_missed_emails compose].
    unfold last_50. rewrite length_skipn. lia.
Qed.


(** X8.  Every outcome of the sync of an account that is not skipped
    leaves the account idle: whatever happens (success, no message,
    failed credential, fault), the busy flag of its rows is cleared. *)
Theorem account_idle_after_cycle (env : Env) (user : User) (w w' : World)
    (r : outcome (option SyncResult)) :
  truthy (google_sheet_id user) = true ->
  is_processing user = false ->
  processUser LocalTZA Date_parse env user w = (w', r) ->
  Forall (fun u => id u = id user -> is_processing u = false) (registry w').
Proof.
  intros Hsheet Hbusy Hrun. apply List.Forall_forall. intros u Hin Hid.
  apply processUser_registry in Hrun.
  destruct Hrun as (P & Hreg & Hkeep & _ & Hidle & _).
  rewrite Hreg in Hin. apply in_map_iff in Hin. destruct Hin as (u0 & <- & _).
  unfold patch_row in *. destruct (String.eqb (id u0) (id user)) eqn:E.
  - apply Hidle; assumption.
  - apply String.eqb_neq in E. contradiction.
Qed.

(** X9.  Whatever its outcome, the sync of an account keeps the number
    and order of the registry rows, the identity, the addresses, the
    stored credentials and the ledger id of every row, and leaves the
    rows of all other accounts as they are. *)
Theorem cycle_writes_only_own_rows (env : Env) (user : User) (w w' : World)
    (r : outcome (option SyncResult)) :
  processUser LocalTZA Date_parse env user w = (w', r) ->
  Forall2
    (fun u u' =>
       id u' = id u /\ google_email u' = google_email u
       /\ google_access_token u' = google_access_token u
       /\ google_refresh_token u' = google_refresh_token u
       /\ google_sheet_id u' = google_sheet_id u
       /\ (id u <> id user -> u' = u))
    (registry w) (registry w').
Proof.
  intros Hrun. apply processUser_registry in Hrun.
  destruct Hrun as (P & -> & Hkeep & _).
  apply Forall2_map_patch. intros u. unfold patch_row.
  destruct (String.eqb (id u) (id user)) eqn:E.
  - destruct (Hkeep u) as (H1 & H2 & H3 & H4 & H5).
    apply String.eqb_eq in E. repeat split; auto. intros H. contradiction.
  - repeat split; auto.
Qed.

(** X10.  The sync of an account never activates a row, and the only way
    it deactivates one is an exchange of the decrypted refresh credential
    that gives no access token ([null], no token in the answer, or an
    empty one), for a row of that account. *)
Theorem cycle_never_activates (env : Env) (user : User) (w w' : World)
    (r : outcome (option SyncResult)) :
  processUser LocalTZA Date_parse env user w = (w', r) ->
  Forall2
    (fun u u' =>
       is_active u' = is_active u
       \/ (is_active u' = false /\ id u = id user
           /\ exists refreshToken,
                decrypt env (google_refresh_token user) = Some refreshToken
                /\ truthy (refreshAccessToken env refreshToken) = false))
    (registry w) (registry w').
Proof.
  intros Hrun. apply processUser_registry in Hrun.
  destruct Hrun as (P & -> & _ & Hact & _).
  apply Forall2_map_patch. intros u. unfold patch_row.
  destruct (String.eqb (id u) (id user)) eqn:E; [| left; reflexivity].
  apply String.eqb_eq in E.
  destruct (Hact u) as [H | (H1 & H2)]; [left; exact H | right; auto].
Qed.

(** X11.  The rejected-message log never grows past 50 entries: when
    every row of the registry holds at most 50 before the sync of an
    account, every row does after it, whatever the outcome. *)
Theorem rejected_log_bounded (env : Env) (user : User) (w w' : World)
    (r : outcome (option SyncResult)) :
  processUser LocalTZA Date_parse env user w = (w', r) ->
  Forall (fun u => (length (missed_emails u) <= 50)%nat) (registry w) ->
  Forall (fun u => (length (missed_emails u) <= 50)%nat) (registry w').
Proof.
  intros Hrun Hinv. apply processUser_registry in Hrun.
  destruct Hrun as (P & -> & _ & _ & _ & Hlog).
  rewrite !List.Forall_forall in *. intros u' Hin.
  apply in_map_iff in Hin. destruct Hin as (u & <- & Hin).
  unfold patch_row. destruct (String.eqb (id u) (id user)); [| auto].
  destruct (Hlog u) as [-> | H]; auto.
Qed.


Lemma write_sheet_lookup (sid k : string) (new : list ParsedTransaction)
    (meta : option ISOString) (g : gmap string Sheet) :
  write_sheet sid new meta g !! k
  = if decide (k = sid)
    then (fun sh => mkSheet (rows sh ++ new)
                      (match meta with Some v => Some v | None => metadata_B2 sh end))
         <$> g !! sid
    else g !! k.
Proof.
  unfold write_sheet. destruct (decide (k = sid)) as [-> | Hne].
  - destruct (g !! sid) as [sh |] eqn:E; [apply lookup_insert_eq | rewrite E; reflexivity].
  - destruct (g !! sid) as [sh |] eqn:E; [| reflexivity].
    apply lookup_insert_ne. congruence.
Qed.

(** What every outcome of [processUser] does to the ledgers. *)
Lemma processUser_ledger (env : Env) (user : User) (w w' : World)
    (r : outcome (option SyncResult)) :
  processUser LocalTZA Date_parse env user w = (w', r) ->
  (w' = w /\ r = Returned (Some (mkResult 0 0)))
  \/ exists c s new meta,
       google_sheet_id user = Some (String c s)
       /\ is_processing user = false
       /\ ledger w' = write_sheet (String c s) new meta (ledger w)
       /\ (new = []
           \/ new = newTransactions
                      (cycle_loop LocalTZA Date_parse env user (String c s) w))
       /\ (forall res, r = Returned (Some res) ->
           transactions res = length new
           /\ (new <> [] -> ledger w !! String c s <> None))
       /\ (meta = None
           \/ latestTimestamp (cycle_loop LocalTZA Date_parse env user (String c s) w)
              = Some meta).
Proof.
  intros Hrun. apply processUser_run in Hrun.
  destruct Hrun as [(-> & -> & _) | (c & s & Hsheet & Hbusy & Hrun)]; [left; auto |].
  cbv zeta in Hrun. right.
  destruct Hrun as [(-> & new & Hnew & ->)
                   | [(-> & _ & ->)
                   | [(-> & _ & ->)
                   | (-> & _ & _ & Hex & meta & Hm & _ & ->)]]].
  - exists c, s, new, None. cbn [ledger]. repeat split; auto; discriminate.
  - exists c, s, [], None. cbn [ledger]. rewrite write_sheet_nothing.
    repeat split; auto; discriminate.
  - exists c, s, [], None. cbn [ledger]. rewrite write_sheet_nothing.
    repeat split; auto; try discriminate; try congruence.
    injection H as <-. reflexivity.
  - exists c, s, (newTransactions (cycle_loop LocalTZA Date_parse env user (String c s) w)), meta.
    cbn [ledger].
    split; [exact Hsheet |]. split; [exact Hbusy |]. split; [reflexivity |].
    split; [auto |]. split; [| exact Hm].
    intros res H. injection H as <-. cbn. auto.
Qed.

(** X12.  The sync of an account only appends to a ledger: no
    spreadsheet is created or removed, the rows that a ledger held are
    still its first rows in the same order, and every ledger other than
    the account's own is untouched. *)
Theorem ledger_append_only (env : Env) (user : User) (w w' : World)
    (r : outcome (option SyncResult)) :
  processUser LocalTZA Date_parse env user w = (w', r) ->
  forall k,
    (ledger w !! k = None -> ledger w' !! k = None)
    /\ (forall sh, ledger w !! k = Some sh ->
        exists sh' new,
          ledger w' !! k = Some sh'
          /\ rows sh' = rows sh ++ new
          /\ (google_sheet_id user <> Some k -> sh' = sh)).
Proof.
  intros Hrun k. apply processUser_ledger in Hrun.
  destruct Hrun as [(-> & _) | (c & s & new & meta & Hsheet & _ & -> & _)].
  { split; [auto |]. intros sh H. exists sh, []. rewrite app_nil_r. auto. }
  rewrite write_sheet_lookup. destruct (decide (k = String c s)) as [-> | Hne].
  - split; [intros ->; reflexivity |].
    intros sh ->. eexists _, new. split; [reflexivity |]. split; [reflexivity |].
    intros H. congruence.
  - split; [auto |]. intros sh H. exists sh, []. rewrite app_nil_r. auto.
Qed.

(** X13.  The number of transactions that a sync reports is the number
    of rows it has appended to the ledger of the account (and zero when
    that ledger does not exist). *)
Theorem reported_count_is_rows_written (env : Env) (user : User) (w w' : World)
    (res : SyncResult) (sid : string) :
  google_sheet_id user = Some sid ->
  processUser LocalTZA Date_parse env user w = (w', Returned (Some res)) ->
  match ledger w !! sid with
  | Some sh =>
      exists sh' new,
        ledger w' !! sid = Some sh'
        /\ rows sh' = rows sh ++ new
        /\ length new = transactions res
  | None => ledger w' = ledger w /\ transactions res = 0%nat
  end.
Proof.
  intros Hsid Hrun. apply processUser_ledger in Hrun.
  destruct Hrun as [(-> & H) | (c & s & new & meta & Hsheet & _ & Hled & _ & Hres & _)].
  - injection H as ->.
    destruct (ledger w !! sid) as [sh |] eqn:E; [| auto].
    exists sh, []. rewrite app_nil_r. auto.
  - rewrite Hsid in Hsheet. injection Hsheet as ->.
    destruct (Hres res eq_refl) as [Hlen Hex]. rewrite Hled, write_sheet_lookup.
    rewrite decide_True by reflexivity.
    destruct (ledger w !! String c s) as [sh |] eqn:E.
    + eexists _, new. split; [reflexivity |]. split; [reflexivity |]. auto.
    + split; [unfold write_sheet; rewrite E; reflexivity |].
      destruct new; [exact Hlen | exfalso; apply Hex; [discriminate | reflexivity]].
Qed.

Lemma survivors_fresh (refs : gset string) (ts : list ParsedTransaction) :
  NoDup (map referenceNumber (survivors refs ts))
  /\ forall t, In t (survivors refs ts) -> referenceNumber t ∉ refs.
Proof.
  induction ts as [| t ts IH] using rev_ind.
  - split; [constructor | intros t []].
  - rewrite (survivors_snoc Date_parse). destruct IH as [IH1 IH2].
    destruct (bool_decide (referenceNumber t ∈ refs ∪ refs_of ts)) eqn:E.
    + rewrite app_nil_r. auto.
    + apply bool_decide_eq_false_1 in E. split.
      * rewrite map_app. apply NoDup_app. split; [exact IH1 |].
        split; [| cbn; apply NoDup_singleton].
        intros x Hx Hx'. cbn in Hx'. apply list_elem_of_singleton in Hx'. subst x.
        apply E. rewrite <- (survivors_refs Date_parse).
        assert (referenceNumber t ∈ refs_of (survivors refs ts))
          by (unfold refs_of; apply elem_of_list_to_set; exact Hx).
        set_solver.
      * intros t' Hin. apply in_app_or in Hin. destruct Hin as [Hin | [<- | []]];
          [auto | set_solver].
Qed.

Lemma ledger_refs_elem (sh : Sheet) (x : string) :
  x ∈ ledger_refs sh <-> x ∈ existing_refs (column_of sh).
Proof.
  unfold ledger_refs, column_of. rewrite existing_refs_elem, list_elem_of_In, filter_In.
  rewrite !in_map_iff. split.
  - intros ((t & <- & Hin) & Hne). split.
    + intros H. rewrite H in Hne. discriminate.
    + exists []. apply in_map_iff. exists t. auto.
  - intros (Hne & rest & Hin). apply in_map_iff in Hin.
    destruct Hin as (t & Heq & Hin). injection Heq as <- _.
    split; [exists t; auto |].
    destruct (String.eqb_spec (referenceNumber t) ""); [contradiction | reflexivity].
Qed.

Lemma filter_all {A : Type} (p : A -> bool) (l : list A) :
  (forall x, In x l -> p x = true) -> List.filter p l = l.
Proof.
  induction l as [| a l IH]; intros H; [reflexivity |].
  cbn [List.filter]. rewrite (H a (or_introl eq_refl)), IH; [reflexivity |].
  intros x Hx. apply H. right. exact Hx.
Qed.

(** X14.  When the reference column can be read, a sync keeps the
    non-empty references of the account's ledger pairwise distinct,
    whatever its outcome: also a sync that ends in a fault after its
    append, and a later sync that retrieves the same messages again. *)
Theorem ledger_references_stay_distinct (env : Env) (user : User) (w w' : World)
    (r : outcome (option SyncResult)) (sid : string) (sh : Sheet) :
  google_sheet_id user = Some sid ->
  ledger w !! sid = Some sh ->
  sheets_get_ok env = true ->
  NoDup (ledger_refs sh) ->
  processUser LocalTZA Date_parse env user w = (w', r) ->
  exists sh', ledger w' !! sid = Some sh' /\ NoDup (ledger_refs sh').
Proof.
  intros Hsid Hsh Hget Hnodup Hrun. apply processUser_ledger in Hrun.
  destruct Hrun as [(-> & _) | (c & s & new & meta & Hsheet & _ & Hled & Hnew & _)];
    [eauto |].
  rewrite Hsid in Hsheet. injection Hsheet as ->.
  rewrite Hled, write_sheet_lookup, decide_True, Hsh by reflexivity.
  eexists. split; [reflexivity |].
  unfold ledger_refs. cbn [rows]. rewrite map_app, List.filter_app.
  destruct Hnew as [-> | ->]; [rewrite app_nil_r; exact Hnodup |].
  unfold cycle_loop, values_read. rewrite Hget, Hsh.
  rewrite message_loop_survivors.
  change (reconcile (column_of sh) ?c) with (survivors (existing_refs (column_of sh)) c).
  set (batch := candidates LocalTZA Date_parse env (retrieved env user)).
  destruct (survivors_fresh (existing_refs (column_of sh)) batch) as [H1 H2].
  rewrite (filter_all _ (map referenceNumber (survivors (existing_refs (column_of sh)) batch))).
  - apply NoDup_app. split; [exact Hnodup |]. split; [| exact H1].
    intros x Hx Hx'. fold (ledger_refs sh) in Hx. apply ledger_refs_elem in Hx.
    apply list_elem_of_In, in_map_iff in Hx'. destruct Hx' as (t & <- & Hin).
    exact (H2 t Hin Hx).
  - intros x Hx. apply in_map_iff in Hx. destruct Hx as (t & <- & Hin).
    apply (survivors_subset Date_parse) in Hin.
    apply (candidates_reference_nonempty LocalTZA Date_parse) in Hin.
    destruct (String.eqb_spec (referenceNumber t) ""); [contradiction | reflexivity].
Qed.


Ltac find_row Hrow :=
  match goal with
  | |- context [patch_row _ ?Q] =>
      let HQ := fresh "HQ" in
      assert (HQ : forall u, id (Q u) = id u) by (intros []; reflexivity);
      rewrite (find_patch_row _ Q _ _ HQ Hrow); clear HQ
  end.

(** X15.  The metadata cell follows the watermark: when the cell can be
    written and holds the watermark of the account before a sync, it
    holds the watermark of the account after it, whatever the outcome. *)
Theorem metadata_follows_watermark (env : Env) (user : User) (w w' : World)
    (r : outcome (option SyncResult)) (sid : string) (sh : Sheet) :
  account_row (id user) w = Some user ->
  google_sheet_id user = Some sid ->
  ledger w !! sid = Some sh ->
  sheets_update_ok env = true ->
  metadata_B2 sh = last_processed_email_timestamp user ->
  processUser LocalTZA Date_parse env user w = (w', r) ->
  exists sh' user',
    ledger w' !! sid = Some sh'
    /\ account_row (id user) w' = Some user'
    /\ metadata_B2 sh' = last_processed_email_timestamp user'.
Proof.
  intros Hrow Hsid Hsh Hok Hinv Hrun. apply processUser_run in Hrun.
  destruct Hrun as [(-> & _) | (c & s & Hsheet & Hbusy & Hrun)]; [eauto |].
  rewrite Hsid in Hsheet. injection Hsheet as ->. cbv zeta in Hrun.
  unfold account_row in *.
  destruct Hrun as [(_ & new & _ & ->)
                   | [(_ & _ & ->)
                   | [(_ & _ & ->)
                   | (_ & _ & Hvalid & _ & meta & Hm1 & Hm2 & ->)]]];
    cbn [registry ledger].
  - rewrite write_sheet_lookup, decide_True, Hsh by reflexivity.
    find_row Hrow.
    eexists _, _. split; [reflexivity |]. split; [reflexivity |].
    destruct user; exact Hinv.
  - find_row Hrow.
    eexists _, _. split; [exact Hsh |]. split; [reflexivity |].
    destruct user; exact Hinv.
  - find_row Hrow.
    eexists _, _. split; [exact Hsh |]. split; [reflexivity |].
    destruct user; exact Hinv.
  - rewrite write_sheet_lookup, decide_True, Hsh by reflexivity.
    find_row Hrow.
    eexists _, _. split; [reflexivity |]. split; [reflexivity |].
    specialize (Hm2 Hok ltac:(congruence)).
    set (st := cycle_loop LocalTZA Date_parse env user (String c s) w) in *.
    clearbody st.
    destruct (latestTimestamp st) as [[iso |] |];
      [| exfalso; apply Hvalid; reflexivity |].
    + destruct Hm2 as [H | H]; [discriminate |]. injection H as <-.
      destruct user; reflexivity.
    + destruct Hm1 as [-> | H]; [destruct user; exact Hinv | discriminate].
Qed.

Lemma process_message_counts (env : Env) (st : LoopState) (message_id : string) :
  let st' := process_message LocalTZA Date_parse env st message_id in
  (length (newTransactions st') + length (missedEmails st')
   <= length (newTransactions st) + length (missedEmails st) + 1)%nat.
Proof.
  unfold process_message.
  destruct (gmail_get env message_id) as [msg |]; [| cbv zeta; lia].
  destruct (parseHDFCEmail _ _ _ _ _ _) as [t | err data].
  - unfold keep_if_new.
    destruct (bool_decide _); cbn [latestTimestamp];
      destruct (match latestTimestamp st with
                | Some latest => date_gt (receivedDate_of Date_parse msg) latest
                | None => true
                end); cbn [newTransactions missedEmails]; rewrite ?length_app; cbn; lia.
  - destruct (toISOString (receivedDate_of Date_parse msg)) as [iso |];
      cbn [mbind option_bind latestTimestamp]; [| lia].
    destruct (match latestTimestamp st with
              | Some latest => date_gt (receivedDate_of Date_parse msg) latest
              | None => true
              end); cbn [newTransactions missedEmails]; rewrite ?length_app; cbn; lia.
Qed.

Lemma fold_process_message_counts (env : Env) (messages : list string) (st : LoopState) :
  let st' := fold_left (process_message LocalTZA Date_parse env) messages st in
  (length (newTransactions st') + length (missedEmails st')
   <= length (newTransactions st) + length (missedEmails st) + length messages)%nat.
Proof.
  revert st. induction messages as [| m messages IH]; intros st; cbn [fold_left length].
  - lia.
  - pose proof (IH (process_message LocalTZA Date_parse env st m)) as H1.
    pose proof (process_message_counts env st m) as H2. cbv zeta in *. lia.
Qed.

(** X16.  The counts that a sync reports add up to at most the number of
    messages it has retrieved: no message is counted twice. *)
Theorem counts_bounded_by_messages (env : Env) (user : User) (w w' : World)
    (res : SyncResult) :
  processUser LocalTZA Date_parse env user w = (w', Returned (Some res)) ->
  (transactions res + missed res <= length (retrieved env user))%nat.
Proof.
  intros Hrun. apply processUser_run in Hrun.
  destruct Hrun as [(_ & H & _) | (c & s & _ & _ & Hrun)].
  { injection H as ->. cbn. lia. }
  cbv zeta in Hrun.
  destruct Hrun as [(H & _) | [(H & _) | [(H & _) | (H & _)]]]; try discriminate.
  - injection H as ->. cbn. lia.
  - injection H as ->. cbn [transactions missed].
    pose proof (fold_process_message_counts env (retrieved env user)
                  (mkLoop (existing_refs (values_read env (String c s) w)) [] [] None))
      as Hc.
    cbn [newTransactions missedEmails length] in Hc. exact Hc.
Qed.


Lemma Forall2_compose {A : Type} (P Q R : A -> A -> Prop) (l k m : list A) :
  (forall x y z, P x y -> Q y z -> R x z) ->
  Forall2 P l k -> Forall2 Q k m -> Forall2 R l m.
Proof.
  intros H Hlk. revert m. induction Hlk as [| x y l k Hxy Hlk IH]; intros m Hkm.
  - inversion Hkm. constructor.
  - inversion Hkm as [| y' z k' m' Hyz Hkm']; subst. constructor; eauto.
Qed.

Lemma cron_loop_frame (envs : string -> Env) (users : list User)
    (totalTransactions totalMissed : nat) (w w' : World) (r : outcome (nat * nat)) :
  cron_loop LocalTZA Date_parse envs users totalTransactions totalMissed w = (w', r) ->
  Forall2
    (fun u u' =>
       id u' = id u
       /\ (is_active u' = true -> is_active u = true)
       /\ (~ In (id u) (map id users) -> u' = u))
    (registry w) (registry w').
Proof.
  revert totalTransactions totalMissed w r.
  induction users as [| user users IH]; intros tt tm w r.
  - intros H. injection H as <- _.
    rewrite <- (map_id (registry w)) at 2. apply Forall2_map_patch. auto.
  - cbn [cron_loop]. unfold bind at 1.
    destruct (processUser LocalTZA Date_parse (envs (id user)) user w)
      as [w1 r1] eqn:Erun.
    pose proof (processUser_registry _ _ _ _ _ Erun) as (P & Hreg & Hkeep & Hact & _).
    assert (Hstep : Forall2
                      (fun u u' =>
                         id u' = id u
                         /\ (is_active u' = true -> is_active u = true)
                         /\ (id u <> id user -> u' = u))
                      (registry w) (registry w1)).
    { rewrite Hreg. apply Forall2_map_patch. intros u. unfold patch_row.
      destruct (String.eqb (id u) (id user)) eqn:E.
      - apply String.eqb_eq in E. split; [apply Hkeep |].
        split; [| intros H; contradiction].
        destruct (Hact u) as [-> | [-> _]]; [auto | discriminate].
      - auto. }
    assert (Hrest : forall a b r',
              cron_loop LocalTZA Date_parse envs users a b w1 = (w', r') ->
              Forall2
                (fun u u' =>
                   id u' = id u
                   /\ (is_active u' = true -> is_active u = true)
                   /\ (~ In (id u) (map id (user :: users)) -> u' = u))
                (registry w) (registry w')).
    { intros a b r' H. apply IH in H.
      eapply Forall2_compose; [| exact Hstep | exact H].
      cbn beta. intros x y z (H1 & H2 & H3) (H4 & H5 & H6).
      split; [congruence |]. split; [auto |].
      intros Hnot. cbn [map In] in Hnot.
      rewrite H6, H3; [reflexivity | intros E; apply Hnot; left; congruence |].
      rewrite H1. intros Hin. apply Hnot. right. exact Hin. }
    destruct r1 as [[res |] |].
    + apply Hrest.
    + apply Hrest.
    + intros H. injection H as <- _.
      eapply Forall2_impl; [exact Hstep |].
      cbn beta. intros x y (H1 & H2 & H3). split; [exact H1 |]. split; [exact H2 |].
      intros Hnot. apply H3. intros E. apply Hnot. left. congruence.
Qed.

(** X17.  A cron run touches active accounts only: it keeps the number,
    order and ids of the registry rows, activates none, and leaves every
    row whose id is not the id of an active account as it is. *)
Theorem runCron_touches_active_accounts_only (registry_ok : bool) (envs : string -> Env)
    (w w' : World) (res : CronResult) :
  runCron LocalTZA Date_parse registry_ok envs w = (w', res) ->
  Forall2
    (fun u u' =>
       id u' = id u
       /\ (is_active u' = true -> is_active u = true)
       /\ ((forall v, In v (registry w) -> is_active v = true -> id v <> id u) ->
           u' = u))
    (registry w) (registry w').
Proof.
  unfold runCron.
  assert (Hsame : Forall2
                    (fun u u' =>
                       id u' = id u
                       /\ (is_active u' = true -> is_active u = true)
                       /\ ((forall v, In v (registry w) -> is_active v = true ->
                                      id v <> id u) -> u' = u))
                    (registry w) (registry w)).
  { rewrite <- (map_id (registry w)) at 2. apply Forall2_map_patch. auto. }
  destruct registry_ok; [| intros H; injection H as <- _; exact Hsame].
  destruct (List.filter (fun u => is_active u) (registry w)) as [| a users] eqn:E;
    [intros H; injection H as <- _; exact Hsame |].
  rewrite <- E. clear Hsame.
  destruct (cron_loop _ _ _ _ _ _ w) as [w1 r] eqn:Eloop.
  apply cron_loop_frame in Eloop.
  intros H.
  assert (w' = w1) by (destruct r as [[]|]; injection H as <- _; reflexivity).
  subst w1. eapply Forall2_impl; [exact Eloop |].
  cbn beta. intros x y (H1 & H2 & H3). split; [exact H1 |]. split; [exact H2 |].
  intros Hnot. apply H3. intros Hin. apply in_map_iff in Hin.
  destruct Hin as (v & Hv & Hin). apply filter_In in Hin. destruct Hin as [Hin Hact].
  exact (Hnot v Hin Hact Hv).
Qed.


Lemma NoDup_map_id_inj (l : list User) (u v : User) :
  NoDup (map id l) -> In u l -> In v l -> id u = id v -> u = v.
Proof.
  induction l as [| x l IH]; [intros _ [] |].
  cbn [map]. intros Hnd Hu Hv Heq. apply NoDup_cons in Hnd. destruct Hnd as [Hx Hnd].
  assert (Hin : forall z, In z l -> id z ∈ map id l).
  { intros z Hz. apply list_elem_of_In, in_map. exact Hz. }
  destruct Hu as [-> | Hu], Hv as [-> | Hv].
  - reflexivity.
  - destruct Hx. rewrite Heq. auto.
  - destruct Hx. rewrite <- Heq. auto.
  - auto.
Qed.

Lemma Forall2_drop_In {A : Type} (P : A -> A -> Prop) (l0 l k : list A) :
  incl l l0 -> Forall2 (fun x y => In x l0 -> P x y) l k -> Forall2 P l k.
Proof.
  intros Hincl H. induction H as [| x y l k Hxy H IH]; constructor.
  - apply Hxy, Hincl. left. reflexivity.
  - apply IH. intros z Hz. apply Hincl. right. exact Hz.
Qed.

Lemma Forall2_map_r {A : Type} (R : A -> A -> Prop) (f : A -> A) (l0 l : list A) :
  (forall x y, R x y -> R x (f y)) -> Forall2 R l0 l -> Forall2 R l0 (map f l).
Proof. intros Hf H. induction H; cbn [map]; constructor; auto. Qed.

Lemma Forall2_diag {A : Type} (R : A -> A -> Prop) (l : list A) :
  (forall x, R x x) -> Forall2 R l l.
Proof. intros H. induction l; constructor; auto. Qed.

Lemma cron_loop_busy (envs : string -> Env) (w0 : World) (users : list User) :
  NoDup (map id (registry w0)) ->
  incl users (registry w0) ->
  forall totalTransactions totalMissed w w' r,
    Forall2 (fun u0 u => In u0 (registry w0) -> is_processing u0 = true -> u = u0)
      (registry w0) (registry w) ->
    cron_loop LocalTZA Date_parse envs users totalTransactions totalMissed w = (w', r) ->
    Forall2 (fun u0 u => In u0 (registry w0) -> is_processing u0 = true -> u = u0)
      (registry w0) (registry w').
Proof.
  intros Hnd. induction users as [| user users IH]; intros Hincl tt tm w w' r Hinv.
  - intros H. injection H as <- _. exact Hinv.
  - cbn [cron_loop]. unfold bind at 1.
    destruct (processUser LocalTZA Date_parse (envs (id user)) user w)
      as [w1 r1] eqn:Erun.
    assert (Hstep : Forall2
                      (fun u0 u => In u0 (registry w0) -> is_processing u0 = true -> u = u0)
                      (registry w0) (registry w1)).
    { pose proof (processUser_run _ _ _ _ _ Erun) as Hrun.
      destruct Hrun as [(-> & _) | (c & s & _ & Hbusy & _)]; [exact Hinv |].
      pose proof (processUser_registry _ _ _ _ _ Erun) as (P & -> & _).
      apply Forall2_map_r; [| exact Hinv].
      intros u0 u Hu Hin Hb. specialize (Hu Hin Hb). subst u.
      apply patch_row_miss. apply String.eqb_neq. intros Heq.
      assert (u0 = user).
      { apply (NoDup_map_id_inj (registry w0)); auto. apply Hincl. left. reflexivity. }
      congruence. }
    assert (Hincl' : incl users (registry w0)).
    { intros z Hz. apply Hincl. right. exact Hz. }
    destruct r1 as [[res |] |].
    + apply (IH Hincl' _ _ _ _ _ Hstep).
    + apply (IH Hincl' _ _ _ _ _ Hstep).
    + intros H. injection H as <- _. exact Hstep.
Qed.

(** X18.  A cron run never resumes an account that is marked busy: in
    a registry with distinct ids every row whose busy flag is set is left
    exactly as it is, so that a flag left behind by an interrupted run
    stays until something else clears it. *)
Theorem busy_accounts_are_left_alone (registry_ok : bool) (envs : string -> Env)
    (w w' : World) (res : CronResult) :
  NoDup (map id (registry w)) ->
  runCron LocalTZA Date_parse registry_ok envs w = (w', res) ->
  Forall2 (fun u u' => is_processing u = true -> u' = u) (registry w) (registry w').
Proof.
  intros Hnd. unfold runCron.
  assert (Hsame : Forall2 (fun u u' => In u (registry w) -> is_processing u = true -> u' = u)
                    (registry w) (registry w)).
  { apply Forall2_diag. auto. }
  assert (Hdone : forall w1,
            Forall2 (fun u u' => In u (registry w) -> is_processing u = true -> u' = u)
              (registry w) (registry w1) ->
            Forall2 (fun u u' => is_processing u = true -> u' = u)
              (registry w) (registry w1)).
  { intros w1 H. apply (Forall2_drop_In _ (registry w)); [apply incl_refl | exact H]. }
  destruct registry_ok; [| intros H; injection H as <- _; apply Hdone, Hsame].
  destruct (List.filter (fun u => is_active u) (registry w)) as [| a users] eqn:E;
    [intros H; injection H as <- _; apply Hdone, Hsame |].
  rewrite <- E.
  destruct (cron_loop _ _ _ _ _ _ w) as [w1 r] eqn:Eloop.
  apply (cron_loop_busy envs w) in Eloop; [| exact Hnd | | exact Hsame].
  - intros H.
    assert (w' = w1) by (destruct r as [[]|]; injection H as <- _; reflexivity).
    subst w1. apply Hdone, Eloop.
  - intros z Hz. apply filter_In in Hz. apply Hz.
Qed.

End AccountRun.

Lemma account_idle_after_cycle_witness :
  Forall (fun u => id u = id example_user -> is_processing u = false)
    (registry (fst registry_cycle))
  /\ map is_processing (registry (fst registry_cycle)) = [false; false; true; false]
  /\ snd registry_cycle = Returned (Some (mkResult 1 0)).
Proof.
  split; [| split; vm_compute; reflexivity].
  apply (account_idle_after_cycle 19800000 example_Date_parse env_alert example_user
           example_registry (fst registry_cycle) (snd registry_cycle));
    [reflexivity | reflexivity | apply surjective_pairing].
Defined.

Lemma cycle_writes_only_own_rows_witness :
  Forall2
    (fun u u' =>
       id u' = id u /\ google_email u' = google_email u
       /\ google_access_token u' = google_access_token u
       /\ google_refresh_token u' = google_refresh_token u
       /\ google_sheet_id u' = google_sheet_id u
       /\ (id u <> id example_user -> u' = u))
    (registry example_registry) (registry (fst registry_cycle))
  /\ skipn 1 (registry (fst registry_cycle)) = [second_user; busy_user; inactive_user]
  /\ last_sync_time <$> head (registry (fst registry_cycle)) = Some (Some 5000).
Proof.
  split; [| split; vm_compute; reflexivity].
  apply (cycle_writes_only_own_rows 19800000 example_Date_parse env_alert example_user
           example_registry (fst registry_cycle) (snd registry_cycle)).
  apply surjective_pairing.
Defined.

Lemma cycle_never_activates_witness :
  Forall2
    (fun u u' =>
       is_active u' = is_active u
       \/ (is_active u' = false /\ id u = id example_user
           /\ exists refreshToken,
                decrypt env_empty_token (google_refresh_token example_user)
                = Some refreshToken
                /\ truthy (refreshAccessToken env_empty_token refreshToken) = false))
    (registry example_registry)
    (registry (fst (processUser 19800000 example_Date_parse env_empty_token
                      example_user example_registry)))
  /\ map is_active (registry example_registry) = [true; true; true; false]
  /\ map is_active
       (registry (fst (processUser 19800000 example_Date_parse env_empty_token
                         example_user example_registry)))
     = [false; true; true; false].
Proof.
  split; [| split; vm_compute; reflexivity].
  apply (cycle_never_activates 19800000 example_Date_parse env_empty_token example_user
           example_registry _
           (snd (processUser 19800000 example_Date_parse env_empty_token
                   example_user example_registry))).
  apply surjective_pairing.
Defined.

Lemma rejected_log_bounded_witness :
  Forall (fun u => (length (missed_emails u) <= 50)%nat) (registry (fst full_log_cycle))
  /\ map (fun u => length (missed_emails u)) (registry full_log_world) = [50%nat]
  /\ snd full_log_cycle = Returned (Some (mkResult 0 2))
  /\ map (fun u => map missed_email_id (missed_emails u)) (registry (fst full_log_cycle))
     = [repeat "old" 48 ++ ["m1"; "m2"]].
Proof.
  split; [| split; [| split]; vm_compute; reflexivity].
  apply (rejected_log_bounded 19800000 example_Date_parse env_two_rejected full_log_user
           full_log_world (fst full_log_cycle) (snd full_log_cycle)).
  - apply surjective_pairing.
  - constructor; [vm_compute; constructor | constructor].
Defined.

Lemma ledger_append_only_witness :
  (exists sh' new,
     ledger (fst registry_cycle) !! "sheet1" = Some sh'
     /\ rows sh' = rows (mkSheet [] (Some 1768224074000)) ++ new
     /\ (google_sheet_id example_user <> Some "sheet1"
         -> sh' = mkSheet [] (Some 1768224074000)))
  /\ (exists sh' new,
        ledger (fst registry_cycle) !! "sheet2" = Some sh'
        /\ rows sh' = rows (mkSheet [] None) ++ new
        /\ (google_sheet_id example_user <> Some "sheet2" -> sh' = mkSheet [] None))
  /\ (ledger example_registry !! "sheet9" = None ->
      ledger (fst registry_cycle) !! "sheet9" = None)
  /\ (length ∘ rows <$> ledger (fst registry_cycle) !! "sheet1") = Some 1%nat.
Proof.
  assert (H : forall k,
            (ledger example_registry !! k = None -> ledger (fst registry_cycle) !! k = None)
            /\ (forall sh, ledger example_registry !! k = Some sh ->
                exists sh' new,
                  ledger (fst registry_cycle) !! k = Some sh'
                  /\ rows sh' = rows sh ++ new
                  /\ (google_sheet_id example_user <> Some k -> sh' = sh))).
  { apply (ledger_append_only 19800000 example_Date_parse env_alert example_user
             example_registry (fst registry_cycle) (snd registry_cycle)).
    apply surjective_pairing. }
  split; [apply (H "sheet1"); reflexivity |].
  split; [apply (H "sheet2"); reflexivity |].
  split; [apply (H "sheet9") | vm_compute; reflexivity].
Defined.

Lemma reported_count_is_rows_written_witness :
  match ledger example_ledger_world !! "sheet1" with
  | Some sh =>
      exists sh' new,
        ledger (fst example_cycle) !! "sheet1" = Some sh'
        /\ rows sh' = rows sh ++ new
        /\ length new = transactions (mkResult 1 0)
  | None =>
      ledger (fst example_cycle) = ledger example_ledger_world
      /\ transactions (mkResult 1 0) = 0%nat
  end.
Proof.
  apply (reported_count_is_rows_written 19800000 example_Date_parse env_alert
           example_user example_ledger_world (fst example_cycle) (mkResult 1 0) "sheet1");
    [reflexivity |].
  apply injective_projections; [reflexivity | vm_compute; reflexivity].
Defined.

Lemma ledger_references_stay_distinct_witness :
  map referenceNumber
    (candidates 19800000 example_Date_parse env_batch (retrieved env_batch example_user))
  = ["ABC123"; "XYZ789"; "XYZ789"]
  /\ exists sh',
       ledger (fst batch_cycle) !! "sheet1" = Some sh'
       /\ NoDup (ledger_refs sh')
       /\ ledger_refs sh' = ["ABC123"; "XYZ789"].
Proof.
  split; [vm_compute; reflexivity |].
  destruct (ledger_references_stay_distinct 19800000 example_Date_parse env_batch
              example_user ledger_with_row (fst batch_cycle) (snd batch_cycle)
              "sheet1" (mkSheet [known_row] (Some 1768224074000)))
    as (sh' & Hsh' & Hnodup);
    [reflexivity | reflexivity | reflexivity | apply NoDup_singleton
    | apply surjective_pairing |].
  exists sh'. split; [exact Hsh' |]. split; [exact Hnodup |].
  assert (H : ledger_refs <$> ledger (fst batch_cycle) !! "sheet1"
              = Some ["ABC123"; "XYZ789"]) by (vm_compute; reflexivity).
  rewrite Hsh' in H. injection H as H. exact H.
Defined.

Lemma metadata_follows_watermark_witness :
  exists sh' user',
    ledger (fst example_cycle) !! "sheet1" = Some sh'
    /\ account_row (id example_user) (fst example_cycle) = Some user'
    /\ metadata_B2 sh' = last_processed_email_timestamp user'.
Proof.
  apply (metadata_follows_watermark 19800000 example_Date_parse env_alert example_user
           example_ledger_world (fst example_cycle) (snd example_cycle)
           "sheet1" (mkSheet [] (Some 1768224074000)));
    [reflexivity | reflexivity | reflexivity | reflexivity | reflexivity
    | apply surjective_pairing].
Defined.

Lemma counts_bounded_by_messages_witness :
  (transactions (mkResult 1 0) + missed (mkResult 1 0)
   <= length (retrieved env_alert example_user))%nat.
Proof.
  apply (counts_bounded_by_messages 19800000 example_Date_parse env_alert example_user
           example_ledger_world (fst example_cycle) (mkResult 1 0)).
  apply injective_projections; [reflexivity | vm_compute; reflexivity].
Defined.

Lemma runCron_touches_active_accounts_only_witness :
  Forall2
    (fun u u' =>
       id u' = id u
       /\ (is_active u' = true -> is_active u = true)
       /\ ((forall v, In v (registry example_registry) -> is_active v = true ->
                      id v <> id u) -> u' = u))
    (registry example_registry) (registry (fst registry_cron))
  /\ snd registry_cron = CronDone 2 0
  /\ nth_error (registry (fst registry_cron)) 3 = Some inactive_user.
Proof.
  split; [| split; vm_compute; reflexivity].
  apply (runCron_touches_active_accounts_only 19800000 example_Date_parse true
           (fun _ => env_alert) example_registry (fst registry_cron)
           (snd registry_cron)).
  apply surjective_pairing.
Defined.

Lemma busy_accounts_are_left_alone_witness :
  Forall2 (fun u u' => is_processing u = true -> u' = u)
    (registry example_registry) (registry (fst registry_cron))
  /\ map is_processing (registry example_registry) = [false; false; true; false]
  /\ nth_error (registry (fst registry_cron)) 2 = Some busy_user
  /\ map last_sync_time (registry (fst registry_cron))
     = [Some 5000; Some 5000; None; None].
Proof.
  split; [| split; [| split]; vm_compute; reflexivity].
  apply (busy_accounts_are_left_alone 19800000 example_Date_parse true
           (fun _ => env_alert) example_registry (fst registry_cron)
           (snd registry_cron)).
  - apply (bool_decide_unpack _). vm_compute. exact I.
  - apply surjective_pairing.
Defined.

(** ** Deduplication against the ledger *)

Section DedupLedger.
Variable LocalTZA : Zone.
Variable Date_parse : string -> Date.

Lemma cycle_appends_survivors (env : Env) (user : User) (w w1 : World)
    (res : SyncResult) (c : ascii) (s : string) (sh : Sheet) :
  google_sheet_id user = Some (String c s) ->
  is_processing user = false ->
  ledger w !! String c s = Some sh ->
  processUser LocalTZA Date_parse env user w = (w1, Returned (Some res)) ->
  let appended :=
    reconcile (values_read env (String c s) w)
      (candidates LocalTZA Date_parse env (retrieved env user)) in
  exists sh1,
    ledger w1 !! String c s = Some sh1
    /\ rows sh1 = rows sh ++ appended
    /\ transactions res = length appended.
Proof.
  intros Hsheet Hbusy Hsh Hrun appended.
  assert (Hloop : newTransactions (cycle_loop LocalTZA Date_parse env user (String c s) w)
                  = appended).
  { unfold cycle_loop. apply message_loop_survivors. }
  apply processUser_run in Hrun.
  destruct Hrun as [(_ & _ & [H | H]) | (c' & s' & Hsheet' & _ & Hrun)].
  { rewrite Hsheet in H. discriminate. }
  { congruence. }
  rewrite Hsheet in Hsheet'. injection Hsheet' as <- <-. cbv zeta in Hrun.
  rewrite Hloop in Hrun.
  destruct Hrun as [(H & _) | [(H & _) | [(H & Hnone & ->)
                   | (H & _ & _ & _ & meta & _ & _ & ->)]]]; try discriminate.
  - injection H as ->.
    assert (Hnil : appended = []).
    { subst appended. unfold retrieved. rewrite Hnone. reflexivity. }
    rewrite Hnil. exists sh. cbn [ledger]. rewrite app_nil_r. auto.
  - injection H as ->. cbn [ledger transactions].
    rewrite write_sheet_lookup, decide_True, Hsh by reflexivity.
    eexists. split; [reflexivity |]. split; reflexivity.
Qed.

Lemma cycle_on_known_batch (env : Env) (user : User) (w w' : World)
    (r : outcome (option SyncResult)) (sid : string) (sh : Sheet) :
  google_sheet_id user = Some sid ->
  ledger w !! sid = Some sh ->
  sheets_get_ok env = true ->
  refs_of (candidates LocalTZA Date_parse env (retrieved env user))
  ⊆ existing_refs (column_of sh) ->
  processUser LocalTZA Date_parse env user w = (w', r) ->
  exists sh',
    ledger w' !! sid = Some sh' /\ rows sh' = rows sh
    /\ forall res, r = Returned (Some res) -> transactions res = 0%nat.
Proof.
  intros Hsid Hsh Hget Hknown Hrun. apply processUser_ledger in Hrun.
  destruct Hrun as [(-> & ->) | (c & s & new & meta & Hsheet & _ & Hled & Hnew & Hres & _)].
  { exists sh. split; [exact Hsh |]. split; [reflexivity |].
    intros res H. injection H as <-. reflexivity. }
  rewrite Hsid in Hsheet. injection Hsheet as ->.
  assert (Hnil : new = []).
  { destruct Hnew as [-> | ->]; [reflexivity |].
    unfold cycle_loop, values_read. rewrite Hget, Hsh, message_loop_survivors.
    apply (survivors_known Date_parse). exact Hknown. }
  subst new. rewrite Hled, write_sheet_lookup, decide_True, Hsh by reflexivity.
  eexists. split; [reflexivity |]. cbn [rows]. split; [apply app_nil_r |].
  intros res H. destruct (Hres res H) as [Hlen _]. exact Hlen.
Qed.

Lemma values_read_known (env : Env) (sid : string) (w : World) (sh : Sheet) :
  ledger w !! sid = Some sh ->
  existing_refs (values_read env sid w) ⊆ existing_refs (column_of sh).
Proof.
  intros Hsh. unfold values_read. rewrite Hsh.
  destruct (sheets_get_ok env); [reflexivity |].
  unfold existing_refs at 1. cbn. set_solver.
Qed.

Lemma survivors_app (refs : gset string) (ts1 ts2 : list ParsedTransaction) :
  survivors refs (ts1 ++ ts2)
  = survivors refs ts1 ++ survivors (refs ∪ refs_of ts1) ts2.
Proof.
  unfold survivors at 1.
  rewrite fold_left_app, (fold_keep_if_new Date_parse ts1), (fold_keep_if_new Date_parse ts2).
  reflexivity.
Qed.

(** C2.  Deduplication has set semantics.  A cycle that ends with its
    counts appends to the ledger of the account exactly the survivors of
    the batch (the accepted messages, in arrival order) against the
    reference column it has read, and reports their number; a candidate
    of the batch is among them, at its place, if and only if its
    reference is not in the set built from the column and from the
    earlier candidates of the batch, so that of two candidates with one
    reference only the first is appended; and
    a second cycle with the same batch, which reads the column that the
    first has written, appends nothing.  The set built from the column
    holds the non-empty first cells of its rows. *)
Theorem dedup_set_semantics (env env2 : Env) (user user2 : User) (w w1 w2 : World)
    (c : ascii) (s : string) (sh : Sheet) (res : SyncResult)
    (r2 : outcome (option SyncResult)) :
  let sid := String c s in
  let column := values_read env sid w in
  let batch := candidates LocalTZA Date_parse env (retrieved env user) in
  let appended := reconcile column batch in
  google_sheet_id user = Some sid ->
  is_processing user = false ->
  ledger w !! sid = Some sh ->
  processUser LocalTZA Date_parse env user w = (w1, Returned (Some res)) ->
  (exists sh1,
     ledger w1 !! sid = Some sh1
     /\ rows sh1 = rows sh ++ appended
     /\ transactions res = length appended
     /\ (google_sheet_id user2 = Some sid ->
         sheets_get_ok env2 = true ->
         candidates LocalTZA Date_parse env2 (retrieved env2 user2) = batch ->
         processUser LocalTZA Date_parse env2 user2 w1 = (w2, r2) ->
         exists sh2,
           ledger w2 !! sid = Some sh2
           /\ rows sh2 = rows sh1
           /\ forall res2, r2 = Returned (Some res2) -> transactions res2 = 0%nat))
  /\ (forall x, x ∈ existing_refs column
                 <-> x <> "" /\ exists rest, In (x :: rest) column)
  /\ (forall pre t post,
        batch = pre ++ t :: post ->
        appended
        = reconcile column pre
          ++ (if bool_decide (referenceNumber t ∈ existing_refs column ∪ refs_of pre)
              then [] else [t])
          ++ survivors (existing_refs column ∪ refs_of (pre ++ [t])) post)
  /\ (forall pre mid post t1 t2,
        batch = pre ++ t1 :: mid ++ t2 :: post ->
        referenceNumber t1 = referenceNumber t2 ->
        appended = reconcile column (pre ++ t1 :: mid ++ post)).
Proof.
  intros sid column batch appended Hsheet Hbusy Hsh Hrun.
  split; [| split; [intros x; apply existing_refs_elem |]; split].
  2: { intros pre t post Hsplit. subst appended. rewrite Hsplit.
       change (reconcile column ?l) with (survivors (existing_refs column) l).
       replace (pre ++ t :: post) with ((pre ++ [t]) ++ post)
         by (rewrite <- app_assoc; reflexivity).
       rewrite survivors_app, (survivors_snoc Date_parse), <- app_assoc.
       reflexivity. }
  2: { intros pre mid post t1 t2 Hsplit Href. subst appended. rewrite Hsplit.
       apply (survivors_duplicate Date_parse). exact Href. }
  destruct (cycle_appends_survivors env user w w1 res c s sh Hsheet Hbusy Hsh Hrun)
    as (sh1 & Hsh1 & Hrows & Hcount).
  fold sid column batch appended in Hsh1, Hrows, Hcount.
  exists sh1. split; [exact Hsh1 |]. split; [exact Hrows |]. split; [exact Hcount |].
  intros Hsid2 Hget2 Hbatch Hrun2.
  apply (cycle_on_known_batch env2 user2 w1 w2 r2 sid sh1 Hsid2 Hsh1 Hget2); [| exact Hrun2].
  rewrite Hbatch.
  assert (Hcol : existing_refs (column_of sh1)
                 = existing_refs (column_of sh) ∪ refs_of appended).
  { unfold column_of. rewrite Hrows, map_app.
    apply (existing_refs_column_after (map (fun t => [referenceNumber t]) (rows sh))).
    intros t Hin. apply (candidates_reference_nonempty LocalTZA Date_parse env (retrieved env user)).
    exact (survivors_subset Date_parse _ _ _ Hin). }
  rewrite Hcol.
  pose proof (survivors_refs Date_parse (existing_refs column) batch) as Hrefs.
  pose proof (values_read_known env sid w sh Hsh) as Hsub.
  fold column in Hsub.
  change (reconcile column batch) with (survivors (existing_refs column) batch) in appended.
  subst appended. set_solver.
Qed.

End DedupLedger.


Lemma dedup_set_semantics_witness :
  let w1 := fst batch_cycle in
  let user1 := hd example_user (registry w1) in
  let batch := candidates 19800000 example_Date_parse env_batch
                 (retrieved env_batch example_user) in
  map referenceNumber batch = ["ABC123"; "XYZ789"; "XYZ789"]
  /\ map amount batch = [Dec 500 0; Dec 250 0; Dec 7550 2]
  /\ exists sh1,
       ledger w1 !! "sheet1" = Some sh1
       /\ rows sh1 = known_row :: reconcile [["ABC123"]] batch
       /\ map amount (rows sh1) = [Dec 500 0; Dec 250 0]
       /\ exists sh2,
            ledger (fst (processUser 19800000 example_Date_parse env_batch user1 w1))
              !! "sheet1" = Some sh2
            /\ rows sh2 = rows sh1.
Proof.
  intros w1 user1 batch.
  split; [vm_compute; reflexivity |]. split; [vm_compute; reflexivity |].
  assert (Hrun : processUser 19800000 example_Date_parse env_batch example_user
                   ledger_with_row
                 = (w1, Returned (Some (mkResult 1 0)))).
  { apply injective_projections; [reflexivity | vm_compute; reflexivity]. }
  destruct (dedup_set_semantics 19800000 example_Date_parse env_batch env_batch
              example_user user1 ledger_with_row w1
              (fst (processUser 19800000 example_Date_parse env_batch user1 w1))
              "s" "heet1" (mkSheet [known_row] (Some 1768224074000)) (mkResult 1 0)
              (snd (processUser 19800000 example_Date_parse env_batch user1 w1))
              eq_refl eq_refl eq_refl Hrun)
    as ((sh1 & Hsh1 & Hrows & _ & Hsecond) & _).
  exists sh1. split; [exact Hsh1 |]. split; [exact Hrows |].
  split; [rewrite Hrows; vm_compute; reflexivity |].
  destruct (Hsecond eq_refl eq_refl) as (sh2 & Hsh2 & Hsame & _);
    [vm_compute; reflexivity | apply surjective_pairing |].
  exists sh2. split; [exact Hsh2 | exact Hsame].
Defined.

(** ** A deployment without its encryption key *)

Section MissingKey.
Variable LocalTZA : Zone.
Variable Date_parse : string -> Date.

Lemma decrypt_without_key {Buffer Key : Type} (configured : option string)
    (sha256 : string -> Key) (from_hex : string -> Buffer)
    (aes : Key -> Buffer -> Buffer -> string -> option string) (text : string) :
  configured = None \/ configured = Some "" ->
  Encryption.decrypt configured sha256 from_hex aes text = None.
Proof. intros [-> | ->]; reflexivity. Qed.

Lemma processUser_decrypt_fails (env : Env) (user : User) (w : World) :
  decrypt env (google_refresh_token user) = None ->
  exists w' r,
    processUser LocalTZA Date_parse env user w = (w', Returned r)
    /\ ledger w' = ledger w
    /\ (r = None \/ r = Some (mkResult 0 0))
    /\ Forall2 (fun u u' => u' = u \/ u' = set_is_processing false u)
         (registry w) (registry w').
Proof.
  intros Hdec.
  assert (Hsame : Forall2 (fun u u' : User => u' = u \/ u' = set_is_processing false u)
                    (registry w) (registry w)).
  { induction (registry w); constructor; auto. }
  destruct (google_sheet_id user) as [[| c s] |] eqn:Esheet.
  - exists w, (Some (mkResult 0 0)). unfold processUser. rewrite Esheet. auto.
  - destruct (is_processing user) eqn:Ebusy.
    + exists w, (Some (mkResult 0 0)). unfold processUser. rewrite Esheet, Ebusy. auto.
    + eexists _, None.
      rewrite (decrypt_failure_effect LocalTZA Date_parse env user w c s Esheet Ebusy Hdec).
      split; [reflexivity |]. split; [reflexivity |]. split; [auto |].
      cbn [registry]. clear. induction (registry w) as [| u l IH]; cbn [map]; constructor.
      * unfold patch_row. destruct (String.eqb _ _); auto.
      * exact IH.
  - exists w, (Some (mkResult 0 0)). unfold processUser. rewrite Esheet. auto.
Qed.

Lemma cron_loop_decrypt_fails (envs : string -> Env) (users : list User)
    (totalTransactions totalMissed : nat) (w : World) :
  (forall uid text, decrypt (envs uid) text = None) ->
  exists w',
    cron_loop LocalTZA Date_parse envs users totalTransactions totalMissed w
    = (w', Returned (totalTransactions, totalMissed))
    /\ ledger w' = ledger w
    /\ Forall2 (fun u u' => u' = u \/ u' = set_is_processing false u)
         (registry w) (registry w').
Proof.
  intros Hdec. revert w. induction users as [| user users IH]; intros w.
  - exists w. split; [reflexivity |]. split; [reflexivity |].
    induction (registry w); constructor; auto.
  - cbn [cron_loop]. unfold bind at 1.
    destruct (processUser_decrypt_fails (envs (id user)) user w (Hdec _ _))
      as (w1 & r & -> & Hled & Hr & Hreg).
    destruct (IH w1) as (w' & Hloop & Hled' & Hreg').
    exists w'.
    split.
    { destruct Hr as [-> | ->]; [exact Hloop |].
      cbn [transactions missed]. rewrite !Nat.add_0_r. exact Hloop. }
    split; [congruence |].
    eapply Forall2_compose; [| exact Hreg | exact Hreg'].
    cbn beta. intros x y z [-> | ->] [-> | ->]; auto.
Qed.

(** X19.  Without ENCRYPTION_SECRET_KEY (unset or empty) decryption
    fails on every stored credential whatever the crypto primitives do,
    and a cron run then syncs nothing: no ledger changes, every registry
    row is as before except for a cleared busy flag, and the run still
    ends without a failure of its own, with zero totals. *)
Theorem missing_key_fails_every_sync {Buffer Key : Type} (configured : option string)
    (sha256 : string -> Key) (from_hex : string -> Buffer)
    (aes : Key -> Buffer -> Buffer -> string -> option string)
    (registry_ok : bool) (envs : string -> Env) (w : World) :
  configured = None \/ configured = Some "" ->
  (forall uid text,
     decrypt (envs uid) text = Encryption.decrypt configured sha256 from_hex aes text) ->
  let w' := fst (runCron LocalTZA Date_parse registry_ok envs w) in
  let result := snd (runCron LocalTZA Date_parse registry_ok envs w) in
  ledger w' = ledger w
  /\ Forall2 (fun u u' => u' = u \/ u' = set_is_processing false u)
       (registry w) (registry w')
  /\ (result = CronFailed /\ registry_ok = false
      \/ result = NoUsers \/ result = CronDone 0 0).
Proof.
  intros Hkey Hdec. cbv zeta.
  assert (Hnone : forall uid text, decrypt (envs uid) text = None).
  { intros uid text. rewrite Hdec. apply decrypt_without_key, Hkey. }
  assert (Hsame : Forall2 (fun u u' : User => u' = u \/ u' = set_is_processing false u)
                    (registry w) (registry w)).
  { induction (registry w); constructor; auto. }
  unfold runCron. destruct registry_ok; [| cbn [fst snd]; auto].
  destruct (List.filter (fun u => is_active u) (registry w)) as [| a users] eqn:E;
    [cbn [fst snd]; auto |].
  destruct (cron_loop_decrypt_fails envs (a :: users) 0 0 w Hnone)
    as (w' & -> & Hled & Hreg).
  cbn [fst snd]. auto.
Qed.

End MissingKey.

Lemma missing_key_fails_every_sync_witness :
  ledger (fst (runCron 19800000 example_Date_parse true (fun _ => env_without_key)
                 example_ledger_world))
  = ledger example_ledger_world
  /\ Forall2 (fun u u' => u' = u \/ u' = set_is_processing false u)
       (registry example_ledger_world)
       (registry (fst (runCron 19800000 example_Date_parse true
                         (fun _ => env_without_key) example_ledger_world)))
  /\ (snd (runCron 19800000 example_Date_parse true (fun _ => env_without_key)
             example_ledger_world) = CronFailed /\ true = false
      \/ snd (runCron 19800000 example_Date_parse true (fun _ => env_without_key)
                example_ledger_world) = NoUsers
      \/ snd (runCron 19800000 example_Date_parse true (fun _ => env_without_key)
                example_ledger_world) = CronDone 0 0).
Proof.
  apply (missing_key_fails_every_sync 19800000 example_Date_parse None
           (fun _ : string => tt) (fun _ : string => tt) (fun _ _ _ _ => Some "refresh")
           true (fun _ => env_without_key) example_ledger_world).
  - left. reflexivity.
  - intros uid text. reflexivity.
Defined.

(** ** The reset script *)

Section Reset.
Import ResetUserAuth.

Lemma resetUserAuth_registry (registry_ok : bool) (email : option string) (w : World) :
  exists p : User -> bool,
    fst (resetUserAuth registry_ok email w)
    = mkWorld (map (fun u => if p u then reset_patch u else u) (registry w)) (ledger w)
    /\ (registry_ok = false -> p = fun _ => false)
    /\ (registry_ok = true ->
        p = match email with
            | Some (String c s) => fun u => String.eqb (google_email u) (String c s)
            | _ => fun u => is_active u
            end).
Proof.
  assert (Hnone : w = mkWorld (map (fun u => if (fun _ : User => false) u
                                             then reset_patch u else u) (registry w))
                          (ledger w)).
  { rewrite map_id. destruct w; reflexivity. }
  unfold resetUserAuth, update_where.
  destruct registry_ok.
  - destruct email as [[| c s] |];
      eexists; (split; [reflexivity |]); (split; [discriminate | reflexivity]).
  - exists (fun _ => false).
    split; [destruct email as [[| c s] |]; exact Hnone |].
    split; [reflexivity | discriminate].
Qed.

(** X20.  The reset script never touches what a sync works with: the
    ledgers, and in every registry row the id, the address, the ledger
    id, the watermark, the busy flag, the rejected-message log and the
    time of the last sync are as before, and a row that is still active
    after the script is unchanged.  In particular the script does not
    clear a busy flag. *)
Theorem reset_keeps_sync_state (registry_ok : bool) (email : option string) (w : World) :
  let w' := fst (resetUserAuth registry_ok email w) in
  ledger w' = ledger w
  /\ Forall2
       (fun u u' =>
          id u' = id u /\ google_email u' = google_email u
          /\ google_sheet_id u' = google_sheet_id u
          /\ last_processed_email_timestamp u' = last_processed_email_timestamp u
          /\ is_processing u' = is_processing u
          /\ missed_emails u' = missed_emails u
          /\ last_sync_time u' = last_sync_time u
          /\ (is_active u' = true -> u' = u))
       (registry w) (registry w').
Proof.
  destruct (resetUserAuth_registry registry_ok email w) as (p & Hw & _).
  cbv zeta. rewrite Hw. cbn [ledger registry]. split; [reflexivity |].
  apply Forall2_map_patch. intros u. destruct (p u); [| repeat split; auto].
  repeat split; auto. discriminate.
Qed.

(** X21.  Resetting one address deactivates the rows with that
    address and empties both of their stored credentials, leaves every
    other row as it is, and reports the reset exactly when such a row
    exists ("User not found" exactly when none does). *)
Theorem reset_one_account (c : ascii) (s : string) (w : World) :
  let email := String c s in
  let w' := fst (resetUserAuth true (Some email) w) in
  Forall2
    (fun u u' =>
       (google_email u = email ->
        is_active u' = false /\ google_access_token u' = ""
        /\ google_refresh_token u' = "")
       /\ (google_email u <> email -> u' = u))
    (registry w) (registry w')
  /\ (snd (resetUserAuth true (Some email) w) = ResetOne email
      <-> exists u, In u (registry w) /\ google_email u = email)
  /\ (snd (resetUserAuth true (Some email) w) = UserNotFound email
      <-> forall u, In u (registry w) -> google_email u <> email).
Proof.
  cbv zeta. unfold resetUserAuth, update_where. cbn [fst snd registry].
  split.
  { apply Forall2_map_patch. intros u.
    destruct (String.eqb_spec (google_email u) (String c s)).
    - split; [intros _; cbn; auto | contradiction].
    - split; [contradiction | reflexivity]. }
  destruct (List.filter _ (registry w)) as [| u us] eqn:E; cbn [map].
  - assert (Hnone : forall u, In u (registry w) -> google_email u <> String c s).
    { intros u Hin Heq.
      assert (In u []) as [].
      rewrite <- E. apply filter_In. split; [exact Hin |].
      apply String.eqb_eq. exact Heq. }
    split; split; try discriminate; auto.
    intros (u & Hin & Heq). destruct (Hnone u Hin Heq).
  - assert (Hsome : In u (registry w) /\ google_email u = String c s).
    { assert (In u (u :: us)) as H by (left; reflexivity).
      rewrite <- E in H. apply filter_In in H. destruct H as [H1 H2].
      apply String.eqb_eq in H2. auto. }
    split; split; try discriminate; eauto.
    intros H. destruct Hsome as [H1 H2]. destruct (H u H1 H2).
Qed.

Lemma reset_patch_idempotent (u : User) : reset_patch (reset_patch u) = reset_patch u.
Proof. reflexivity. Qed.

(** X22.  Running the reset script a second time with the same argument
    changes nothing. *)
Theorem reset_is_idempotent (registry_ok : bool) (email : option string) (w : World) :
  fst (resetUserAuth registry_ok email (fst (resetUserAuth registry_ok email w)))
  = fst (resetUserAuth registry_ok email w).
Proof.
  destruct (resetUserAuth_registry registry_ok email w) as (p & Hw & Hno & Hyes).
  destruct (resetUserAuth_registry registry_ok email (fst (resetUserAuth registry_ok email w)))
    as (p' & Hw' & Hno' & Hyes').
  rewrite Hw', Hw. cbn [registry ledger]. f_equal.
  rewrite map_map. apply map_ext. intros u.
  destruct registry_ok.
  - rewrite (Hyes eq_refl), (Hyes' eq_refl).
    destruct email as [[| c s] |].
    + destruct (is_active u) eqn:Ea; [reflexivity | rewrite Ea; reflexivity].
    + destruct (String.eqb (google_email u) (String c s)) eqn:Ee;
        [cbn [google_email reset_patch] | rewrite Ee; reflexivity].
      rewrite Ee. reflexivity.
    + destruct (is_active u) eqn:Ea; [reflexivity | rewrite Ea; reflexivity].
  - rewrite (Hno eq_refl), (Hno' eq_refl). reflexivity.
Qed.

Variable LocalTZA : Zone.
Variable Date_parse : string -> Date.

(** X23.  The reset of all accounts (no argument, or an empty one)
    leaves no account active, reports the number of accounts that were
    active, and stops every sync: the next cron run finds no account and
    changes nothing. *)
Theorem reset_all_stops_every_sync (email : option string) (envs : string -> Env)
    (w : World) :
  email = None \/ email = Some "" ->
  let w' := fst (resetUserAuth true email w) in
  Forall (fun u => is_active u = false) (registry w')
  /\ snd (resetUserAuth true email w)
     = ResetAll (length (List.filter (fun u => is_active u) (registry w)))
  /\ runCron LocalTZA Date_parse true envs w' = (w', NoUsers).
Proof.
  intros Hall. cbv zeta.
  assert (Hrun : resetUserAuth true email w
                 = (mkWorld (map (fun u => if is_active u then reset_patch u else u)
                               (registry w)) (ledger w),
                    ResetAll (length (List.filter (fun u => is_active u) (registry w))))).
  { destruct Hall as [-> | ->]; unfold resetUserAuth, update_where;
      rewrite length_map; reflexivity. }
  rewrite Hrun. clear Hrun. cbn [fst snd registry].
  assert (Hoff : Forall (fun u => is_active u = false)
                   (map (fun u => if is_active u then reset_patch u else u) (registry w))).
  { apply List.Forall_forall. intros u' Hin. apply in_map_iff in Hin.
    destruct Hin as (u & <- & _). destruct (is_active u) eqn:E; [reflexivity | exact E]. }
  split; [exact Hoff |]. split; [reflexivity |].
  unfold runCron. cbn [registry].
  replace (List.filter (fun u => is_active u) _) with (@nil User); [reflexivity |].
  symmetry. induction Hoff as [| u l Hu Hl IH]; [reflexivity |].
  cbn [List.filter]. rewrite Hu. exact IH.
Qed.


End Reset.

Lemma reset_all_stops_every_sync_witness :
  Forall (fun u => is_active u = false)
    (registry (fst (ResetUserAuth.resetUserAuth true None example_ledger_world)))
  /\ snd (ResetUserAuth.resetUserAuth true None example_ledger_world)
     = ResetUserAuth.ResetAll
         (length (List.filter (fun u => is_active u) (registry example_ledger_world)))
  /\ runCron 19800000 example_Date_parse true (fun _ => env_alert)
       (fst (ResetUserAuth.resetUserAuth true None example_ledger_world))
     = (fst (ResetUserAuth.resetUserAuth true None example_ledger_world), NoUsers).
Proof.
  apply (reset_all_stops_every_sync 19800000 example_Date_parse None (fun _ => env_alert)
           example_ledger_world).
  left. reflexivity.
Defined.

(** ** The server *)

Section ServerRoutes.
Import Server.

(** The one header that [authenticateRequest] lets through. *)
Lemma bearer_secret_is_the_only_key (secret : string) (authHeader : option string) :
  authenticateRequest secret authHeader = Next
  <-> authHeader = Some ("Bearer " +:+ secret).
Proof.
  unfold authenticateRequest. split.
  - destruct authHeader as [[| c s] |]; try discriminate.
    destruct (starts_with "Bearer " (String c s)) eqn:E; [| discriminate].
    apply starts_with_spec in E. destruct E as (rest & ->).
    change (drop 7 ("Bearer " +:+ rest)) with rest.
    destruct (String.eqb_spec rest secret); [subst; reflexivity | discriminate].
  - intros ->.
    change ("Bearer " +:+ secret) with (String "B" ("earer " +:+ secret)).
    cbv beta iota zeta.
    change (String "B" ("earer " +:+ secret)) with ("Bearer " +:+ secret).
    rewrite (proj2 (starts_with_spec "Bearer " _)) by (exists secret; reflexivity).
    change (drop 7 ("Bearer " +:+ secret)) with secret.
    rewrite String.eqb_refl. reflexivity.
Qed.

(** X24.  The authentication middleware lets a request through exactly
    when its authorization header is "Bearer " followed by the secret, and
    answers 401 exactly when the header is missing or does not start with
    "Bearer " (403 in between: a bearer token that is not the secret). *)
Theorem authenticateRequest_verdicts (secret : string) (authHeader : option string) :
  (authenticateRequest secret authHeader = Next
   <-> authHeader = Some ("Bearer " +:+ secret))
  /\ (authenticateRequest secret authHeader = Unauthorized
      <-> forall token, authHeader <> Some ("Bearer " +:+ token)).
Proof.
  split; [apply bearer_secret_is_the_only_key |].
  unfold authenticateRequest.
  destruct authHeader as [[| c s] |].
  - split; [intros _ token H; discriminate | reflexivity].
  - destruct (starts_with "Bearer " (String c s)) eqn:E.
    + apply starts_with_spec in E. destruct E as (rest & E). rewrite E. split.
      * destruct (String.eqb _ _); discriminate.
      * intros H. destruct (H rest eq_refl).
    + split; [| reflexivity]. intros _ token H.
      assert (starts_with "Bearer " (String c s) = true) as H'
        by (apply starts_with_spec; exists token; congruence).
      congruence.
  - split; [intros _ token H; discriminate | reflexivity].
Qed.

(** The secret of the server is never empty, so that a bearer header
    without a token is refused (403); and when API_SECRET is unset or
    empty the server accepts the default key of the source text. *)
Lemma secret_is_never_empty (configured : option string) :
  API_SECRET configured <> ""
  /\ authenticateRequest (API_SECRET configured) (Some "Bearer ") = Forbidden
  /\ (configured = None \/ configured = Some "" ->
      authenticateRequest (API_SECRET configured) (Some "Bearer your-secret-key-here")
      = Next).
Proof.
  split; [destruct configured as [[| c s] |]; discriminate |].
  split; [destruct configured as [[| c s] |]; reflexivity |].
  intros [-> | ->]; reflexivity.
Qed.

Variable LocalTZA : Zone.
Variable Date_parse : string -> Date.

(** X25.  The route that triggers a sync runs the cron exactly for the
    requests whose body the body parser passes on and that carry the
    secret: their answer has status 200 and the success flag of the run,
    also when the run failed.  Every other request leaves the world as it
    is: a request whose body is refused is answered with the status of
    the refusal, whatever its authorization header, and one without the
    secret with 401 or 403. *)
Theorem trigger_sync_requires_secret (configured : option string) (req : Request)
    (registry_ok : bool) (envs : string -> Env) (w : World) :
  let run := runCron LocalTZA Date_parse registry_ok envs w in
  let answer := trigger_sync LocalTZA Date_parse configured req registry_ok envs w in
  match body req with
  | BodyRefused refusal page =>
      fst answer = w
      /\ status (snd answer) = refusal
      /\ success (snd answer) = None
  | BodyPassed =>
      (authorization req = Some ("Bearer " +:+ API_SECRET configured)
       /\ fst answer = fst run
       /\ status (snd answer) = 200%nat
       /\ success (snd answer) = Some (cron_success (snd run)))
      \/ (authorization req <> Some ("Bearer " +:+ API_SECRET configured)
          /\ fst answer = w
          /\ (status (snd answer) = 401%nat \/ status (snd answer) = 403%nat)
          /\ success (snd answer) = None)
  end.
Proof.
  cbv zeta. unfold trigger_sync.
  destruct (body req) as [| refusal page]; [| cbn; auto].
  destruct (authenticateRequest (API_SECRET configured) (authorization req)) eqn:E.
  - right. split; [| cbn; auto].
    intros H. apply bearer_secret_is_the_only_key in H. congruence.
  - right. split; [| cbn; auto].
    intros H. apply bearer_secret_is_the_only_key in H. congruence.
  - left. apply bearer_secret_is_the_only_key in E. split; [exact E |].
    destruct (runCron _ _ _ _ _) as [w' result]. cbn. auto.
Qed.

End ServerRoutes.
